(** * creator-score-sdk: the IQ analysis route

    A shallow embedding of the scoring route of
    [src/creator-iq-routes/leaderboard-route.ts] (second document of the
    file): the four feature extractors, [analyzeWithAI] with its tiers,
    [fetchUserCasts] and the [POST] handler.  Two further routes follow
    at the end of the definitions: the faucet ([Faucet], from
    [src/creator-iq-routes/faucet-route.ts]) and the user search
    ([Search], from [src/unnamed/part_000]).

    Conventions of the embedding.
    - A JavaScript number is an exact rational ([Q]); [NaN] is added where a
      value read from a JSON payload is converted to a number.  Overflow to
      an infinity and binary rounding are outside the model.
    - A value read from a JSON payload is undefined, null, a boolean, a
      number or a text; an array or an object in that place is outside the
      model.
    - A text is a [string] of bytes.  For ASCII texts lengths, character
      classes and literal matches agree with JavaScript's UTF-16 strings.
    - Every outcome of the outside world (HTTP answers, JSON bodies,
      [Math.random], the database helpers of [@/lib/mongodb]) is an input,
      gathered in [Env]; the external calls made are recorded in a trace. *)

From Stdlib Require Import ZArith QArith Qround Qminmax Qabs Lqa Lia.
From Stdlib Require Import List String Ascii Bool DecimalString.
Import ListNotations.

Local Open Scope Z_scope.
Local Open Scope Q_scope.
Local Open Scope string_scope.

(* ------------------------------------------------------------------ *)
(** ** The JavaScript substrate *)

Module JS.

(** A number that may be [NaN]. *)
Inductive number : Type :=
| NaN
| Num (q : Q).

(** The values a property of a parsed JSON object can have;
    [JUndefined] is what reading an absent property yields.  Nested
    arrays and objects as property values are not modelled. *)
Inductive jsval : Type :=
| JUndefined
| JNull
| JBool (b : bool)
| JNumber (q : Q)
| JString (s : string).

Definition is_digit (c : ascii) : bool :=
  let n := nat_of_ascii c in (48 <=? n)%nat && (n <=? 57)%nat.

Definition is_upper (c : ascii) : bool :=
  let n := nat_of_ascii c in (65 <=? n)%nat && (n <=? 90)%nat.

Definition is_lower (c : ascii) : bool :=
  let n := nat_of_ascii c in (97 <=? n)%nat && (n <=? 122)%nat.

(** [\w] : letters, digits and the underscore. *)
Definition is_word (c : ascii) : bool :=
  is_upper c || is_lower c || is_digit c || (nat_of_ascii c =? 95)%nat.

(** [\s] restricted to ASCII: tab, line feed, vertical tab, form feed,
    carriage return, space. *)
Definition is_space (c : ascii) : bool :=
  let n := nat_of_ascii c in
  ((9 <=? n)%nat && (n <=? 13)%nat) || (n =? 32)%nat.

Definition lower_char (c : ascii) : ascii :=
  if is_upper c then ascii_of_nat (nat_of_ascii c + 32) else c.

Fixpoint string_map (f : ascii -> ascii) (s : string) : string :=
  match s with
  | EmptyString => EmptyString
  | String c s' => String (f c) (string_map f s')
  end.

Fixpoint string_filter (p : ascii -> bool) (s : string) : string :=
  match s with
  | EmptyString => EmptyString
  | String c s' =>
      if p c then String c (string_filter p s') else string_filter p s'
  end.

Fixpoint string_exists (p : ascii -> bool) (s : string) : bool :=
  match s with
  | EmptyString => false
  | String c s' => p c || string_exists p s'
  end.

(** [toLowerCase], on the ASCII letters. *)
Definition toLowerCase (s : string) : string := string_map lower_char s.

(** [arr.join(sep)]. *)
Fixpoint join (sep : string) (l : list string) : string :=
  match l with
  | [] => ""
  | [s] => s
  | s :: rest => s ++ sep ++ join sep rest
  end.

Fixpoint drop_while (p : ascii -> bool) (s : string) : string :=
  match s with
  | EmptyString => EmptyString
  | String c s' => if p c then drop_while p s' else s
  end.

Fixpoint string_rev_onto (s acc : string) : string :=
  match s with
  | EmptyString => acc
  | String c s' => string_rev_onto s' (String c acc)
  end.

Definition string_rev (s : string) : string := string_rev_onto s "".

(** [s.trim()]. *)
Definition trim (s : string) : string :=
  string_rev (drop_while is_space (string_rev (drop_while is_space s))).

(** [s.split(re)] for a regular expression [re] that matches the
    non-empty runs of the characters satisfying [sep]: the pieces
    between the runs, empty pieces at either end included. *)
Fixpoint split_runs_aux (sep : ascii -> bool) (s : string)
  (cur : string) (in_run : bool) : list string :=
  match s with
  | EmptyString => [string_rev cur]
  | String c s' =>
      if sep c then
        if in_run then split_runs_aux sep s' cur true
        else string_rev cur :: split_runs_aux sep s' "" true
      else split_runs_aux sep s' (String c cur) false
  end.

Definition split_runs (sep : ascii -> bool) (s : string) : list string :=
  split_runs_aux sep s "" false.

(** Whether [p] is a prefix of [s]. *)
Fixpoint starts_with (p s : string) : bool :=
  match p, s with
  | EmptyString, _ => true
  | String a p', String b s' => Ascii.eqb a b && starts_with p' s'
  | String _ _, EmptyString => false
  end.

(** [re.test(s)] for a regular expression whose match is decided by
    looking at the text from one position on: [at_pos] holds of the
    suffix of [s] that starts where the match does. *)
Fixpoint test_somewhere (at_pos : string -> bool) (s : string) : bool :=
  at_pos s ||
  match s with
  | EmptyString => false
  | String _ s' => test_somewhere at_pos s'
  end.

(** [(s.match(re) || []).length] for a global [re] that is an
    alternation of literal words: the scan goes left to right, at each
    position the first alternative that fits is taken and the scan
    resumes after it.  [skip] counts the characters of the current match
    still to be passed over. *)
Fixpoint count_matches (alts : list string) (s : string) (skip : nat) : nat :=
  match s with
  | EmptyString => 0
  | String _ s' =>
      match skip with
      | S k => count_matches alts s' k
      | O =>
          match find (fun a => starts_with a s) alts with
          | Some a => S (count_matches alts s' (String.length a - 1))
          | None => count_matches alts s' 0
          end
      end
  end.

(** [Math.max], [Math.min] and [Math.round] on numbers that are not
    [NaN]; [Math.round] rounds halves upwards. *)
Definition Math_max (a b : Q) : Q := Qmax a b.
Definition Math_min (a b : Q) : Q := Qmin a b.
Definition Math_round (x : Q) : Q := inject_Z (Qfloor (x + (1 # 2))).

(** [Math.sqrt], to six decimal places (rounded down); exact on the
    squares of such numbers, in particular on 0.  Only called on
    variances, which are not negative. *)
Definition sqrt_scale : positive := 1000000.

Definition Math_sqrt (x : Q) : Q :=
  Qmake
    (Z.sqrt (Qnum x * Zpos (Qden x) * (Zpos sqrt_scale * Zpos sqrt_scale))%Z)
    (Qden x * sqrt_scale)%positive.

(** [Math.max(lo, Math.min(hi, v))] when [v] may be [NaN]: a [NaN]
    argument makes either function return [NaN]. *)
Definition clamp_number (lo hi : Q) (v : number) : number :=
  match v with
  | NaN => NaN
  | Num q => Num (Math_max lo (Math_min hi q))
  end.

(** ToBoolean: what [if (v)] and [v || d] test. *)
Definition truthy (v : jsval) : bool :=
  match v with
  | JUndefined | JNull => false
  | JBool b => b
  | JNumber q => negb (Qeq_bool q 0)
  | JString s => negb (String.eqb s "")
  end.

Fixpoint digits_value (s : string) (acc : Z) : option Z :=
  match s with
  | EmptyString => Some acc
  | String c s' =>
      if is_digit c
      then digits_value s' (10 * acc + (Z.of_nat (nat_of_ascii c) - 48))%Z
      else None
  end.

(** The text before the first [c], and the text after it if there is one. *)
Fixpoint cut_at (c : ascii) (s : string) : string * option string :=
  match s with
  | EmptyString => (EmptyString, None)
  | String a s' =>
      if Ascii.eqb a c then (EmptyString, Some s')
      else let (l, r) := cut_at c s' in (String a l, r)
  end.

Definition unsigned_decimal (s : string) : number :=
  let (ip, fp) := cut_at "." s in
  let fs := match fp with Some f => f | None => "" end in
  if String.eqb ip "" && String.eqb fs "" then NaN
  else
    match digits_value ip 0, digits_value fs 0 with
    | Some a, Some b =>
        Num (inject_Z a + inject_Z b / inject_Z (10 ^ Z.of_nat (String.length fs)))
    | _, _ => NaN
    end.

(** ToNumber on a string, for the plain decimal literals: surrounding
    white space is dropped, the empty text is 0, then an optional sign,
    digits and an optional fraction.  Every other text is [NaN]
    (exponents, hexadecimal literals and [Infinity] are not modelled). *)
Definition StringToNumber (s : string) : number :=
  match trim s with
  | EmptyString => Num 0
  | String "-" rest =>
      match unsigned_decimal rest with Num q => Num (- q) | NaN => NaN end
  | String "+" rest => unsigned_decimal rest
  | t => unsigned_decimal t
  end.

(** ToNumber, the conversion [Math.max] and [Math.min] apply to their
    arguments. *)
Definition ToNumber (v : jsval) : number :=
  match v with
  | JUndefined => NaN
  | JNull => Num 0
  | JBool b => Num (if b then 1 else 0)
  | JNumber q => Num q
  | JString s => StringToNumber s
  end.

Fixpoint zeros (n : nat) : string :=
  match n with O => "" | S k => String "0" (zeros k) end.

Definition decimal_of_Z (z : Z) : string :=
  NilZero.string_of_uint (N.to_uint (Z.to_N z)).

(** [x.toFixed(d)]: the decimal numeral with [d] fraction digits that
    is nearest to [x], the larger one when two are equally near; a
    negative [x] is printed as the sign followed by [(-x).toFixed(d)].
    (Below 1e21, where JavaScript does not switch to exponents.) *)
Definition toFixed (x : Q) (d : nat) : string :=
  let a := Qabs x in
  let n := Qfloor (a * inject_Z (10 ^ Z.of_nat d) + (1 # 2)) in
  let m := decimal_of_Z n in
  let m := zeros (S d - String.length m) ++ m in
  let k := (String.length m - d)%nat in
  let body :=
    match d with
    | O => m
    | _ => substring 0 k m ++ "." ++ substring k d m
    end in
  if Qlt_le_dec x 0 then "-" ++ body else body.

End JS.

(* ------------------------------------------------------------------ *)
(** ** The feature extractors *)

Import JS.

(** [interface NeynarCast], with [reactions] and [replies] flattened. *)
Record NeynarCast : Type := {
  text : string;
  timestamp : string;
  likes_count : Z;
  recasts_count : Z;
  replies_count : Z
}.

(** [casts.length], as a number. *)
Definition len {A : Type} (l : list A) : Q := inject_Z (Z.of_nat (List.length l)).

(** [s.length], as a number. *)
Definition slen (s : string) : Q := inject_Z (Z.of_nat (String.length s)).

(** [casts.filter(p).length], as a number. *)
Definition count {A : Type} (p : A -> bool) (l : list A) : Q :=
  len (filter p l).

(** [l.reduce((sum, x) => sum + f(x), 0)]. *)
Definition sum_of {A : Type} (f : A -> Q) (l : list A) : Q :=
  fold_left (fun sum x => sum + f x) l 0.

(** The text starts with [p] and goes on with a character in [next]. *)
Definition followed_by (p : string) (next : ascii -> bool) (s : string) : bool :=
  starts_with p s &&
  match String.get (String.length p) s with
  | Some c => next c
  | None => false
  end.

(** [/https?:\/\/[^\s]+/.test(s)] *)
Definition has_link (s : string) : bool :=
  test_somewhere
    (fun t => followed_by "http://" (fun c => negb (is_space c)) t
              || followed_by "https://" (fun c => negb (is_space c)) t) s.

(** [/@\w+/.test(s)] *)
Definition has_mention (s : string) : bool :=
  test_somewhere (followed_by "@" is_word) s.

(** [/#\w+/.test(s)] *)
Definition has_hashtag (s : string) : bool :=
  test_somewhere (followed_by "#" is_word) s.

(** [/\?/.test(s)] and [/!/.test(s)] *)
Definition has_question (s : string) : bool := string_exists (Ascii.eqb "?") s.
Definition has_exclamation (s : string) : bool := string_exists (Ascii.eqb "!") s.

(** The value of [analyzeContentQuality].  [hasEmojis] is left out: it
    tests UTF-16 code units and only feeds the prompt sent to the
    providers. *)
Record ContentQuality : Type := {
  avgLength : Q;
  longPostRatio : Q;
  shortPostRatio : Q;
  hasLinks : Q;
  hasMentions : Q;
  hasHashtags : Q;
  hasQuestions : Q;
  hasExclamations : Q
}.

Definition analyzeContentQuality (casts : list NeynarCast) : ContentQuality :=
  let totalChars := sum_of (fun cast => slen (text cast)) casts in
  let avgLength := totalChars / len casts in
  let longPosts := count (fun cast => (100 <? String.length (text cast))%nat) casts in
  let shortPosts := count (fun cast => (String.length (text cast) <? 50)%nat) casts in
  {| avgLength := avgLength;
     longPostRatio := longPosts / len casts;
     shortPostRatio := shortPosts / len casts;
     hasLinks := count (fun cast => has_link (text cast)) casts / len casts;
     hasMentions := count (fun cast => has_mention (text cast)) casts / len casts;
     hasHashtags := count (fun cast => has_hashtag (text cast)) casts / len casts;
     hasQuestions := count (fun cast => has_question (text cast)) casts / len casts;
     hasExclamations :=
       count (fun cast => has_exclamation (text cast)) casts / len casts |}.

(** [likes_count + recasts_count + replies.count] of a cast. *)
Definition interactions (cast : NeynarCast) : Z :=
  (likes_count cast + recasts_count cast + replies_count cast)%Z.

Definition calculateConsistencyScore (casts : list NeynarCast) : Q :=
  if (List.length casts <? 2)%nat then 0
  else
    let engagementRates := map (fun cast => inject_Z (interactions cast)) casts in
    let mean := sum_of (fun rate => rate) engagementRates / len engagementRates in
    let variance :=
      sum_of (fun rate => (rate - mean) * (rate - mean)) engagementRates
      / len engagementRates in
    let stdDev := Math_sqrt variance in
    Math_max 0 (100 - (stdDev / Math_max mean 1) * 50).

Record EngagementMetrics : Type := {
  totalEngagement : Q;
  engagementPerPost : Q;
  highEngagementRatio : Q;
  viralPostRatio : Q;
  consistencyScore : Q
}.

Definition calculateEngagementMetrics (casts : list NeynarCast)
  : EngagementMetrics :=
  let totalEngagement := sum_of (fun cast => inject_Z (interactions cast)) casts in
  let engagementPerPost := totalEngagement / len casts in
  let highEngagementPosts :=
    count (fun cast => (10 <? interactions cast)%Z) casts in
  let viralPosts :=
    count (fun cast => (50 <? likes_count cast + recasts_count cast)%Z) casts in
  {| totalEngagement := totalEngagement;
     engagementPerPost := engagementPerPost;
     highEngagementRatio := highEngagementPosts / len casts;
     viralPostRatio := viralPosts / len casts;
     consistencyScore := calculateConsistencyScore casts |}.

Record WritingStyle : Type := {
  avgWordsPerSentence : Q;
  avgWordLength : Q;
  vocabularyRatio : Q;
  properCapitalization : Q;
  totalWords : Q;
  uniqueWordsCount : Q
}.

Definition nonempty (s : string) : bool := (0 <? String.length s)%nat.

(** [/^[A-Z]/.test(s)] *)
Definition starts_upper (s : string) : bool :=
  match s with
  | EmptyString => false
  | String c _ => is_upper c
  end.

Definition is_sentence_end (c : ascii) : bool :=
  Ascii.eqb c "." || Ascii.eqb c "!" || Ascii.eqb c "?".

Definition analyzeWritingStyle (casts : list NeynarCast) : WritingStyle :=
  let allText := join " " (map text casts) in
  let words := filter nonempty (split_runs is_space allText) in
  let sentences :=
    filter (fun sentence => nonempty (trim sentence))
           (split_runs is_sentence_end allText) in
  let avgWordsPerSentence := len words / Math_max (len sentences) 1 in
  let avgWordLength := sum_of slen words / Math_max (len words) 1 in
  let uniqueWords :=
    nodup string_dec
          (map (fun word => string_filter is_word (toLowerCase word)) words) in
  let vocabularyRatio := len uniqueWords / Math_max (len words) 1 in
  let properCapitalization :=
    count (fun sentence => starts_upper (trim sentence)) sentences
    / Math_max (len sentences) 1 in
  {| avgWordsPerSentence := avgWordsPerSentence;
     avgWordLength := avgWordLength;
     vocabularyRatio := vocabularyRatio;
     properCapitalization := properCapitalization;
     totalWords := len words;
     uniqueWordsCount := len uniqueWords |}.

(** The [topics] table, in the order it is declared; each regular
    expression is the alternation of the words listed. *)
Definition topics : list (string * list string) :=
  [ ("tech", ["ai"; "artificial intelligence"; "machine learning"; "blockchain";
              "crypto"; "web3"; "programming"; "code"; "software"; "tech";
              "technology"; "startup"; "entrepreneur"]);
    ("finance", ["money"; "finance"; "investment"; "trading"; "stock"; "market";
                 "economy"; "financial"; "wealth"; "profit"; "loss"; "portfolio"]);
    ("politics", ["politics"; "government"; "policy"; "election"; "vote";
                  "democrat"; "republican"; "liberal"; "conservative";
                  "political"]);
    ("culture", ["culture"; "art"; "music"; "film"; "movie"; "book";
                 "literature"; "poetry"; "creative"; "design"; "fashion";
                 "style"]);
    ("sports", ["sports"; "football"; "basketball"; "soccer"; "baseball"; "game";
                "team"; "player"; "championship"; "league"]);
    ("humor", ["funny"; "joke"; "humor"; "comedy"; "lol"; "haha"; "😂"; "😄";
               "😆"; "laugh"; "hilarious"]);
    ("philosophy", ["philosophy"; "meaning"; "purpose"; "existence"; "truth";
                    "reality"; "consciousness"; "mind"; "thought"; "wisdom"]);
    ("science", ["science"; "research"; "study"; "experiment"; "data";
                 "analysis"; "scientific"; "discovery"; "theory";
                 "hypothesis"]) ].

(** [entries.reduce((a, b) => a[1] > b[1] ? a : b)]: the callback is
    first applied to the first two entries. *)
Definition reduce_max (entries : list (string * nat)) : option (string * nat) :=
  match entries with
  | [] => None
  | first :: rest =>
      Some (fold_left
              (fun a b => if (snd b <? snd a)%nat then a else b) rest first)
  end.

Record TopicDiversity : Type := {
  topicCounts : list (string * nat);
  totalTopicMatches : nat;
  activeTopics : nat;
  diversityScore : Q;
  primaryTopic : string
}.

Definition analyzeTopicDiversity (casts : list NeynarCast) : TopicDiversity :=
  let allText := toLowerCase (join " " (map text casts)) in
  let topicCounts :=
    map (fun entry => (fst entry, count_matches (snd entry) allText 0)) topics in
  let totalTopicMatches :=
    fold_left (fun total entry => (total + snd entry)%nat) topicCounts 0%nat in
  let activeTopics :=
    List.length (filter (fun entry => (0 <? snd entry)%nat) topicCounts) in
  let diversityScore :=
    Math_min 100
      (inject_Z (Z.of_nat activeTopics) / len topics * 100) in
  {| topicCounts := topicCounts;
     totalTopicMatches := totalTopicMatches;
     activeTopics := activeTopics;
     diversityScore := diversityScore;
     primaryTopic :=
       match reduce_max topicCounts with
       | Some entry => fst entry
       | None => ""
       end |}.

(* ------------------------------------------------------------------ *)
(** ** Effects: external calls, exceptions, [try]/[catch] *)

(** What an awaited call or a throwing expression yields. *)
Inductive outcome (A : Type) : Type :=
| Ok (a : A)
| Throw.
Arguments Ok {A} a.
Arguments Throw {A}.

(** A [fetch] response: its [ok] flag and what [response.json()]
    resolves to, after the property reads the caller applies to it
    ([Throw] when the body is not JSON or a read fails). *)
Record Response (A : Type) : Type := {
  ok : bool;
  json : outcome A
}.
Arguments ok {A} _.
Arguments json {A} _.

(** [{ platform, username }], an entry of [verifiedAccounts]. *)
Record Account : Type := {
  platform : string;
  username : string
}.

(** The value [analyzeWithAI] resolves to. *)
Record IQResult : Type := {
  score : number;
  analysis : jsval;
  confidence : number
}.

(** The document [getIQScoreFromDatabase] resolves to. *)
Record CachedIQScore : Type := {
  cached : IQResult;
  analyzedAt : Z
}.

(** The three properties read from the object [JSON.parse] returns. *)
Record Parsed : Type := {
  parsed_score : jsval;
  parsed_analysis : jsval;
  parsed_confidence : jsval
}.

(** The calls that leave the process. *)
Inductive call : Type :=
| CallHasRecentIQScore (fid days : Z)
| CallGetIQScoreFromDatabase (fid : Z)
| CallGetUserFromDatabaseByFid (fid : Z)
| CallNeynarUser (fid : Z)
| CallNeynarCasts (fid : Z)
| CallIqChecker (handle : string)
| CallOpenAI
| CallGemini
| CallSaveIQScoreToDatabase (fid : Z) (r : IQResult).

(** A computation: the calls it made, in order, and how it ended. *)
Definition M (A : Type) : Type := list call * outcome A.

Definition ret {A : Type} (a : A) : M A := ([], Ok a).

Definition throw {A : Type} : M A := ([], Throw).

Definition bind {A B : Type} (m : M A) (f : A -> M B) : M B :=
  match m with
  | (t, Ok a) => let (t', r) := f a in ((t ++ t')%list, r)
  | (t, Throw) => (t, Throw)
  end.

(** [try { m } catch { handler }] *)
Definition try_catch {A : Type} (m : M A) (handler : M A) : M A :=
  match m with
  | (t, Throw) => let (t', r) := handler in ((t ++ t')%list, r)
  | (t, Ok a) => (t, Ok a)
  end.

(** An awaited external call with the outcome the world gives it. *)
Definition await {A : Type} (c : call) (o : outcome A) : M A := ([c], o).

(** An expression that may throw, without leaving the process. *)
Definition eval {A : Type} (o : outcome A) : M A := ([], o).

Definition trace {A : Type} (m : M A) : list call := fst m.
Definition result {A : Type} (m : M A) : outcome A := snd m.

Declare Scope route_scope.
Delimit Scope route_scope with route.
Notation "x <- m ;; k" := (bind m (fun x => k))
  (at level 61, m at next level, right associativity) : route_scope.
Local Open Scope route_scope.

(** The outside world of one request.  The answers of the two
    providers are fixed per request, whatever prompt is sent. *)
Record Env : Type := {
  (** [fetch] of iq-checker.xyz for a handle; the body is read at
      [.iqScore] *)
  iq_checker : string -> outcome (Response jsval);
  OPENAI_API_KEY : option string;
  (** the body is read at [.choices[0]?.message?.content] *)
  openai : outcome (Response jsval);
  GEMINI_API_KEY : option string;
  (** the body is read at [.candidates?.[0]?.content?.parts?.[0]?.text] *)
  gemini : outcome (Response jsval);
  (** [JSON.parse] on a text cut from the first opening to the last
      closing brace: it throws or returns an object *)
  JSON_parse : string -> outcome Parsed;
  (** [Math.random()] in the local scoring and in the final fallback *)
  random_scoring : Q;
  random_fallback : Q;
  (** an exception nobody expects escapes the local scoring *)
  scoring_fault : bool;
  (** the casts feed; the body is read at [.casts] ([None]: absent) *)
  neynar_casts : Z -> outcome (Response (option (list NeynarCast)));
  (** the user record; the body is read at [.user?.verified_accounts] *)
  neynar_user : Z -> outcome (Response (option (list Account)));
  (** the helpers of [@/lib/mongodb] *)
  hasRecentIQScore : Z -> Z -> outcome bool;
  getIQScoreFromDatabase : Z -> outcome (option CachedIQScore);
  getUserFromDatabaseByFid : Z -> outcome (option (option (list Account)));
  saveIQScoreToDatabase : Z -> IQResult -> outcome unit
}.

(** Whether an environment variable holds a non-empty text. *)
Definition configured (key : option string) : bool :=
  match key with
  | Some k => nonempty k
  | None => false
  end.

(** [content.match(/\{[\s\S]*\}/)]: from the first opening brace to
    the last closing brace after it. *)
Definition match_braces (content : string) : option string :=
  let from_open := drop_while (fun c => negb (Ascii.eqb c "{")) content in
  let cut :=
    string_rev
      (drop_while (fun c => negb (Ascii.eqb c "}")) (string_rev from_open)) in
  match from_open with
  | EmptyString => None
  | String _ after => if string_exists (Ascii.eqb "}") after then Some cut else None
  end.

(* ------------------------------------------------------------------ *)
(** ** [analyzeWithAI] *)

(** The argument of [analyzeWithAI]. *)
Record UserData : Type := {
  ud_username : option string;
  ud_displayName : option string;
  ud_casts : list NeynarCast;
  ud_verifiedAccounts : option (list Account)
}.

(** [userData.verifiedAccounts?.find(account => account.platform === 'x')] *)
Definition xAccount (userData : UserData) : option Account :=
  match ud_verifiedAccounts userData with
  | Some accounts => find (fun account => String.eqb (platform account) "x") accounts
  | None => None
  end.

(** The first block of [analyzeWithAI]: the score kept by
    iq-checker.xyz for a verified X handle.  [None]: go on. *)
Definition externalLookup (env : Env) (userData : UserData)
  : M (option IQResult) :=
  match xAccount userData with
  | Some account =>
      if nonempty (username account) then
        try_catch
          (externalResponse <-
             await (CallIqChecker (username account))
                   (iq_checker env (username account)) ;;
           if ok externalResponse then
             iqScore <- eval (json externalResponse) ;;
             if truthy iqScore then
               ret (Some
                 {| score := clamp_number 55 145 (ToNumber iqScore);
                    analysis := JString
                      ("IQ score fetched from verified X account (@"
                       ++ username account
                       ++ "). This score is based on comprehensive analysis of the user's X profile and activity patterns.");
                    confidence := Num 85 |})
             else ret None
           else ret None)
          (ret None)
      else ret None
  | None => ret None
  end.

(** The OpenAI block and the Gemini block, which differ in the key,
    the endpoint and the place of the text in the body only.
    [None]: go on. *)
Definition provider (env : Env) (apiKey : option string) (endpoint : call)
  (answer : outcome (Response jsval)) : M (option IQResult) :=
  if configured apiKey then
    try_catch
      (response <- await endpoint answer ;;
       if ok response then
         content <- eval (json response) ;;
         if truthy content then
           try_catch
             (text <- eval (match content with
                            | JString t => Ok t
                            | _ => Throw  (* [content.match] is no function *)
                            end) ;;
              match match_braces text with
              | Some jsonMatch =>
                  parsed <- eval (JSON_parse env jsonMatch) ;;
                  ret (Some
                    {| score := clamp_number 55 145 (ToNumber (parsed_score parsed));
                       analysis := parsed_analysis parsed;
                       confidence :=
                         clamp_number 0 100 (ToNumber (parsed_confidence parsed)) |})
              | None => ret None
              end)
             (ret None)
         else ret None
       else ret None)
      (ret None)
  else ret None.

Definition contentQualityScore (contentAnalysis : ContentQuality) : Q :=
  Math_min 100
    (avgLength contentAnalysis * (3 # 10)
     + longPostRatio contentAnalysis * 50
     + hasQuestions contentAnalysis * 30
     + hasLinks contentAnalysis * 20
     + hasMentions contentAnalysis * 15).

Definition writingStyleScore (writingStyleAnalysis : WritingStyle) : Q :=
  Math_min 100
    (vocabularyRatio writingStyleAnalysis * 40
     + avgWordsPerSentence writingStyleAnalysis * 2
     + properCapitalization writingStyleAnalysis * 30
     + avgWordLength writingStyleAnalysis * 3).

Definition engagementScore (engagementMetrics : EngagementMetrics) : Q :=
  Math_min 100
    (engagementPerPost engagementMetrics * (1 # 2)
     + consistencyScore engagementMetrics * (3 # 10)
     + viralPostRatio engagementMetrics * 50).

Definition topicDiversityScore (topicDiversity : TopicDiversity) : Q :=
  diversityScore topicDiversity.

Definition comprehensiveScore (casts : list NeynarCast) : Q :=
  contentQualityScore (analyzeContentQuality casts) * (1 # 4)
  + writingStyleScore (analyzeWritingStyle casts) * (1 # 4)
  + engagementScore (calculateEngagementMetrics casts) * (1 # 4)
  + topicDiversityScore (analyzeTopicDiversity casts) * (1 # 4).

Definition baseScore (casts : list NeynarCast) : Q :=
  70 + comprehensiveScore casts * (3 # 5) + len casts * (1 # 5).

(** [(Math.random() - 0.5) * 15] *)
Definition randomFactor (random : Q) : Q := (random - (1 # 2)) * 15.

Definition finalScore (casts : list NeynarCast) (random : Q) : Q :=
  Math_max 55 (Math_min 145 (Math_round (baseScore casts + randomFactor random))).

(** [x > y] and [x >= y] on numbers. *)
Definition gt (x y : Q) : bool := negb (Qle_bool x y).
Definition ge (x y : Q) : bool := Qle_bool y x.

(** [x > 70 ? high : x > 50 ? middle : low] *)
Definition grade (x : Q) (high middle low : string) : string :=
  if gt x 70 then high else if gt x 50 then middle else low.

(** The wording chosen for a score in both templates. *)
Definition abilities (x : Q) : string :=
  if ge x 130 then "exceptional"
  else if ge x 115 then "above-average"
  else if ge x 85 then "average"
  else if ge x 70 then "below-average"
  else "significantly below-average".

Definition decimal_of_nat (n : nat) : string := decimal_of_Z (Z.of_nat n).

Definition scoringAnalysis (casts : list NeynarCast) (random : Q) : string :=
  let contentAnalysis := analyzeContentQuality casts in
  let writingStyleAnalysis := analyzeWritingStyle casts in
  let engagementMetrics := calculateEngagementMetrics casts in
  let topicDiversity := analyzeTopicDiversity casts in
  "Based on comprehensive analysis of " ++ decimal_of_nat (List.length casts)
  ++ " posts, this user demonstrates "
  ++ grade (comprehensiveScore casts) "strong" "moderate" "limited"
  ++ " overall cognitive indicators. Content quality analysis shows "
  ++ grade (contentQualityScore contentAnalysis) "excellent" "good" "basic"
  ++ " post structure with " ++ toFixed (avgLength contentAnalysis) 0
  ++ " average characters and " ++ toFixed (hasQuestions contentAnalysis * 100) 0
  ++ "% question-asking rate. Writing style analysis reveals "
  ++ grade (writingStyleScore writingStyleAnalysis)
       "sophisticated" "competent" "simple"
  ++ " vocabulary usage with "
  ++ toFixed (vocabularyRatio writingStyleAnalysis * 100) 0
  ++ "% vocabulary diversity. Engagement patterns indicate "
  ++ grade (engagementScore engagementMetrics) "high" "moderate" "low"
  ++ " community interaction with "
  ++ toFixed (consistencyScore engagementMetrics) 0
  ++ "% consistency. Topic diversity analysis shows "
  ++ grade (topicDiversityScore topicDiversity) "broad" "moderate" "narrow"
  ++ " interests across " ++ decimal_of_nat (activeTopics topicDiversity)
  ++ "/8 categories, primarily focused on " ++ primaryTopic topicDiversity
  ++ ". These factors collectively suggest "
  ++ abilities (finalScore casts random) ++ " cognitive abilities.".

(** The last part of the [try] block: the score computed from the
    four analyses. *)
Definition localScoring (env : Env) (userData : UserData) : M IQResult :=
  let casts := ud_casts userData in
  if scoring_fault env then throw
  else
    let comprehensive := comprehensiveScore casts in
    let confidence :=
      Math_max 30 (Math_min 85 (50 + len casts * 2 + comprehensive * (3 # 10))) in
    ret {| score := Num (finalScore casts (random_scoring env));
           analysis := JString (scoringAnalysis casts (random_scoring env));
           confidence := Num (Math_round confidence) |}.

Definition fallbackScore (random : Q) : Q :=
  Math_max 55 (Math_min 145 (85 + (random - (1 # 2)) * 40)).

Definition fallbackConfidence (casts : list NeynarCast) : Q :=
  Math_max 25 (Math_min 60 (40 + len casts * (3 # 2))).

(** The handler of the outer [catch]. *)
Definition finalFallback (env : Env) (userData : UserData) : M IQResult :=
  let casts := ud_casts userData in
  let totalLikes := sum_of (fun cast => inject_Z (likes_count cast)) casts in
  let avgLikesPerCast := totalLikes / Math_max (len casts) 1 in
  let fallback := fallbackScore (random_fallback env) in
  ret {| score := Num (Math_round fallback);
         analysis := JString
           ("Analysis based on " ++ decimal_of_nat (List.length casts)
            ++ " posts. The user shows moderate engagement patterns with "
            ++ toFixed avgLikesPerCast 1
            ++ " average likes per post. Content analysis suggests "
            ++ abilities fallback
            ++ " cognitive abilities with room for growth in engagement and communication style.");
         confidence := Num (Math_round (fallbackConfidence casts)) |}.

Definition analyzeWithAI (env : Env) (userData : UserData) : M IQResult :=
  external <- externalLookup env userData ;;
  match external with
  | Some found => ret found
  | None =>
      try_catch
        (fromOpenAI <- provider env (OPENAI_API_KEY env) CallOpenAI (openai env) ;;
         match fromOpenAI with
         | Some found => ret found
         | None =>
             fromGemini <-
               provider env (GEMINI_API_KEY env) CallGemini (gemini env) ;;
             match fromGemini with
             | Some found => ret found
             | None => localScoring env userData
             end
         end)
        (finalFallback env userData)
  end.

(* ------------------------------------------------------------------ *)
(** ** The route *)

Definition fetchUserCasts (env : Env) (fid : Z) : M (list NeynarCast) :=
  try_catch
    (response <- await (CallNeynarCasts fid) (neynar_casts env fid) ;;
     if negb (ok response) then throw
     else
       casts <- eval (json response) ;;
       ret (match casts with Some found => found | None => [] end))
    (ret []).

(** The [verifiedAccounts] of the object [fetchUserData] resolves to. *)
Definition fetchUserData (env : Env) (fid : Z) : M (list Account) :=
  try_catch
    (response <- await (CallNeynarUser fid) (neynar_user env fid) ;;
     if negb (ok response) then throw
     else
       accounts <- eval (json response) ;;
       ret (match accounts with Some found => found | None => [] end))
    (ret []).

(** What [requestSchema] accepts. *)
Record RequestData : Type := {
  fid : Z;
  req_username : option string;
  req_displayName : option string;
  req_verifiedAccounts : option (list Account)
}.

(** The request: [request.json()] rejects ([Throw]), the schema
    refuses the body ([None]), or the body is accepted. *)
Definition Request : Type := outcome (option RequestData).

(** What the handler answers with [Response.json]. *)
Inductive Answer : Type :=
| InvalidRequest
    (* status 400: { success: false, errors } *)
| Success (body : IQResult) (source : string) (analyzedAt : option Z)
    (* status 200: { success: true, score, analysis, confidence, source } *)
| Failure (status : Z) (error : string).
    (* { success: false, error } *)

Definition no_posts : Answer :=
  Failure 404 "No posts found for analysis. Please ensure the user has public posts.".

Definition failed : Answer :=
  Failure 500 "Failed to analyze IQ. Please try again later.".

Definition POST (env : Env) (request : Request) : M Answer :=
  try_catch
    (requestBody <- eval request ;;
     match requestBody with
     | None => ret InvalidRequest
     | Some data =>
         hasRecentScore <-
           await (CallHasRecentIQScore (fid data) 30)
                 (hasRecentIQScore env (fid data) 30) ;;
         cachedIQScore <-
           (if hasRecentScore : bool then
              await (CallGetIQScoreFromDatabase (fid data))
                    (getIQScoreFromDatabase env (fid data))
            else ret None) ;;
         match cachedIQScore with
         | Some found =>
             ret (Success (cached found) "database" (Some (analyzedAt found)))
         | None =>
             userVerifiedAccounts <-
               match req_verifiedAccounts data with
               | Some accounts => ret (Some accounts)
               | None =>
                   cachedUser <-
                     await (CallGetUserFromDatabaseByFid (fid data))
                           (getUserFromDatabaseByFid env (fid data)) ;;
                   match cachedUser with
                   | Some verified_accounts => ret verified_accounts
                   | None =>
                       accounts <- fetchUserData env (fid data) ;;
                       ret (Some accounts)
                   end
               end ;;
             casts <- fetchUserCasts env (fid data) ;;
             if (List.length casts =? 0)%nat then ret no_posts
             else
               analysis <-
                 analyzeWithAI env
                   {| ud_username := req_username data;
                      ud_displayName := req_displayName data;
                      ud_casts := casts;
                      ud_verifiedAccounts := userVerifiedAccounts |} ;;
               _ <- try_catch
                      (await (CallSaveIQScoreToDatabase (fid data) analysis)
                             (saveIQScoreToDatabase env (fid data) analysis))
                      (ret tt) ;;
               ret (Success analysis "api" None)
         end
     end)
    (ret failed).

(* ------------------------------------------------------------------ *)
(** ** Properties stated about the route *)

(** A number lies between two bounds; [NaN] lies in no range. *)
Definition in_range (lo hi : Q) (n : number) : Prop :=
  match n with
  | Num q => lo <= q /\ q <= hi
  | NaN => False
  end.

(** The calls that fetch posts or ask somebody for a score. *)
Definition asks_outside (c : call) : bool :=
  match c with
  | CallNeynarCasts _ | CallIqChecker _ | CallOpenAI | CallGemini => true
  | _ => false
  end.

(** The calls [analyzeWithAI] can make. *)
Definition scoring_call (c : call) : Prop :=
  match c with
  | CallIqChecker _ | CallOpenAI | CallGemini => True
  | _ => False
  end.

(** A tier of [analyzeWithAI] that hands over to the next one. *)
Definition falls_through (tier : M (option IQResult)) : Prop :=
  result tier = Ok None.

(** What a provider tier hands back once [JSON.parse] succeeded. *)
Definition built_from (parsed : Parsed) : IQResult :=
  {| score := clamp_number 55 145 (ToNumber (parsed_score parsed));
     analysis := parsed_analysis parsed;
     confidence := clamp_number 0 100 (ToNumber (parsed_confidence parsed)) |}.

(** The chain of successes a provider tier needs to come to a result. *)
Definition accepted (env : Env) (apiKey : option string)
  (answer : outcome (Response jsval)) (parsed : Parsed) : Prop :=
  configured apiKey = true /\
  exists response text jsonMatch,
    answer = Ok response /\ ok response = true /\
    json response = Ok (JString text) /\ text <> "" /\
    match_braces text = Some jsonMatch /\
    JSON_parse env jsonMatch = Ok parsed.

(** The calls [POST] makes before it fetches the casts. *)
Definition before_fetch (c : call) : Prop :=
  match c with
  | CallHasRecentIQScore _ _ | CallGetIQScoreFromDatabase _
  | CallGetUserFromDatabaseByFid _ | CallNeynarUser _ => True
  | _ => False
  end.

(** [POST] finds no score to reuse: [hasRecentIQScore] says no, or it
    says yes and [getIQScoreFromDatabase] finds nothing. *)
Definition cache_miss (env : Env) (f : Z) : Prop :=
  hasRecentIQScore env f 30 = Ok false \/
  (hasRecentIQScore env f 30 = Ok true /\ getIQScoreFromDatabase env f = Ok None).

(** The ways a run of [POST] can go: the calls made and the answer. *)
Inductive POST_run (env : Env) (request : Request)
  : list call -> Answer -> Prop :=
| run_failed t :
    Forall before_fetch t ->
    POST_run env request t failed
| run_invalid :
    request = Ok None ->
    POST_run env request [] InvalidRequest
| run_cached data found :
    request = Ok (Some data) ->
    hasRecentIQScore env (fid data) 30 = Ok true ->
    getIQScoreFromDatabase env (fid data) = Ok (Some found) ->
    POST_run env request
      [CallHasRecentIQScore (fid data) 30; CallGetIQScoreFromDatabase (fid data)]
      (Success (cached found) "database" (Some (analyzedAt found)))
| run_no_posts data pre :
    request = Ok (Some data) ->
    cache_miss env (fid data) ->
    Forall before_fetch pre ->
    result (fetchUserCasts env (fid data)) = Ok [] ->
    POST_run env request (pre ++ [CallNeynarCasts (fid data)])%list no_posts
| run_fresh data pre casts accounts t r :
    request = Ok (Some data) ->
    cache_miss env (fid data) ->
    Forall before_fetch pre ->
    result (fetchUserCasts env (fid data)) = Ok casts ->
    casts <> [] ->
    analyzeWithAI env
      {| ud_username := req_username data;
         ud_displayName := req_displayName data;
         ud_casts := casts;
         ud_verifiedAccounts := accounts |} = (t, Ok r) ->
    Forall scoring_call t ->
    POST_run env request
      (pre ++ [CallNeynarCasts (fid data)] ++ t
           ++ [CallSaveIQScoreToDatabase (fid data) r])%list
      (Success r "api" None).

(** The five places a result of [analyzeWithAI] can come from. *)
Inductive Tier : Type :=
| ExternalLookup
| OpenAI
| Gemini
| LocalScoring
| FinalFallback.

(** [r] is what the tier makes of the answers of the world. *)
Inductive produced (env : Env) (userData : UserData) : Tier -> IQResult -> Prop :=
| by_lookup account response iqScore r :
    xAccount userData = Some account ->
    iq_checker env (username account) = Ok response ->
    json response = Ok iqScore ->
    truthy iqScore = true ->
    score r = clamp_number 55 145 (ToNumber iqScore) ->
    confidence r = Num 85 ->
    produced env userData ExternalLookup r
| by_openai parsed :
    accepted env (OPENAI_API_KEY env) (openai env) parsed ->
    produced env userData OpenAI (built_from parsed)
| by_gemini parsed :
    accepted env (GEMINI_API_KEY env) (gemini env) parsed ->
    produced env userData Gemini (built_from parsed)
| by_scoring r :
    scoring_fault env = false ->
    result (localScoring env userData) = Ok r ->
    produced env userData LocalScoring r
| by_fallback r :
    scoring_fault env = true ->
    result (finalFallback env userData) = Ok r ->
    produced env userData FinalFallback r.

(** Every value the world hands over where a number is expected
    converts to a number. *)
Definition numeric_payloads (env : Env) : Prop :=
  (forall handle response iqScore,
     iq_checker env handle = Ok response -> json response = Ok iqScore ->
     ToNumber iqScore <> NaN) /\
  (forall text parsed,
     JSON_parse env text = Ok parsed ->
     ToNumber (parsed_score parsed) <> NaN /\
     ToNumber (parsed_confidence parsed) <> NaN).

(** *** Clamping *)

Definition clamp (lo hi x : Q) : Q := Qmax lo (Qmin hi x).

(** *** The primary topic *)

(** [name] heads the entry at position [i], and no entry counts more. *)
Definition maximal_at (entries : list (string * nat)) (name : string)
  (i : nat) : Prop :=
  exists c,
    nth_error entries i = Some (name, c) /\
    forall j e, nth_error entries j = Some e -> (snd e <= c)%nat.

(** The spec's words: the highest count, and among equal counts the
    category declared first. *)
Definition first_declared_maximum (entries : list (string * nat))
  (name : string) : Prop :=
  exists i c,
    nth_error entries i = Some (name, c) /\
    (forall j e, nth_error entries j = Some e -> (snd e <= c)%nat) /\
    (forall j e, (j < i)%nat -> nth_error entries j = Some e -> (snd e < c)%nat).

(** What the reduction computes: the highest count, and among equal
    counts the category declared last. *)
Definition last_declared_maximum (entries : list (string * nat))
  (name : string) : Prop :=
  exists i c,
    nth_error entries i = Some (name, c) /\
    (forall j e, nth_error entries j = Some e -> (snd e <= c)%nat) /\
    (forall j e, (i < j)%nat -> nth_error entries j = Some e -> (snd e < c)%nat).

(** *** The store behind the database helpers *)

(** The IQ scores kept per account. *)
Definition Store : Type := Z -> option CachedIQScore.

Definition ms_per_day : Z := 86400000.

(** Modelled from the spec: [hasRecentIQScore] of [@/lib/mongodb] is
    not among the sources.  Section 4.3: a stored result is valid iff
    [now - computedAt <= threshold], the threshold given in days. *)
Definition spec_hasRecentIQScore (store : Store) (now : Z) (fid days : Z)
  : bool :=
  match store fid with
  | Some entry => (now - analyzedAt entry <=? days * ms_per_day)%Z
  | None => false
  end.

(** Modelled from the spec: [getIQScoreFromDatabase] of [@/lib/mongodb]
    is not among the sources.  Section 6: [CacheRead(accountId)] yields
    the stored result or nothing. *)
Definition spec_getIQScoreFromDatabase (store : Store) (fid : Z)
  : option CachedIQScore :=
  store fid.

(** The helpers of [env] read [store] at time [now] and do not fail. *)
Definition reads_store (env : Env) (store : Store) (now : Z) : Prop :=
  (forall fid days,
     hasRecentIQScore env fid days = Ok (spec_hasRecentIQScore store now fid days))
  /\ (forall fid,
        getIQScoreFromDatabase env fid = Ok (spec_getIQScoreFromDatabase store fid)).

(** *** Proof steps for the effects *)

Ltac run := unfold try_catch, bind, await, eval, ret, throw, result, trace; simpl.

Ltac split_on x := let E := fresh "E" in destruct x eqn:E; simpl.

(* ------------------------------------------------------------------ *)
(** ** Sample worlds *)

Definition cast_of (t : string) (likes recasts replies : Z) : NeynarCast :=
  {| text := t; timestamp := "2025-01-01T00:00:00.000Z";
     likes_count := likes; recasts_count := recasts; replies_count := replies |}.

Definition two_casts : list NeynarCast :=
  [cast_of "ai money. Hello world?" 1 2 3; cast_of "Hi" 3 2 1].

Definition served {A : Type} (body : A) : outcome (Response A) :=
  Ok {| ok := true; json := Ok body |}.

(** A world in which the store is empty and the named answers are
    given; the accounts are unknown to the database and to Neynar. *)
Definition world (iq openai gemini : outcome (Response jsval))
  (parse : outcome Parsed) (fault : bool)
  (casts : outcome (Response (option (list NeynarCast))))
  (stored : option CachedIQScore) (save : outcome unit) : Env :=
  {| iq_checker := fun _ => iq;
     OPENAI_API_KEY := Some "sk-test";
     openai := openai;
     GEMINI_API_KEY := Some "g-test";
     gemini := gemini;
     JSON_parse := fun _ => parse;
     random_scoring := 1 # 2;
     random_fallback := 1 # 4;
     scoring_fault := fault;
     neynar_casts := fun _ => casts;
     neynar_user := fun _ => Throw;
     hasRecentIQScore :=
       fun fid days => Ok (spec_hasRecentIQScore (fun _ => stored) 1000 fid days);
     getIQScoreFromDatabase := fun _ => Ok stored;
     getUserFromDatabaseByFid := fun _ => Ok None;
     saveIQScoreToDatabase := fun _ _ => save |}.

Definition request_for (f : Z) (accounts : option (list Account)) : Request :=
  Ok (Some {| fid := f; req_username := Some "alice"; req_displayName := None;
              req_verifiedAccounts := accounts |}).

Definition user_of (casts : list NeynarCast) (accounts : option (list Account))
  : UserData :=
  {| ud_username := Some "alice"; ud_displayName := None;
     ud_casts := casts; ud_verifiedAccounts := accounts |}.

(** Both providers unreachable, nothing stored, the write fails. *)
Definition providers_down : Env :=
  world Throw Throw Throw Throw false (served (Some two_casts)) None Throw.

(** A text between double quotes, and a JSON object with two members. *)
Definition quoted (s : string) : string :=
  String "034" (s ++ String "034" EmptyString).

Definition json_object (key1 value1 key2 value2 : string) : string :=
  "{" ++ quoted key1 ++ ":" ++ value1 ++ "," ++ quoted key2 ++ ":" ++ value2 ++ "}".

(** A world like [world] in which OpenAI answers with the text
    [content], which [JSON.parse] turns into [parsed]; on any other
    text [JSON.parse] throws. *)
Definition openai_says (content : string) (parsed : Parsed) : Env :=
  {| iq_checker := fun _ => Throw;
     OPENAI_API_KEY := Some "sk-test";
     openai := served (JString content);
     GEMINI_API_KEY := Some "g-test";
     gemini := Throw;
     JSON_parse := fun text => if String.eqb text content then Ok parsed else Throw;
     random_scoring := 1 # 2;
     random_fallback := 1 # 4;
     scoring_fault := false;
     neynar_casts := fun _ => served (Some two_casts);
     neynar_user := fun _ => Throw;
     hasRecentIQScore := fun _ _ => Ok false;
     getIQScoreFromDatabase := fun _ => Ok None;
     getUserFromDatabaseByFid := fun _ => Ok None;
     saveIQScoreToDatabase := fun _ _ => Ok tt |}.

(** OpenAI answers with JSON that has an analysis and a confidence but
    no score. *)
Definition no_score : Parsed :=
  {| parsed_score := JUndefined;
     parsed_analysis := JString "Not enough signal to estimate.";
     parsed_confidence := JNumber 20 |}.

Definition openai_without_score : Env :=
  openai_says
    (json_object "analysis" (quoted "Not enough signal to estimate.")
                 "confidence" "20")
    no_score.



(** The scoring itself fails after both providers did. *)
Definition scoring_broken : Env :=
  world Throw Throw Throw Throw true (served (Some two_casts)) None (Ok tt).

(** A score stored at time 0 is read at time 1000. *)
Definition stored_score : CachedIQScore :=
  {| cached := {| score := Num 120; analysis := JString "stored";
                  confidence := Num 70 |};
     analyzedAt := 0 |}.

Definition score_in_store : Env :=
  world Throw Throw Throw Throw false (served (Some two_casts))
        (Some stored_score) (Ok tt).

(** The casts feed is unreachable. *)
Definition feed_down : Env :=
  world Throw Throw Throw Throw false Throw None (Ok tt).

(** The casts feed answers with no casts. *)
Definition feed_empty : Env :=
  world Throw Throw Throw Throw false (served (Some [])) None (Ok tt).

(** The result [analyzeWithAI] computes in the world [providers_down]. *)
Definition scored_locally : IQResult :=
  Eval vm_compute in
    match result (analyzeWithAI providers_down (user_of two_casts (Some []))) with
    | Ok r => r
    | Throw => {| score := NaN; analysis := JUndefined; confidence := NaN |}
    end.

(* ------------------------------------------------------------------ *)
(** ** Further properties: preconditions and samples *)

(** No cast has a negative count of likes, recasts or replies. *)
Definition counts_nonneg (casts : list NeynarCast) : Prop :=
  Forall (fun cast => (0 <= likes_count cast)%Z /\ (0 <= recasts_count cast)%Z
                      /\ (0 <= replies_count cast)%Z) casts.

(** A draw of [Math.random()]. *)
Definition is_random (random : Q) : Prop := 0 <= random /\ random < 1.

(** The words of the pattern of a topic. *)
Definition words_of (topic : string) : list string :=
  match find (fun entry => String.eqb (fst entry) topic) topics with
  | Some entry => snd entry
  | None => []
  end.

Definition eighteen_casts : list NeynarCast := repeat (cast_of "gm" 1 0 0) 18.

(** What the local scoring makes of [eighteen_casts]. *)
Definition scored_eighteen : IQResult :=
  Eval vm_compute in
    match result (localScoring providers_down (user_of eighteen_casts None)) with
    | Ok r => r
    | Throw => {| score := NaN; analysis := JUndefined; confidence := NaN |}
    end.

(** What the final fallback makes of [two_casts]. *)
Definition fallen_back : IQResult :=
  Eval vm_compute in
    match result (finalFallback scoring_broken (user_of two_casts None)) with
    | Ok r => r
    | Throw => {| score := NaN; analysis := JUndefined; confidence := NaN |}
    end.

(** The calls by which [POST] looks the user up. *)
Definition user_lookup (c : call) : Prop :=
  match c with
  | CallGetUserFromDatabaseByFid _ | CallNeynarUser _ => True
  | _ => False
  end.

(** iq-checker knows a score for every handle. *)
Definition iq_known (iqScore : jsval) : Env :=
  world (served iqScore) Throw Throw Throw false (served (Some two_casts))
        None (Ok tt).

Definition x_user (handle : string) : UserData :=
  user_of two_casts (Some [{| platform := "github"; username := "al" |};
                           {| platform := "x"; username := handle |}]).

(** The database does not answer. *)
Definition store_down : Env :=
  {| iq_checker := iq_checker providers_down;
     OPENAI_API_KEY := OPENAI_API_KEY providers_down;
     openai := openai providers_down;
     GEMINI_API_KEY := GEMINI_API_KEY providers_down;
     gemini := gemini providers_down;
     JSON_parse := JSON_parse providers_down;
     random_scoring := random_scoring providers_down;
     random_fallback := random_fallback providers_down;
     scoring_fault := scoring_fault providers_down;
     neynar_casts := neynar_casts providers_down;
     neynar_user := neynar_user providers_down;
     hasRecentIQScore := fun _ _ => Throw;
     getIQScoreFromDatabase := fun _ => Throw;
     getUserFromDatabaseByFid := fun _ => Throw;
     saveIQScoreToDatabase := fun _ _ => Throw |}.

Definition request_data (f : Z) (accounts : option (list Account))
  : RequestData :=
  {| fid := f; req_username := Some "alice"; req_displayName := None;
     req_verifiedAccounts := accounts |}.

(** What the external lookup makes of a score of 160. *)
Definition looked_up : IQResult :=
  Eval vm_compute in
    match result (analyzeWithAI (iq_known (JNumber 160)) (x_user "alice")) with
    | Ok r => r
    | Throw => {| score := NaN; analysis := JUndefined; confidence := NaN |}
    end.

(* ------------------------------------------------------------------ *)
(** ** The faucet route

    [src/creator-iq-routes/faucet-route.ts]: the handler sends a fixed
    amount from one of up to five wallets, which it uses in turn.  The
    index of the wallet to use next is a variable of the module; it is
    the state that is threaded through the handler here. *)

Module Faucet.

(** [FAUCET_WALLETS]: the five environment variables, those that are
    unset or empty filtered out. *)
Definition FAUCET_WALLETS (variables : list (option string)) : list string :=
  flat_map (fun v => match v with
                     | Some key => if nonempty key then [key] else []
                     | None => []
                     end) variables.

(** [FAUCET_AMOUNT], and [ethers.parseEther(FAUCET_AMOUNT)] in wei. *)
Definition FAUCET_AMOUNT : string := "0.000004".
Definition requiredAmount : Z := 4000000000000.

(** The calls that leave the process. *)
Inductive call : Type :=
| HasReceivedFaucet (userAddress : string)
| GetBalance (address : string)
| SendTransaction (from to : string) (value : Z) (gasLimit : option Z)
| Wait (txHash : string)
| SaveFaucetRecord (userAddress amount : string) (walletIndex : nat)
    (txHash : string).

(** The outside world of one request. *)
Record World : Type := {
  (** [ethers.isAddress] on a text *)
  isAddress : string -> bool;
  hasReceivedFaucetFromDatabase : string -> outcome bool;
  (** [new ethers.Wallet(key, provider).address]; the constructor
      throws on a key that is none *)
  wallet_address : string -> outcome string;
  (** [provider.getBalance], at the first and at the second reading
      of a request *)
  first_balance : string -> outcome Z;
  second_balance : string -> outcome Z;
  (** [wallet.sendTransaction], yielding the hash, and [tx.wait()] *)
  sendTransaction : string -> string -> outcome string;
  wait : string -> outcome unit;
  saveFaucetRecord : string -> nat -> string -> outcome unit
}.

(** A computation over the wallet index: the calls made, how it
    ended, and the index it leaves.  A throw keeps the index as it
    was when thrown. *)
Definition M (A : Type) : Type := nat -> list call * outcome A * nat.

Definition ret {A : Type} (a : A) : M A := fun i => ([], Ok a, i).

Definition bind {A B : Type} (m : M A) (f : A -> M B) : M B :=
  fun i =>
    match m i with
    | (t, Ok a, j) =>
        match f a j with
        | (t', r, k) => ((t ++ t')%list, r, k)
        end
    | (t, Throw, j) => (t, Throw, j)
    end.

Definition try_catch {A : Type} (m : M A) (handler : M A) : M A :=
  fun i =>
    match m i with
    | (t, Throw, j) =>
        match handler j with
        | (t', r, k) => ((t ++ t')%list, r, k)
        end
    | (t, Ok a, j) => (t, Ok a, j)
    end.

Definition await {A : Type} (c : call) (o : outcome A) : M A :=
  fun i => ([c], o, i).

Definition eval {A : Type} (o : outcome A) : M A := fun i => ([], o, i).

(** Reading and assigning [currentWalletIndex]. *)
Definition get : M nat := fun i => ([], Ok i, i).
Definition put (j : nat) : M unit := fun _ => ([], Ok tt, j).

Notation "x <- m ;; k" := (bind m (fun x => k))
  (at level 61, m at next level, right associativity).

(** What the handler answers. *)
Inductive Answer : Type :=
| Sent (txHash amount faucetWallet : string)
| Error (status : Z) (error : string).

(** [FAUCET_WALLETS[i]] as the argument of [new ethers.Wallet]: past
    the end it is [undefined], on which the constructor throws. *)
Definition wallet_at (world : World) (wallets : list string) (i : nat)
  : outcome string :=
  match nth_error wallets i with
  | Some key => wallet_address world key
  | None => Throw
  end.

(** The text of [userAddress] when it is one that [ethers.isAddress]
    accepts. *)
Definition address_of (world : World) (userAddress : jsval) : option string :=
  match userAddress with
  | JString a => if isAddress world a then Some a else None
  | _ => None
  end.

Definition POST (wallets : list string) (world : World)
  (request : outcome jsval) : M Answer :=
  try_catch
    (userAddress <- eval request ;;
     if negb (truthy userAddress) then ret (Error 400 "User address is required")
     else
       match address_of world userAddress with
       | None => ret (Error 400 "Invalid Ethereum address")
       | Some user =>
           hasReceivedFaucet <-
             await (HasReceivedFaucet user)
                   (hasReceivedFaucetFromDatabase world user) ;;
           if hasReceivedFaucet : bool then
             ret (Error 400 "User has already received faucet funds")
           else if (List.length wallets =? 0)%nat then
             ret (Error 500 "No faucet wallets configured")
           else
             currentWalletIndex <- get ;;
             faucetWallet <- eval (wallet_at world wallets currentWalletIndex) ;;
             faucetBalance <-
               await (GetBalance faucetWallet) (first_balance world faucetWallet) ;;
             if (faucetBalance <? requiredAmount)%Z then
               _ <- put ((currentWalletIndex + 1) mod List.length wallets)%nat ;;
               currentWalletIndex <- get ;;
               nextFaucetWallet <-
                 eval (wallet_at world wallets currentWalletIndex) ;;
               nextFaucetBalance <-
                 await (GetBalance nextFaucetWallet)
                       (second_balance world nextFaucetWallet) ;;
               if (nextFaucetBalance <? requiredAmount)%Z then
                 ret (Error 500 "All faucet wallets have insufficient balance")
               else
                 txHash <-
                   await (SendTransaction nextFaucetWallet user requiredAmount
                            (Some 21000%Z))
                         (sendTransaction world nextFaucetWallet user) ;;
                 _ <- await (Wait txHash) (wait world txHash) ;;
                 _ <- await (SaveFaucetRecord user FAUCET_AMOUNT
                               currentWalletIndex txHash)
                            (saveFaucetRecord world user currentWalletIndex
                               txHash) ;;
                 _ <- put ((currentWalletIndex + 1) mod List.length wallets)%nat ;;
                 ret (Sent txHash FAUCET_AMOUNT nextFaucetWallet)
             else
               txHash <-
                 await (SendTransaction faucetWallet user requiredAmount None)
                       (sendTransaction world faucetWallet user) ;;
               _ <- await (Wait txHash) (wait world txHash) ;;
               _ <- await (SaveFaucetRecord user FAUCET_AMOUNT
                             currentWalletIndex txHash)
                          (saveFaucetRecord world user currentWalletIndex txHash) ;;
               _ <- put ((currentWalletIndex + 1) mod List.length wallets)%nat ;;
               ret (Sent txHash FAUCET_AMOUNT faucetWallet)
       end)
    (ret (Error 500 "Failed to send faucet funds")).

Definition calls {A : Type} (run : list call * outcome A * nat) : list call :=
  fst (fst run).
Definition answer {A : Type} (run : list call * outcome A * nat) : outcome A :=
  snd (fst run).
Definition index_after {A : Type} (run : list call * outcome A * nat) : nat :=
  snd run.

(** The requests of a server's life, one after the other from the
    index [i]: the index left at the end. *)
Fixpoint serve (wallets : list string)
  (requests : list (World * outcome jsval)) (i : nat) : nat :=
  match requests with
  | [] => i
  | (world, request) :: rest =>
      serve wallets rest (index_after (POST wallets world request i))
  end.

(** *** Requests that overlap

    [currentWalletIndex] is a variable of the module and the handler
    reads it anew after it has waited: at l.61 for the first wallet, at
    l.74 for the next one, at l.97 and l.120 for the record, at l.100
    and l.123 for the move.  While the handler waits at an [await],
    other requests run and may assign the variable.  [others k j] is
    the value the handler finds after its await number [k] when the
    value before was [j]; the awaits are numbered 0 (the body of the
    request, l.22), 1 (the database, l.42), 2 and 3 (the balances, l.67
    and l.77), 4 (the transaction, l.93 or l.116), 5 (its confirmation,
    l.94 or l.117) and 6 (the record, l.97 or l.120). *)
Definition Interference : Type := nat -> nat -> nat.

(** No other request assigns the variable. *)
Definition alone : Interference := fun _ j => j.

(** Waiting at the await number [k] for [o], with the calls [t] made. *)
Definition suspended {A : Type} (others : Interference) (k : nat)
  (t : list call) (o : outcome A) : M A :=
  fun i => (t, o, others k i).

Definition POST_among (others : Interference) (wallets : list string)
  (world : World) (request : outcome jsval) : M Answer :=
  try_catch
    (userAddress <- suspended others 0 [] request ;;
     if negb (truthy userAddress) then ret (Error 400 "User address is required")
     else
       match address_of world userAddress with
       | None => ret (Error 400 "Invalid Ethereum address")
       | Some user =>
           hasReceivedFaucet <-
             suspended others 1 [HasReceivedFaucet user]
                       (hasReceivedFaucetFromDatabase world user) ;;
           if hasReceivedFaucet : bool then
             ret (Error 400 "User has already received faucet funds")
           else if (List.length wallets =? 0)%nat then
             ret (Error 500 "No faucet wallets configured")
           else
             currentWalletIndex <- get ;;
             faucetWallet <- eval (wallet_at world wallets currentWalletIndex) ;;
             faucetBalance <-
               suspended others 2 [GetBalance faucetWallet]
                         (first_balance world faucetWallet) ;;
             if (faucetBalance <? requiredAmount)%Z then
               currentWalletIndex <- get ;;
               _ <- put ((currentWalletIndex + 1) mod List.length wallets)%nat ;;
               currentWalletIndex <- get ;;
               nextFaucetWallet <-
                 eval (wallet_at world wallets currentWalletIndex) ;;
               nextFaucetBalance <-
                 suspended others 3 [GetBalance nextFaucetWallet]
                           (second_balance world nextFaucetWallet) ;;
               if (nextFaucetBalance <? requiredAmount)%Z then
                 ret (Error 500 "All faucet wallets have insufficient balance")
               else
                 txHash <-
                   suspended others 4
                     [SendTransaction nextFaucetWallet user requiredAmount
                        (Some 21000%Z)]
                     (sendTransaction world nextFaucetWallet user) ;;
                 _ <- suspended others 5 [Wait txHash] (wait world txHash) ;;
                 currentWalletIndex <- get ;;
                 _ <- suspended others 6
                        [SaveFaucetRecord user FAUCET_AMOUNT currentWalletIndex
                           txHash]
                        (saveFaucetRecord world user currentWalletIndex txHash) ;;
                 currentWalletIndex <- get ;;
                 _ <- put ((currentWalletIndex + 1) mod List.length wallets)%nat ;;
                 ret (Sent txHash FAUCET_AMOUNT nextFaucetWallet)
             else
               txHash <-
                 suspended others 4
                   [SendTransaction faucetWallet user requiredAmount None]
                   (sendTransaction world faucetWallet user) ;;
               _ <- suspended others 5 [Wait txHash] (wait world txHash) ;;
               currentWalletIndex <- get ;;
               _ <- suspended others 6
                      [SaveFaucetRecord user FAUCET_AMOUNT currentWalletIndex
                         txHash]
                      (saveFaucetRecord world user currentWalletIndex txHash) ;;
               currentWalletIndex <- get ;;
               _ <- put ((currentWalletIndex + 1) mod List.length wallets)%nat ;;
               ret (Sent txHash FAUCET_AMOUNT faucetWallet)
       end)
    (ret (Error 500 "Failed to send faucet funds")).

(** The index the handler finds at l.61, and the index it assigns at
    l.74, when it started at [i]. *)
Definition first_index (others : Interference) (i : nat) : nat :=
  others 1%nat (others 0%nat i).

Definition second_index (others : Interference) (wallets : list string)
  (i : nat) : nat :=
  ((others 2%nat (first_index others i) + 1) mod List.length wallets)%nat.

Definition is_send (c : call) : bool :=
  match c with SendTransaction _ _ _ _ => true | _ => false end.

Definition is_balance (c : call) : bool :=
  match c with GetBalance _ => true | _ => false end.

(** A world with three wallets "k0", "k1", "k2" at the addresses
    "w0", "w1", "w2" with the balances named, in which every call
    succeeds unless [save] says otherwise. *)
Definition three_wallets : list string := ["k0"; "k1"; "k2"].

Definition sample_world (b0 b1 b2 : Z) (received : bool) (save : outcome unit)
  : World :=
  let balance := fun address =>
    if String.eqb address "w0" then Ok b0
    else if String.eqb address "w1" then Ok b1 else Ok b2 in
  {| isAddress := fun a => String.eqb a "0xabc";
     hasReceivedFaucetFromDatabase := fun _ => Ok received;
     wallet_address := fun key =>
       if String.eqb key "k0" then Ok "w0"
       else if String.eqb key "k1" then Ok "w1"
       else if String.eqb key "k2" then Ok "w2" else Throw;
     first_balance := balance;
     second_balance := balance;
     sendTransaction := fun from to => Ok ("tx-" ++ from);
     wait := fun _ => Ok tt;
     saveFaucetRecord := fun _ _ _ => save |}.

End Faucet.

(** Unfolding the effects of the faucet handler. *)
Ltac faucet_run :=
  unfold Faucet.POST, Faucet.try_catch, Faucet.bind, Faucet.await, Faucet.eval,
    Faucet.ret, Faucet.get, Faucet.put, Faucet.calls, Faucet.answer,
    Faucet.index_after.

Ltac faucet_run_among :=
  unfold Faucet.POST_among, Faucet.second_index, Faucet.first_index,
    Faucet.suspended, Faucet.try_catch, Faucet.bind, Faucet.eval,
    Faucet.ret, Faucet.get, Faucet.put, Faucet.calls, Faucet.answer,
    Faucet.index_after.

(* ------------------------------------------------------------------ *)
(** ** The user search route

    [src/unnamed/part_000]: [searchFarcasterUsers] and the [POST]
    handler that looks a user up in the database first and at Neynar
    second. *)

Module Search.

(** [interface NeynarUser], with the nested [profile.bio.text]
    flattened and the fields the handler does not read left out. *)
Record NeynarUser : Type := {
  user_fid : Z;
  user_username : string;
  display_name : string;
  pfp_url : option string;
  bio_text : option string;
  follower_count : Z;
  following_count : Z;
  verified_accounts : option (list Account)
}.

(** The user as the handler answers it. *)
Record TransformedUser : Type := {
  out_fid : Z;
  out_username : string;
  displayName : string;
  pfpUrl : option string;
  followerCount : Z;
  followingCount : Z;
  bio : option string;
  verifiedAccounts : list Account
}.

Definition transform (user : NeynarUser) : TransformedUser :=
  {| out_fid := user_fid user;
     out_username := user_username user;
     displayName := display_name user;
     pfpUrl := pfp_url user;
     followerCount := follower_count user;
     followingCount := following_count user;
     bio := bio_text user;
     verifiedAccounts :=
       match verified_accounts user with Some found => found | None => [] end |}.

(** [query.replace(/^@/, '').trim()] *)
Definition cleanQuery (query : string) : string :=
  trim match query with
       | String "@" rest => rest
       | _ => query
       end.

(** A [fetch] response with its status. *)
Record StatusResponse : Type := {
  ok : bool;
  status : Z;
  (** [data.user]: [None] when the body has none *)
  json : outcome (option NeynarUser)
}.

Inductive call : Type :=
| GetUserFromDatabase (query : string)
| NeynarByUsername (username : string)
| SaveUserToDatabase (user : NeynarUser).

Record World : Type := {
  getUserFromDatabase : string -> outcome (option NeynarUser);
  neynar_by_username : string -> outcome StatusResponse;
  saveUserToDatabase : NeynarUser -> outcome unit
}.

Definition M (A : Type) : Type := list call * outcome A.

Definition ret {A : Type} (a : A) : M A := ([], Ok a).
Definition throw {A : Type} : M A := ([], Throw).

Definition bind {A B : Type} (m : M A) (f : A -> M B) : M B :=
  match m with
  | (t, Ok a) => let (t', r) := f a in ((t ++ t')%list, r)
  | (t, Throw) => (t, Throw)
  end.

Definition try_catch {A : Type} (m : M A) (handler : M A) : M A :=
  match m with
  | (t, Throw) => let (t', r) := handler in ((t ++ t')%list, r)
  | (t, Ok a) => (t, Ok a)
  end.

Definition await {A : Type} (c : call) (o : outcome A) : M A := ([c], o).
Definition eval {A : Type} (o : outcome A) : M A := ([], o).

Notation "x <- m ;; k" := (bind m (fun x => k))
  (at level 61, m at next level, right associativity).

Definition searchFarcasterUsers (world : World) (query : string)
  : M (list NeynarUser) :=
  let cleanQuery := cleanQuery query in
  if negb (nonempty cleanQuery) then ret []
  else
    try_catch
      (response <-
         await (NeynarByUsername cleanQuery) (neynar_by_username world cleanQuery) ;;
       if negb (ok response) then
         if (status response =? 404)%Z then ret [] else throw
       else
         user <- eval (json response) ;;
         match user with
         | Some found => ret [found]
         | None => ret []
         end)
      (ret []).

(** What [requestSchema] accepts: a text of 1 to 100 characters under
    [query]. *)
Definition requestSchema (query : jsval) : option string :=
  match query with
  | JString q =>
      if ((1 <=? String.length q) && (String.length q <=? 100))%nat
      then Some q else None
  | _ => None
  end.

Inductive Answer : Type :=
| InvalidRequest
    (* status 400: { success: false, errors } *)
| Users (users : list TransformedUser) (source message : option string)
    (* { success: true, users, source } or { success: true, users, message } *)
| Failure (status : Z) (error : string).

(** The request: what [request.json()] holds under [query], or a
    throw when the body cannot be read. *)
Definition POST (world : World) (request : outcome jsval) : M Answer :=
  try_catch
    (requestJson <- eval request ;;
     match requestSchema requestJson with
     | None => ret InvalidRequest
     | Some query =>
         let cleanQuery := cleanQuery query in
         if negb (nonempty cleanQuery) then
           ret (Users [] None (Some "No query provided"))
         else
           cachedUser <-
             await (GetUserFromDatabase cleanQuery)
                   (getUserFromDatabase world cleanQuery) ;;
           match cachedUser with
           | Some found => ret (Users [transform found] (Some "database") None)
           | None =>
               users <- searchFarcasterUsers world cleanQuery ;;
               match users with
               | [] => ret (Users [] None (Some "No users found"))
               | first :: _ =>
                   _ <- try_catch
                          (await (SaveUserToDatabase first)
                                 (saveUserToDatabase world first))
                          (ret tt) ;;
                   ret (Users (map transform users) (Some "api") None)
               end
           end
     end)
    (ret (Failure 500 "Failed to search users. Please try again later.")).

Definition calls {A : Type} (run : M A) : list call := fst run.
Definition answer {A : Type} (run : M A) : outcome A := snd run.

Definition sample_user : NeynarUser :=
  {| user_fid := 3; user_username := "bob"; display_name := "Bob";
     pfp_url := None; bio_text := Some "gm"; follower_count := 10;
     following_count := 2; verified_accounts := None |}.

(** A world in which the database knows nobody, Neynar answers as
    named and the write does as named. *)
Definition sample_world (neynar : outcome StatusResponse) (save : outcome unit)
  : World :=
  {| getUserFromDatabase := fun _ => Ok None;
     neynar_by_username := fun _ => neynar;
     saveUserToDatabase := fun _ => save |}.

(** A world in which the database knows the sample user. *)
Definition cached_world : World :=
  {| getUserFromDatabase := fun _ => Ok (Some sample_user);
     neynar_by_username := fun _ => Throw;
     saveUserToDatabase := fun _ => Throw |}.

End Search.

(** Unfolding the effects of the search handler. *)
Ltac search_run :=
  unfold Search.POST, Search.searchFarcasterUsers, Search.try_catch,
    Search.bind, Search.await, Search.eval, Search.ret, Search.throw.

(* ------------------------------------------------------------------ *)
(** ** Checks of the substrate on examples *)

Example toFixed_examples :
  toFixed (5 # 2) 0 = "3" /\ toFixed (1 # 3) 1 = "0.3" /\
  toFixed (- (5 # 4)) 1 = "-1.3" /\ toFixed 80 0 = "80" /\
  toFixed (1999 # 100) 1 = "20.0".
Proof. vm_compute. repeat split. Qed.

Example StringToNumber_examples :
  StringToNumber " 120 " = Num (120 + 0 / 1) /\
  StringToNumber "high" = NaN /\ StringToNumber "" = Num 0.
Proof. vm_compute. repeat split. Qed.

Example match_braces_examples :
  match_braces "Sure: {a} and {b}. Bye" = Some "{a} and {b}" /\
  match_braces "} no {" = None /\ match_braces "plain" = None.
Proof. vm_compute. repeat split. Qed.

Example topic_counts_example :
  topicCounts
    (analyzeTopicDiversity
       [cast_of "I love AI and money, technology!" 1 2 3;
        cast_of "LOL the data haha" 1 1 1])
  = [("tech", 2); ("finance", 1); ("politics", 0); ("culture", 0);
     ("sports", 0); ("humor", 2); ("philosophy", 0); ("science", 1)]%nat.
Proof. vm_compute. reflexivity. Qed.

Example consistency_examples :
  calculateConsistencyScore [cast_of "a" 1 2 2; cast_of "b" 3 1 1] == 100 /\
  calculateConsistencyScore [cast_of "a" 9 9 9] == 0.
Proof. vm_compute. split; reflexivity. Qed.

(* ------------------------------------------------------------------ *)
(** ** Rounding and clamping *)

Section Rounding.

Lemma Qmax_inject_Z (a b : Z) :
  Qmax (inject_Z a) (inject_Z b) = inject_Z (Z.max a b).
Proof.
  unfold Qmax, GenericMinMax.gmax, Z.max, Qcompare, inject_Z; simpl.
  rewrite !Z.mul_1_r.
  destruct (a ?= b)%Z; reflexivity.
Qed.

Lemma Qmin_inject_Z (a b : Z) :
  Qmin (inject_Z a) (inject_Z b) = inject_Z (Z.min a b).
Proof.
  unfold Qmin, GenericMinMax.gmin, Z.min, Qcompare, inject_Z; simpl.
  rewrite !Z.mul_1_r.
  destruct (a ?= b)%Z; reflexivity.
Qed.

Lemma Qmax_cases (x y : Q) :
  (x < y /\ Qmax x y = y) \/ (y <= x /\ Qmax x y = x).
Proof.
  unfold Qmax, GenericMinMax.gmax.
  destruct (Qcompare x y) eqn:E.
  - right. split; [apply Qeq_alt in E; rewrite E; apply Qle_refl | reflexivity].
  - left. split; [apply Qlt_alt; assumption | reflexivity].
  - right. split; [apply Qlt_le_weak, Qgt_alt; assumption | reflexivity].
Qed.

Lemma Qmin_cases (x y : Q) :
  (x <= y /\ Qmin x y = x) \/ (y < x /\ Qmin x y = y).
Proof.
  unfold Qmin, GenericMinMax.gmin.
  destruct (Qcompare x y) eqn:E.
  - left. split; [apply Qeq_alt in E; rewrite E; apply Qle_refl | reflexivity].
  - left. split; [apply Qlt_le_weak, Qlt_alt; assumption | reflexivity].
  - right. split; [apply Qgt_alt; assumption | reflexivity].
Qed.

Lemma Math_round_inject_Z (z : Z) : Math_round (inject_Z z) = inject_Z z.
Proof.
  unfold Math_round. f_equal.
  apply Z.le_antisymm.
  - assert (H : inject_Z (Qfloor (inject_Z z + (1 # 2))) <= inject_Z z + (1 # 2))
      by apply Qfloor_le.
    assert (H' : inject_Z (Qfloor (inject_Z z + (1 # 2))) < inject_Z (z + 1)).
    { eapply Qle_lt_trans; [exact H |]. rewrite inject_Z_plus.
      change (inject_Z 1) with 1. lra. }
    rewrite <- Zlt_Qlt in H'. lia.
  - rewrite <- (Qfloor_Z z) at 1. apply Qfloor_resp_le. lra.
Qed.

Lemma Math_round_le (x y : Q) : x <= y -> Math_round x <= Math_round y.
Proof.
  intros H. unfold Math_round. rewrite <- Zle_Qle.
  apply Qfloor_resp_le. lra.
Qed.

Lemma Math_round_comp (x y : Q) : x == y -> Math_round x = Math_round y.
Proof.
  intros H. unfold Math_round. f_equal. apply Qfloor_comp. rewrite H. reflexivity.
Qed.

Lemma inject_Z_le_antisym (a b : Z) :
  inject_Z a <= inject_Z b -> inject_Z b <= inject_Z a -> inject_Z a = inject_Z b.
Proof.
  rewrite <- !Zle_Qle. intros. f_equal. lia.
Qed.

(** Rounding and clamping between two integers commute. *)
Lemma Math_round_clamp (lo hi : Z) (x : Q) :
  (lo <= hi)%Z ->
  Math_round (clamp (inject_Z lo) (inject_Z hi) x)
  = clamp (inject_Z lo) (inject_Z hi) (Math_round x).
Proof.
  intros Hlh. unfold clamp, Math_round at 2.
  rewrite Qmin_inject_Z, Qmax_inject_Z.
  rewrite Zle_Qle in Hlh.
  destruct (Qmin_cases (inject_Z hi) x) as [[H1 ->] | [H1 ->]].
  - destruct (Qmax_cases (inject_Z lo) (inject_Z hi)) as [[H2 ->] | [H2 ->]].
    + rewrite Math_round_inject_Z. f_equal.
      apply Math_round_le in H1. rewrite Math_round_inject_Z in H1.
      unfold Math_round in H1. rewrite <- Zle_Qle in *. lia.
    + rewrite Math_round_inject_Z. f_equal.
      apply Math_round_le in H1. rewrite Math_round_inject_Z in H1.
      unfold Math_round in H1. rewrite <- Zle_Qle in *. lia.
  - destruct (Qmax_cases (inject_Z lo) x) as [[H2 ->] | [H2 ->]].
    + unfold Math_round. f_equal.
      apply Qlt_le_weak in H1, H2.
      apply Math_round_le in H1, H2. rewrite Math_round_inject_Z in H1, H2.
      unfold Math_round in H1, H2. rewrite <- Zle_Qle in *. lia.
    + rewrite Math_round_inject_Z. f_equal.
      apply Qlt_le_weak in H1.
      apply Math_round_le in H1, H2. rewrite Math_round_inject_Z in H1, H2.
      unfold Math_round in H1, H2. rewrite <- Zle_Qle in *. lia.
Qed.

Lemma Qclamp_bounds (lo hi x : Q) :
  lo <= hi -> lo <= Qmax lo (Qmin hi x) /\ Qmax lo (Qmin hi x) <= hi.
Proof.
  intros H. split.
  - apply Q.le_max_l.
  - apply Q.max_lub; [assumption | apply Q.le_min_l].
Qed.

Lemma clamp_bounds (lo hi x : Q) :
  lo <= hi -> lo <= clamp lo hi x /\ clamp lo hi x <= hi.
Proof.
  intros H. unfold clamp. split.
  - apply Q.le_max_l.
  - apply Q.max_lub; [assumption | apply Q.le_min_l].
Qed.

Lemma Math_round_Qclamp (lo hi : Z) (x : Q) :
  (lo <= hi)%Z ->
  Math_round (Qmax (lo # 1) (Qmin (hi # 1) x))
  = Qmax (lo # 1) (Qmin (hi # 1) (Math_round x)).
Proof. exact (Math_round_clamp lo hi x). Qed.

(** A rounded clamp between two integers stays between them. *)
Lemma rounded_Qclamp_bounds (lo hi : Z) (x : Q) :
  (lo <= hi)%Z ->
  lo # 1 <= Math_round (Qmax (lo # 1) (Qmin (hi # 1) x)) /\
  Math_round (Qmax (lo # 1) (Qmin (hi # 1) x)) <= hi # 1.
Proof.
  intros H. rewrite Math_round_Qclamp by assumption.
  apply Qclamp_bounds. rewrite Zle_Qle in H. exact H.
Qed.

End Rounding.

(* ------------------------------------------------------------------ *)
(** ** The tiers of [analyzeWithAI] *)

(** The external lookup never throws; it calls iq-checker at most. *)
Lemma externalLookup_total (env : Env) (userData : UserData) :
  exists t o, externalLookup env userData = (t, Ok o) /\ Forall scoring_call t.
Proof.
  unfold externalLookup.
  destruct (xAccount userData) as [account |]; [| run; eauto].
  destruct (nonempty (username account)); [| run; eauto].
  run.
  destruct (iq_checker env (username account)) as [response |]; simpl;
    [| eexists; eexists; split; [reflexivity | repeat constructor]].
  destruct (ok response); simpl;
    [| eexists; eexists; split; [reflexivity | repeat constructor]].
  destruct (json response) as [iqScore |]; simpl;
    [| eexists; eexists; split; [reflexivity | repeat constructor]].
  destruct (truthy iqScore); simpl;
    eexists; eexists; (split; [reflexivity | repeat constructor]).
Qed.

(** A provider tier never throws, calls its endpoint at most, and
    comes to a result exactly along the chain [accepted]. *)
Lemma provider_cases (env : Env) (apiKey : option string) (endpoint : call)
  (answer : outcome (Response jsval)) :
  exists t o,
    provider env apiKey endpoint answer = (t, Ok o) /\
    (t = [] \/ t = [endpoint]) /\
    (forall r, o = Some r <->
               exists parsed, accepted env apiKey answer parsed /\ r = built_from parsed).
Proof.
  unfold provider, accepted.
  destruct (configured apiKey) eqn:Ekey.
  2:{ run. exists [], None. repeat split; auto.
      - discriminate.
      - intros (p & (H & _) & _). discriminate. }
  run.
  destruct answer as [response |]; simpl.
  2:{ exists [endpoint], None. repeat split; auto.
      - discriminate.
      - intros (p & (_ & resp & text & j & H & _) & _). discriminate. }
  destruct (ok response) eqn:Eok; simpl.
  2:{ exists [endpoint], None. repeat split; auto.
      - discriminate.
      - intros (p & (_ & resp & text & j & H & H' & _) & _).
        injection H as <-. congruence. }
  destruct (json response) as [content |] eqn:Ejson; simpl.
  2:{ exists [endpoint], None. repeat split; auto.
      - discriminate.
      - intros (p & (_ & resp & text & j & H & _ & H' & _) & _).
        injection H as <-. congruence. }
  destruct (truthy content) eqn:Etruthy; simpl.
  2:{ exists [endpoint], None. repeat split; auto.
      - discriminate.
      - intros (p & (_ & resp & text & j & H & _ & H' & Hne & _) & _).
        injection H as <-. rewrite Ejson in H'. injection H' as ->.
        simpl in Etruthy. destruct text; [congruence | discriminate]. }
  destruct content as [| | b | q | text]; simpl;
    try (exists [endpoint], None; repeat split; auto;
         [ discriminate
         | intros (p & (_ & resp & text & j & H & _ & H' & _) & _);
           injection H as <-; congruence ]).
  destruct (match_braces text) as [jsonMatch |] eqn:Ematch; simpl.
  2:{ exists [endpoint], None. repeat split; auto.
      - discriminate.
      - intros (p & (_ & resp & text' & j & H & _ & H' & _ & Hm & _) & _).
        injection H as <-. rewrite Ejson in H'. injection H' as <-. congruence. }
  destruct (JSON_parse env jsonMatch) as [parsed |] eqn:Eparse; simpl.
  2:{ exists [endpoint], None. repeat split; auto.
      - discriminate.
      - intros (p & (_ & resp & text' & j & H & _ & H' & _ & Hm & Hp) & _).
        injection H as <-. rewrite Ejson in H'. injection H' as <-.
        rewrite Ematch in Hm. injection Hm as <-. congruence. }
  exists [endpoint], (Some (built_from parsed)). repeat split; auto.
  - intros Hr. injection Hr as <-. exists parsed. split; [| reflexivity].
    split; [reflexivity |]. exists response, text, jsonMatch.
    repeat split; auto.
    simpl in Etruthy. destruct text; [discriminate | congruence].
  - intros (p & (_ & resp & text' & j & H & _ & H' & _ & Hm & Hp) & ->).
    injection H as <-. rewrite Ejson in H'. injection H' as <-.
    rewrite Ematch in Hm. injection Hm as <-.
    rewrite Eparse in Hp. injection Hp as <-. reflexivity.
Qed.

(** With the lookup and both providers handing over and no fault, the
    result is the local scoring's. *)
Lemma analyzeWithAI_scoring (env : Env) (userData : UserData) :
  falls_through (externalLookup env userData) ->
  falls_through (provider env (OPENAI_API_KEY env) CallOpenAI (openai env)) ->
  falls_through (provider env (GEMINI_API_KEY env) CallGemini (gemini env)) ->
  scoring_fault env = false ->
  result (analyzeWithAI env userData)
  = Ok {| score := Num (finalScore (ud_casts userData) (random_scoring env));
          analysis :=
            JString (scoringAnalysis (ud_casts userData) (random_scoring env));
          confidence :=
            Num (Math_round
                   (Math_max 30
                      (Math_min 85
                         (50 + len (ud_casts userData) * 2
                          + comprehensiveScore (ud_casts userData) * (3 # 10))))) |}.
Proof.
  unfold falls_through, analyzeWithAI, localScoring.
  intros H0 H1 H2 ->.
  destruct (externalLookup env userData) as [t0 o0].
  destruct (provider env (OPENAI_API_KEY env) CallOpenAI (openai env)) as [t1 o1].
  destruct (provider env (GEMINI_API_KEY env) CallGemini (gemini env)) as [t2 o2].
  unfold result in *. simpl in *. subst. reflexivity.
Qed.

(** With the lookup and both providers handing over and a fault in the
    scoring, the result is the final fallback's. *)
Lemma analyzeWithAI_fallback (env : Env) (userData : UserData) :
  falls_through (externalLookup env userData) ->
  falls_through (provider env (OPENAI_API_KEY env) CallOpenAI (openai env)) ->
  falls_through (provider env (GEMINI_API_KEY env) CallGemini (gemini env)) ->
  scoring_fault env = true ->
  result (analyzeWithAI env userData) = result (finalFallback env userData).
Proof.
  unfold falls_through, analyzeWithAI, localScoring.
  intros H0 H1 H2 ->.
  destruct (externalLookup env userData) as [t0 o0].
  destruct (provider env (OPENAI_API_KEY env) CallOpenAI (openai env)) as [t1 o1].
  destruct (provider env (GEMINI_API_KEY env) CallGemini (gemini env)) as [t2 o2].
  unfold result in *. simpl in *. subst. reflexivity.
Qed.

Lemma Forall_scoring_app (t t' : list call) :
  Forall scoring_call t -> Forall scoring_call t' ->
  Forall scoring_call (t ++ t')%list.
Proof. intros. apply Forall_app. split; assumption. Qed.

Lemma provider_trace_scoring (t : list call) :
  t = [] \/ t = [CallOpenAI] \/ t = [CallGemini] -> Forall scoring_call t.
Proof. intros [-> | [-> | ->]]; repeat constructor. Qed.

(** [analyzeWithAI] never throws, whatever the world answers, and
    calls nothing but iq-checker and the two providers. *)
Lemma analyzeWithAI_total (env : Env) (userData : UserData) :
  exists t r, analyzeWithAI env userData = (t, Ok r) /\ Forall scoring_call t.
Proof.
  unfold analyzeWithAI.
  destruct (externalLookup_total env userData) as (t0 & o0 & -> & Ht0).
  destruct (provider_cases env (OPENAI_API_KEY env) CallOpenAI (openai env))
    as (t1 & o1 & E1 & Ht1 & _).
  destruct (provider_cases env (GEMINI_API_KEY env) CallGemini (gemini env))
    as (t2 & o2 & E2 & Ht2 & _).
  assert (Hs1 : Forall scoring_call t1)
    by (apply provider_trace_scoring; tauto).
  assert (Hs2 : Forall scoring_call t2)
    by (apply provider_trace_scoring; tauto).
  destruct o0 as [found |]; run.
  { exists (t0 ++ [])%list, found. split; [reflexivity |].
    apply Forall_scoring_app; [assumption | constructor]. }
  rewrite E1. simpl.
  destruct o1 as [found |]; simpl.
  { exists (t0 ++ t1 ++ [])%list, found. split; [reflexivity |].
    repeat apply Forall_scoring_app; auto. }
  rewrite E2. simpl.
  destruct o2 as [found |]; simpl.
  { exists (t0 ++ t1 ++ t2 ++ [])%list, found. split; [reflexivity |].
    repeat apply Forall_scoring_app; auto. }
  unfold localScoring, finalFallback.
  destruct (scoring_fault env); run.
  - eexists; eexists; split; [reflexivity |].
    repeat apply Forall_scoring_app; auto.
  - eexists; eexists; split; [reflexivity |].
    repeat apply Forall_scoring_app; auto.
Qed.

(* ------------------------------------------------------------------ *)
(** ** The runs of [POST] *)

Lemma fetchUserCasts_total (env : Env) (f : Z) :
  exists casts, fetchUserCasts env f = ([CallNeynarCasts f], Ok casts).
Proof.
  unfold fetchUserCasts. run.
  destruct (neynar_casts env f) as [response |]; simpl; [| eauto].
  destruct (ok response); simpl; [| eauto].
  destruct (json response) as [[found |] |]; simpl; eauto.
Qed.

Lemma fetchUserData_total (env : Env) (f : Z) :
  exists accounts, fetchUserData env f = ([CallNeynarUser f], Ok accounts).
Proof.
  unfold fetchUserData. run.
  destruct (neynar_user env f) as [response |]; simpl; [| eauto].
  destruct (ok response); simpl; [| eauto].
  destruct (json response) as [[found |] |]; simpl; eauto.
Qed.

(** From the fetch of the casts on, [POST] does not fail. *)
Lemma POST_from_fetch (env : Env) (request : Request) (data : RequestData)
  (accounts : option (list Account)) (pre : list call) :
  request = Ok (Some data) ->
  cache_miss env (fid data) ->
  Forall before_fetch pre ->
  exists t a,
    bind (fetchUserCasts env (fid data)) (fun casts =>
      if (List.length casts =? 0)%nat then ret no_posts
      else
        bind (analyzeWithAI env
                {| ud_username := req_username data;
                   ud_displayName := req_displayName data;
                   ud_casts := casts;
                   ud_verifiedAccounts := accounts |}) (fun analysis =>
          bind (try_catch
                  (await (CallSaveIQScoreToDatabase (fid data) analysis)
                         (saveIQScoreToDatabase env (fid data) analysis))
                  (ret tt)) (fun _ =>
            ret (Success analysis "api" None))))
    = (t, Ok a) /\ POST_run env request (pre ++ t)%list a.
Proof.
  intros Hreq Hmiss Hpre.
  destruct (fetchUserCasts_total env (fid data)) as (casts & Ecasts).
  rewrite Ecasts. unfold bind at 1.
  destruct casts as [| c casts]; simpl.
  - eexists; eexists; split; [reflexivity |].
    apply run_no_posts with (data := data); auto.
    rewrite Ecasts. reflexivity.
  - destruct (analyzeWithAI_total env
                {| ud_username := req_username data;
                   ud_displayName := req_displayName data;
                   ud_casts := c :: casts;
                   ud_verifiedAccounts := accounts |}) as (t & r & Er & Ht).
    rewrite Er. run.
    assert (Hrun : POST_run env request
              (pre ++ [CallNeynarCasts (fid data)] ++ t
                   ++ [CallSaveIQScoreToDatabase (fid data) r])%list
              (Success r "api" None)).
    { eapply run_fresh with (casts := c :: casts); eauto.
      - rewrite Ecasts. reflexivity.
      - discriminate. }
    destruct (saveIQScoreToDatabase env (fid data) r); simpl;
      (eexists; eexists; split; [reflexivity |]);
      rewrite ?app_nil_r; exact Hrun.
Qed.

Lemma bind_ret {A B : Type} (a : A) (f : A -> M B) : bind (ret a) f = f a.
Proof. unfold bind, ret. destruct (f a). reflexivity. Qed.

Lemma bind_await {A B : Type} (c : call) (o : outcome A) (f : A -> M B) :
  bind (await c o) f
  = match o with
    | Ok a => let (t, r) := f a in (c :: t, r)
    | Throw => ([c], Throw)
    end.
Proof. unfold bind, await. destruct o; [destruct (f a) |]; reflexivity. Qed.

Lemma bind_eval {A B : Type} (o : outcome A) (f : A -> M B) :
  bind (eval o) f = match o with Ok a => f a | Throw => ([], Throw) end.
Proof. unfold bind, eval. destruct o; [destruct (f a) |]; reflexivity. Qed.


(** From the lookup of the verified accounts on, [POST] fails only
    before it fetches the casts. *)
Lemma POST_after_cache (env : Env) (data : RequestData) (pre : list call) :
  cache_miss env (fid data) ->
  Forall before_fetch pre ->
  exists t o,
    bind
      match req_verifiedAccounts data with
      | Some accounts => ret (Some accounts)
      | None =>
          bind (await (CallGetUserFromDatabaseByFid (fid data))
                      (getUserFromDatabaseByFid env (fid data)))
            (fun cachedUser =>
               match cachedUser with
               | Some verified_accounts => ret verified_accounts
               | None =>
                   bind (fetchUserData env (fid data))
                        (fun accounts => ret (Some accounts))
               end)
      end
      (fun userVerifiedAccounts =>
         bind (fetchUserCasts env (fid data)) (fun casts =>
           if (List.length casts =? 0)%nat then ret no_posts
           else
             bind (analyzeWithAI env
                     {| ud_username := req_username data;
                        ud_displayName := req_displayName data;
                        ud_casts := casts;
                        ud_verifiedAccounts := userVerifiedAccounts |})
               (fun analysis =>
                  bind (try_catch
                          (await (CallSaveIQScoreToDatabase (fid data) analysis)
                                 (saveIQScoreToDatabase env (fid data) analysis))
                          (ret tt))
                    (fun _ => ret (Success analysis "api" None)))))
    = (t, o) /\
    ((o = Throw /\ Forall before_fetch (pre ++ t)%list) \/
     (exists a, o = Ok a /\ POST_run env (Ok (Some data)) (pre ++ t)%list a)).
Proof.
  intros Hmiss Hpre.
  destruct (req_verifiedAccounts data) as [accounts |].
  - rewrite bind_ret.
    destruct (POST_from_fetch env (Ok (Some data)) data (Some accounts) pre
                eq_refl Hmiss Hpre) as (t & a & -> & Hrun).
    exists t, (Ok a). split; [reflexivity |]. right. eauto.
  - rewrite bind_await.
    destruct (getUserFromDatabaseByFid env (fid data)) as [[verified |] |].
    + cbv beta iota. unfold ret at 1. cbv beta iota. unfold bind at 1.
      assert (Hpre' : Forall before_fetch
                (pre ++ [CallGetUserFromDatabaseByFid (fid data)])%list)
        by (apply Forall_app; split; [assumption | repeat constructor]).
      destruct (POST_from_fetch env (Ok (Some data)) data verified _
                  eq_refl Hmiss Hpre') as (t & a & -> & Hrun).
      eexists; eexists; split; [reflexivity |]. right.
      exists a. split; [reflexivity |].
      rewrite <- app_assoc in Hrun. exact Hrun.
    + cbv beta iota.
      destruct (fetchUserData_total env (fid data)) as (accounts & ->).
      unfold bind at 2. unfold ret at 1. cbv beta iota.
      assert (Hpre' : Forall before_fetch
                (pre ++ [CallGetUserFromDatabaseByFid (fid data);
                         CallNeynarUser (fid data)])%list)
        by (apply Forall_app; split; [assumption | repeat constructor]).
      destruct (POST_from_fetch env (Ok (Some data)) data (Some accounts) _
                  eq_refl Hmiss Hpre') as (t & a & E & Hrun).
      unfold bind at 1. rewrite E.
      eexists; eexists; split; [reflexivity |]. right.
      exists a. split; [reflexivity |].
      rewrite <- app_assoc in Hrun. exact Hrun.
    + eexists; eexists; split; [reflexivity |]. left.
      split; [reflexivity |].
      apply Forall_app; split; [assumption | repeat constructor].
Qed.

(** Every run of [POST] ends with an answer, along one of the ways of
    [POST_run]. *)
Lemma POST_runs (env : Env) (request : Request) :
  exists t a, POST env request = (t, Ok a) /\ POST_run env request t a.
Proof.
  unfold POST.
  destruct request as [[data |] |].
  2:{ exists [], InvalidRequest. split; [reflexivity | constructor; reflexivity]. }
  2:{ exists [], failed. split; [reflexivity | constructor; constructor]. }
  rewrite bind_eval. rewrite bind_await.
  destruct (hasRecentIQScore env (fid data) 30) as [[|] |] eqn:Erecent.
  3:{ eexists; eexists; split; [reflexivity |]. constructor. repeat constructor. }
  - rewrite bind_await.
    destruct (getIQScoreFromDatabase env (fid data)) as [[found |] |] eqn:Eget.
    3:{ eexists; eexists; split; [reflexivity |]. constructor. repeat constructor. }
    + eexists; eexists; split; [reflexivity |].
      apply run_cached with (data := data); auto.
    + destruct (POST_after_cache env data
                  [CallHasRecentIQScore (fid data) 30;
                   CallGetIQScoreFromDatabase (fid data)])
        as (t & o & -> & [[-> Hpre] | (a & -> & Hrun)]).
      * right. auto.
      * repeat constructor.
      * eexists; eexists; split; [reflexivity |]. constructor.
        rewrite app_nil_r. exact Hpre.
      * eexists; eexists; split; [reflexivity |]. exact Hrun.
  - rewrite bind_ret.
    destruct (POST_after_cache env data [CallHasRecentIQScore (fid data) 30])
      as (t & o & -> & [[-> Hpre] | (a & -> & Hrun)]).
    + left. auto.
    + repeat constructor.
    + eexists; eexists; split; [reflexivity |]. constructor.
        rewrite app_nil_r. exact Hpre.
    + eexists; eexists; split; [reflexivity |]. exact Hrun.
Qed.

Lemma before_fetch_not_scoring (t : list call) (c : call) :
  Forall before_fetch t -> In c t -> before_fetch c.
Proof. intros H Hin. rewrite Forall_forall in H. auto. Qed.

Lemma scoring_call_in (t : list call) (c : call) :
  Forall scoring_call t -> In c t -> scoring_call c.
Proof. intros H Hin. rewrite Forall_forall in H. auto. Qed.

(** When [POST] has fetched the casts and found none, it answers that
    there are no posts, and it has asked nobody for a score. *)
Lemma POST_no_posts (env : Env) (request : Request) (data : RequestData) :
  request = Ok (Some data) ->
  In (CallNeynarCasts (fid data)) (trace (POST env request)) ->
  result (fetchUserCasts env (fid data)) = Ok [] ->
  result (POST env request) = Ok no_posts /\
  Forall (fun c => ~ scoring_call c) (trace (POST env request)).
Proof.
  intros Hreq Hin Hempty.
  destruct (POST_runs env request) as (t & a & E & Hrun).
  rewrite E in *. unfold trace, result in *. simpl in *.
  destruct Hrun
    as [t Hpre | Hinv | data' found Hreq' Hrec Hget
        | data' pre Hreq' Hmiss Hpre Hfetch
        | data' pre casts accounts t' r Hreq' Hmiss Hpre Hfetch Hne Han Ht].
  - apply (before_fetch_not_scoring _ _ Hpre) in Hin. contradiction.
  - contradiction.
  - simpl in Hin. intuition discriminate.
  - split; [reflexivity |].
    apply Forall_app. split.
    + rewrite Forall_forall in *. intros c Hc Hs.
      specialize (Hpre c Hc). destruct c; simpl in *; contradiction.
    + repeat constructor. intros [].
  - rewrite Hreq in Hreq'. injection Hreq' as <-.
    unfold result in Hfetch. rewrite Hfetch in Hempty. injection Hempty as ->.
    contradiction.
Qed.

(* ------------------------------------------------------------------ *)
(** ** The claims about the route *)

(** C2.  Whenever [POST] finds no score to reuse, fetches the casts and
    the fetched set is empty, it answers with the no-posts error (status
    404): never a success, and no tier was asked for a score. *)
Theorem C2_empty_posts_give_no_content
  (env : Env) (request : Request) (data : RequestData) :
  request = Ok (Some data) ->
  cache_miss env (fid data) ->
  In (CallNeynarCasts (fid data)) (trace (POST env request)) ->
  result (fetchUserCasts env (fid data)) = Ok [] ->
  result (POST env request) = Ok no_posts /\
  (forall body source stamp,
     result (POST env request) <> Ok (Success body source stamp)) /\
  Forall (fun c => ~ scoring_call c) (trace (POST env request)).
Proof.
  intros Hreq _ Hin Hempty.
  destruct (POST_no_posts env request data Hreq Hin Hempty) as [Hres Hcalls].
  repeat split; try assumption.
  intros body source stamp. rewrite Hres. discriminate.
Qed.

Lemma C2_witness :
  result (POST feed_empty (request_for 7 None)) = Ok no_posts /\
  (forall body source stamp,
     result (POST feed_empty (request_for 7 None))
     <> Ok (Success body source stamp)) /\
  Forall (fun c => ~ scoring_call c)
         (trace (POST feed_empty (request_for 7 None))).
Proof.
  apply (C2_empty_posts_give_no_content feed_empty (request_for 7 None)
           {| fid := 7; req_username := Some "alice"; req_displayName := None;
              req_verifiedAccounts := None |}).
  - reflexivity.
  - left. reflexivity.
  - vm_compute. right. right. right. left. reflexivity.
  - reflexivity.
Defined.

(** C10.  When the fetch of the casts fails (the call throws, the
    status is not ok, or the body cannot be read), [fetchUserCasts]
    yields the empty list and [POST] gives the very answer it gives for
    an account without posts. *)
Theorem C10_failed_fetch_reads_as_no_posts
  (env : Env) (request : Request) (data : RequestData) :
  request = Ok (Some data) ->
  In (CallNeynarCasts (fid data)) (trace (POST env request)) ->
  (neynar_casts env (fid data) = Throw \/
   exists response,
     neynar_casts env (fid data) = Ok response /\
     (ok response = false \/ json response = Throw)) ->
  fetchUserCasts env (fid data) = ([CallNeynarCasts (fid data)], Ok []) /\
  result (POST env request) = Ok no_posts /\
  result (POST env request) = result (POST feed_empty (request_for 7 None)) /\
  Forall (fun c => ~ scoring_call c) (trace (POST env request)).
Proof.
  intros Hreq Hin Hfail.
  assert (Hfetch : fetchUserCasts env (fid data)
                   = ([CallNeynarCasts (fid data)], Ok [])).
  { unfold fetchUserCasts. run.
    destruct Hfail as [-> | (response & -> & [Hok | Hjson])]; simpl.
    - reflexivity.
    - rewrite Hok. reflexivity.
    - destruct (ok response); simpl; [rewrite Hjson |]; reflexivity. }
  assert (Hempty : result (fetchUserCasts env (fid data)) = Ok [])
    by (rewrite Hfetch; reflexivity).
  destruct (POST_no_posts env request data Hreq Hin Hempty) as [Hres Hcalls].
  repeat split; try assumption.
Qed.

Lemma C10_witness :
  fetchUserCasts feed_down 7 = ([CallNeynarCasts 7], Ok []) /\
  result (POST feed_down (request_for 7 None)) = Ok no_posts /\
  result (POST feed_down (request_for 7 None))
  = result (POST feed_empty (request_for 7 None)) /\
  Forall (fun c => ~ scoring_call c)
         (trace (POST feed_down (request_for 7 None))).
Proof.
  apply (C10_failed_fetch_reads_as_no_posts feed_down (request_for 7 None)
           {| fid := 7; req_username := Some "alice"; req_displayName := None;
              req_verifiedAccounts := None |}).
  - reflexivity.
  - vm_compute. right. right. right. left. reflexivity.
  - left. reflexivity.
Defined.

(** C9.  When [POST] has computed a score and the write of it to the
    database fails, the answer is still that score, as a success. *)
Theorem C9_failed_write_keeps_the_score
  (env : Env) (request : Request) (f : Z) (r : IQResult) :
  In (CallSaveIQScoreToDatabase f r) (trace (POST env request)) ->
  saveIQScoreToDatabase env f r = Throw ->
  result (POST env request) = Ok (Success r "api" None).
Proof.
  intros Hin _.
  destruct (POST_runs env request) as (t & a & E & Hrun).
  rewrite E in *. unfold trace, result in *. simpl in *.
  destruct Hrun
    as [t Hpre | Hinv | data' found Hreq' Hrec Hget
        | data' pre Hreq' Hmiss Hpre Hfetch
        | data' pre casts accounts t' r' Hreq' Hmiss Hpre Hfetch Hne Han Ht].
  - apply (before_fetch_not_scoring _ _ Hpre) in Hin. contradiction.
  - contradiction.
  - simpl in Hin. intuition discriminate.
  - apply in_app_or in Hin. destruct Hin as [Hin | Hin].
    + apply (before_fetch_not_scoring _ _ Hpre) in Hin. contradiction.
    + simpl in Hin. intuition discriminate.
  - apply in_app_or in Hin. destruct Hin as [Hin | Hin].
    + apply (before_fetch_not_scoring _ _ Hpre) in Hin. contradiction.
    + simpl in Hin. destruct Hin as [Hin | Hin]; [discriminate |].
      apply in_app_or in Hin. destruct Hin as [Hin | Hin].
      * apply (scoring_call_in _ _ Ht) in Hin. contradiction.
      * simpl in Hin. destruct Hin as [Hin | []].
        injection Hin as _ <-. reflexivity.
Qed.

Lemma C9_witness :
  result (POST providers_down (request_for 7 None))
  = Ok (Success scored_locally "api" None).
Proof.
  apply (C9_failed_write_keeps_the_score providers_down (request_for 7 None)
           7 scored_locally).
  - vm_compute. do 6 right. left. reflexivity.
  - reflexivity.
Defined.

(** C5.  When the store holds a score for the account that is at most
    30 days old, [POST] answers with that score after reading the store
    twice: it fetches no casts and asks neither iq-checker nor a
    provider. *)
Theorem C5_recent_score_short_circuits
  (env : Env) (store : Store) (now : Z) (data : RequestData)
  (entry : CachedIQScore) :
  reads_store env store now ->
  store (fid data) = Some entry ->
  (now - analyzedAt entry <= 30 * ms_per_day)%Z ->
  POST env (Ok (Some data))
  = ([CallHasRecentIQScore (fid data) 30; CallGetIQScoreFromDatabase (fid data)],
     Ok (Success (cached entry) "database" (Some (analyzedAt entry)))) /\
  forallb (fun c => negb (asks_outside c)) (trace (POST env (Ok (Some data))))
  = true.
Proof.
  intros [Hrecent Hget] Hentry Hfresh.
  assert (E : POST env (Ok (Some data))
              = ([CallHasRecentIQScore (fid data) 30;
                  CallGetIQScoreFromDatabase (fid data)],
                 Ok (Success (cached entry) "database" (Some (analyzedAt entry))))).
  { unfold POST. rewrite bind_eval, bind_await.
    rewrite Hrecent. unfold spec_hasRecentIQScore. rewrite Hentry.
    apply Z.leb_le in Hfresh. rewrite Hfresh.
    rewrite bind_await, Hget. unfold spec_getIQScoreFromDatabase.
    rewrite Hentry. reflexivity. }
  split; [exact E |]. rewrite E. reflexivity.
Qed.

Lemma C5_witness :
  POST score_in_store (Ok (Some {| fid := 7; req_username := None;
                                   req_displayName := None;
                                   req_verifiedAccounts := None |}))
  = ([CallHasRecentIQScore 7 30; CallGetIQScoreFromDatabase 7],
     Ok (Success (cached stored_score) "database" (Some 0%Z))) /\
  forallb (fun c => negb (asks_outside c))
    (trace (POST score_in_store
              (Ok (Some {| fid := 7; req_username := None;
                           req_displayName := None;
                           req_verifiedAccounts := None |}))))
  = true.
Proof.
  apply (C5_recent_score_short_circuits score_in_store
           (fun _ => Some stored_score) 1000
           {| fid := 7; req_username := None; req_displayName := None;
              req_verifiedAccounts := None |} stored_score).
  - split; intros; reflexivity.
  - reflexivity.
  - vm_compute. discriminate.
Defined.

(** C6, as the spec has it, fails: with both providers answering with
    transport errors the score is the local scoring's, and the answer
    names its source "api". *)
Lemma C6_source_does_not_name_the_tier :
  openai providers_down = Throw /\ gemini providers_down = Throw /\
  result (POST providers_down (request_for 7 None))
  = Ok (Success scored_locally "api" None) /\
  result (localScoring providers_down (user_of two_casts (Some [])))
  = Ok scored_locally /\
  "api" <> "heuristic".
Proof.
  repeat split; try reflexivity. discriminate.
Qed.

(** C6, amended.  The source of a successful answer tells a stored
    score ("database") from a freshly computed one ("api") and nothing
    more: whichever tier of [analyzeWithAI] computed the score, the
    source is "api"; so it is when both providers fail with transport
    errors and the score is the local scoring's. *)
Theorem C6_source_is_database_or_api
  (env : Env) (request : Request) (body : IQResult) (source : string)
  (stamp : option Z) :
  result (POST env request) = Ok (Success body source stamp) ->
  (source = "database" /\
   exists data found,
     request = Ok (Some data) /\
     getIQScoreFromDatabase env (fid data) = Ok (Some found) /\
     body = cached found /\ stamp = Some (analyzedAt found))
  \/
  (source = "api" /\ stamp = None /\
   exists userData,
     ud_casts userData <> [] /\
     result (analyzeWithAI env userData) = Ok body /\
     (openai env = Throw -> gemini env = Throw ->
      falls_through (externalLookup env userData) ->
      scoring_fault env = false ->
      result (localScoring env userData) = Ok body)).
Proof.
  intros Hres.
  destruct (POST_runs env request) as (t & a & E & Hrun).
  rewrite E in Hres. unfold result in Hres. simpl in Hres.
  injection Hres as ->.
  inversion Hrun
    as [t0 Hpre | Hinv | data' found Hreq' Hrec Hget
        | data' pre Hreq' Hmiss Hpre Hfetch
        | data' pre casts accounts t' r' Hreq' Hmiss Hpre Hfetch Hne Han Ht];
    subst.
  - left. split; [reflexivity |]. exists data', found. auto.
  - right. split; [reflexivity |]. split; [reflexivity |].
    set (userData := {| ud_username := req_username data';
                        ud_displayName := req_displayName data';
                        ud_casts := casts;
                        ud_verifiedAccounts := accounts |}) in *.
    exists userData. split; [| split].
    + exact Hne.
    + rewrite Han. reflexivity.
    + intros Ho Hg Hlook Hfault.
      assert (H1 : falls_through
                (provider env (OPENAI_API_KEY env) CallOpenAI (openai env))).
      { rewrite Ho. unfold falls_through, provider.
        destruct (configured (OPENAI_API_KEY env)); reflexivity. }
      assert (H2 : falls_through
                (provider env (GEMINI_API_KEY env) CallGemini (gemini env))).
      { rewrite Hg. unfold falls_through, provider.
        destruct (configured (GEMINI_API_KEY env)); reflexivity. }
      pose proof (analyzeWithAI_scoring env userData Hlook H1 H2 Hfault) as Hs.
      rewrite Han in Hs. unfold result in Hs. simpl in Hs.
      unfold localScoring. rewrite Hfault. unfold result, ret. simpl.
      rewrite Hs. reflexivity.
Qed.

Lemma C6_witness :
  ("api" = "database" /\
   exists data found,
     request_for 7 None = Ok (Some data) /\
     getIQScoreFromDatabase providers_down (fid data) = Ok (Some found) /\
     scored_locally = cached found /\ None = Some (analyzedAt found))
  \/
  ("api" = "api" /\ @None Z = None /\
   exists userData,
     ud_casts userData <> [] /\
     result (analyzeWithAI providers_down userData) = Ok scored_locally /\
     (openai providers_down = Throw -> gemini providers_down = Throw ->
      falls_through (externalLookup providers_down userData) ->
      scoring_fault providers_down = false ->
      result (localScoring providers_down userData) = Ok scored_locally)).
Proof.
  apply (C6_source_is_database_or_api providers_down (request_for 7 None)
           scored_locally "api" None).
  reflexivity.
Defined.

(* ------------------------------------------------------------------ *)
(** ** The claims about [analyzeWithAI] *)

(** The jitter stays within 7.5 of zero for a draw in [0, 1). *)
Lemma randomFactor_range (random : Q) :
  0 <= random -> random < 1 ->
  - (15 # 2) <= randomFactor random /\ randomFactor random < 15 # 2.
Proof. unfold randomFactor. intros. split; lra. Qed.

Lemma fallback_score_in_range (random : Q) :
  in_range 55 145 (Num (Math_round (fallbackScore random))).
Proof.
  unfold fallbackScore, Math_max, Math_min, in_range.
  apply (rounded_Qclamp_bounds 55 145). lia.
Qed.

Lemma fallback_confidence_in_range (casts : list NeynarCast) :
  in_range 0 100 (Num (Math_round (fallbackConfidence casts))).
Proof.
  unfold fallbackConfidence, Math_max, Math_min, in_range.
  destruct (rounded_Qclamp_bounds 25 60 (40 + len casts * (3 # 2)))
    as [Hlo Hhi]; [lia |].
  split; lra.
Qed.

(** C4.  For a non-empty set of casts [analyzeWithAI] returns a
    result whatever the world does: no failure of iq-checker, of a
    provider or of the local scoring reaches the caller.  When the
    local scoring fails, the result is the final fallback's, with a
    score between 55 and 145. *)
Theorem C4_analysis_always_returns (env : Env) (userData : UserData) :
  ud_casts userData <> [] ->
  (exists r, result (analyzeWithAI env userData) = Ok r) /\
  (falls_through (externalLookup env userData) ->
   falls_through (provider env (OPENAI_API_KEY env) CallOpenAI (openai env)) ->
   falls_through (provider env (GEMINI_API_KEY env) CallGemini (gemini env)) ->
   scoring_fault env = true ->
   exists r,
     result (analyzeWithAI env userData) = Ok r /\
     result (finalFallback env userData) = Ok r /\
     in_range 55 145 (score r) /\ in_range 0 100 (confidence r)).
Proof.
  intros _. split.
  - destruct (analyzeWithAI_total env userData) as (t & r & E & _).
    exists r. rewrite E. reflexivity.
  - intros H0 H1 H2 Hfault.
    rewrite (analyzeWithAI_fallback env userData H0 H1 H2 Hfault).
    eexists. split; [reflexivity |]. split; [reflexivity |]. simpl. split.
    + apply fallback_score_in_range.
    + apply fallback_confidence_in_range.
Qed.

Lemma C4_witness :
  (exists r,
     result (analyzeWithAI scoring_broken (user_of two_casts None)) = Ok r) /\
  (falls_through (externalLookup scoring_broken (user_of two_casts None)) ->
   falls_through
     (provider scoring_broken (OPENAI_API_KEY scoring_broken) CallOpenAI
        (openai scoring_broken)) ->
   falls_through
     (provider scoring_broken (GEMINI_API_KEY scoring_broken) CallGemini
        (gemini scoring_broken)) ->
   scoring_fault scoring_broken = true ->
   exists r,
     result (analyzeWithAI scoring_broken (user_of two_casts None)) = Ok r /\
     result (finalFallback scoring_broken (user_of two_casts None)) = Ok r /\
     in_range 55 145 (score r) /\ in_range 0 100 (confidence r)).
Proof.
  apply (C4_analysis_always_returns scoring_broken (user_of two_casts None)).
  discriminate.
Defined.

Example fallback_on_two_casts :
  result (analyzeWithAI scoring_broken (user_of two_casts None))
  = Ok {| score := Num 75;
          analysis := JString "Analysis based on 2 posts. The user shows moderate engagement patterns with 2.0 average likes per post. Content analysis suggests below-average cognitive abilities with room for growth in engagement and communication style.";
          confidence := Num 43 |}.
Proof. vm_compute. reflexivity. Qed.

(** The external lookup comes to a result only from a truthy
    [iqScore] of an answer that is ok. *)
Lemma externalLookup_cases (env : Env) (userData : UserData) (r : IQResult) :
  result (externalLookup env userData) = Ok (Some r) ->
  produced env userData ExternalLookup r.
Proof.
  unfold externalLookup.
  destruct (xAccount userData) as [account |] eqn:Ex; [| discriminate].
  destruct (nonempty (username account)); [| discriminate].
  run.
  destruct (iq_checker env (username account)) as [response |] eqn:Eiq; simpl;
    [| discriminate].
  destruct (ok response); simpl; [| discriminate].
  destruct (json response) as [iqScore |] eqn:Ejson; simpl; [| discriminate].
  destruct (truthy iqScore) eqn:Etruthy; simpl; [| discriminate].
  intros H. injection H as <-.
  eapply by_lookup; eauto.
Qed.

(** Whatever the world does, [analyzeWithAI] returns a result, and the
    result is the one some tier produced. *)
Lemma analyzeWithAI_tiers (env : Env) (userData : UserData) :
  exists tier r,
    result (analyzeWithAI env userData) = Ok r /\ produced env userData tier r.
Proof.
  unfold analyzeWithAI.
  pose proof (externalLookup_cases env userData) as Hlook.
  destruct (externalLookup_total env userData) as (t0 & o0 & E0 & _).
  rewrite E0 in *. unfold result in Hlook. simpl in Hlook.
  destruct (provider_cases env (OPENAI_API_KEY env) CallOpenAI (openai env))
    as (t1 & o1 & E1 & _ & H1).
  destruct (provider_cases env (GEMINI_API_KEY env) CallGemini (gemini env))
    as (t2 & o2 & E2 & _ & H2).
  destruct o0 as [found |]; run.
  { exists ExternalLookup, found. split; [reflexivity | auto]. }
  rewrite E1. simpl.
  destruct o1 as [found |]; simpl.
  { exists OpenAI, found. split; [reflexivity |].
    destruct (proj1 (H1 found) eq_refl) as (parsed & Hacc & ->).
    apply by_openai. assumption. }
  rewrite E2. simpl.
  destruct o2 as [found |]; simpl.
  { exists Gemini, found. split; [reflexivity |].
    destruct (proj1 (H2 found) eq_refl) as (parsed & Hacc & ->).
    apply by_gemini. assumption. }
  unfold localScoring.
  destruct (scoring_fault env) eqn:Efault; run.
  - eexists FinalFallback, _. split; [reflexivity |].
    apply by_fallback; [assumption | reflexivity].
  - eexists LocalScoring, _. split; [reflexivity |].
    apply by_scoring; [assumption |].
    unfold localScoring. rewrite Efault. reflexivity.
Qed.

Lemma clamp_number_in_range (lo hi : Q) (v : number) :
  lo <= hi -> v <> NaN -> in_range lo hi (clamp_number lo hi v).
Proof.
  intros Hle Hv. destruct v as [| q]; [congruence |].
  exact (Qclamp_bounds lo hi q Hle).
Qed.

Lemma local_score_in_range (casts : list NeynarCast) (random : Q) :
  in_range 55 145 (Num (finalScore casts random)).
Proof.
  unfold finalScore, Math_max, Math_min, in_range.
  apply Qclamp_bounds. lra.
Qed.

Lemma local_confidence_in_range (casts : list NeynarCast) :
  in_range 0 100
    (Num (Math_round
            (Math_max 30
               (Math_min 85
                  (50 + len casts * 2 + comprehensiveScore casts * (3 # 10)))))).
Proof.
  unfold Math_max, Math_min, in_range.
  destruct (rounded_Qclamp_bounds 30 85
              (50 + len casts * 2 + comprehensiveScore casts * (3 # 10)))
    as [Hlo Hhi]; [lia |].
  split; lra.
Qed.

Lemma localScoring_in_range (env : Env) (userData : UserData) (r : IQResult) :
  result (localScoring env userData) = Ok r ->
  in_range 55 145 (score r) /\ in_range 0 100 (confidence r).
Proof.
  unfold localScoring.
  destruct (scoring_fault env); [discriminate |].
  intros H. injection H as <-. split.
  - apply local_score_in_range.
  - apply local_confidence_in_range.
Qed.

Lemma finalFallback_in_range (env : Env) (userData : UserData) (r : IQResult) :
  result (finalFallback env userData) = Ok r ->
  in_range 55 145 (score r) /\ in_range 0 100 (confidence r).
Proof.
  unfold finalFallback.
  intros H. injection H as <-. split.
  - apply fallback_score_in_range.
  - apply fallback_confidence_in_range.
Qed.

(** Where every payload converts to a number, the result of
    [analyzeWithAI] has its score between 55 and 145 and its confidence
    between 0 and 100, whichever tier produced it. *)
Lemma analyzeWithAI_in_range (env : Env) (userData : UserData) (r : IQResult) :
  ud_casts userData <> [] ->
  numeric_payloads env ->
  result (analyzeWithAI env userData) = Ok r ->
  in_range 55 145 (score r) /\ in_range 0 100 (confidence r).
Proof.
  intros _ [Hiq Hparse] Hres.
  destruct (analyzeWithAI_tiers env userData) as (tier & r' & E & Hprod).
  rewrite E in Hres. injection Hres as <-.
  destruct Hprod
    as [account response iqScore r Hx Hresp Hjson Htruthy Hscore Hconf
        | parsed Hacc | parsed Hacc | r Hfault Hr | r Hfault Hr].
  - rewrite Hscore, Hconf. split.
    + apply clamp_number_in_range; [lra | eauto].
    + simpl. lra.
  - destruct Hacc as (_ & response & text & jsonMatch & _ & _ & _ & _ & _ & Hp).
    destruct (Hparse _ _ Hp). simpl.
    split; apply clamp_number_in_range; auto; lra.
  - destruct Hacc as (_ & response & text & jsonMatch & _ & _ & _ & _ & _ & Hp).
    destruct (Hparse _ _ Hp). simpl.
    split; apply clamp_number_in_range; auto; lra.
  - exact (localScoring_in_range env userData r Hr).
  - exact (finalFallback_in_range env userData r Hr).
Qed.

(** C1: the code at the failing input.  OpenAI answers with JSON that
    has no score; [analyzeWithAI] returns the result built from it, its
    score is [NaN], outside 55..145, and [POST] answers with it. *)
Theorem C1_score_missing_from_payload_is_NaN :
  parsed_score no_score = JUndefined /\
  analyzeWithAI openai_without_score (user_of two_casts (Some []))
  = ([CallOpenAI],
     Ok {| score := NaN;
           analysis := JString "Not enough signal to estimate.";
           confidence := Num 20 |}) /\
  ~ in_range 55 145 NaN /\
  result (POST openai_without_score (request_for 7 None))
  = Ok (Success {| score := NaN;
                   analysis := JString "Not enough signal to estimate.";
                   confidence := Num 20 |} "api" None).
Proof.
  split; [reflexivity |]. split; [vm_compute; reflexivity |].
  split; [intros [] |]. vm_compute. reflexivity.
Qed.




(* ------------------------------------------------------------------ *)
(** ** The primary topic *)

Section PrimaryTopic.

Let later_wins (a b : string * nat) : string * nat :=
  if (snd b <? snd a)%nat then a else b.

Lemma nth_error_snoc {A : Type} (l : list A) (b e : A) (j : nat) :
  nth_error (l ++ [b])%list j = Some e ->
  nth_error l j = Some e \/ (j = List.length l /\ e = b).
Proof.
  intros H.
  destruct (Nat.lt_ge_cases j (List.length l)) as [Hj | Hj].
  - left. rewrite nth_error_app1 in H by assumption. assumption.
  - right. rewrite nth_error_app2 in H by assumption.
    destruct (j - List.length l)%nat as [| k] eqn:E; simpl in H.
    + injection H as <-. split; [lia | reflexivity].
    + destruct k; discriminate.
Qed.

(** The reduction keeps an entry that no earlier one exceeds and that
    every later one stays below. *)
Lemma fold_keeps_last_maximum (rest done : list (string * nat))
  (a : string * nat) (i : nat) :
  nth_error done i = Some a ->
  (forall j e, nth_error done j = Some e -> (snd e <= snd a)%nat) ->
  (forall j e, (i < j)%nat -> nth_error done j = Some e -> (snd e < snd a)%nat) ->
  exists k,
    nth_error (done ++ rest)%list k = Some (fold_left later_wins rest a) /\
    (forall j e, nth_error (done ++ rest)%list j = Some e ->
                 (snd e <= snd (fold_left later_wins rest a))%nat) /\
    (forall j e, (k < j)%nat -> nth_error (done ++ rest)%list j = Some e ->
                 (snd e < snd (fold_left later_wins rest a))%nat).
Proof.
  revert done a i.
  induction rest as [| b rest IH]; intros done a i Hi Hmax Hlast; simpl.
  - rewrite app_nil_r. exists i. auto.
  - replace (done ++ b :: rest)%list with ((done ++ [b]) ++ rest)%list
      by (rewrite <- app_assoc; reflexivity).
    assert (Hlen : (i < List.length done)%nat)
      by (apply nth_error_Some; congruence).
    unfold later_wins at 2 4 6.
    destruct (Nat.ltb_spec (snd b) (snd a)) as [Hlt | Hge].
    + apply (IH (done ++ [b])%list a i).
      * rewrite nth_error_app1 by assumption. assumption.
      * intros j e Hj. apply nth_error_snoc in Hj.
        destruct Hj as [Hj | [_ ->]]; [eauto | lia].
      * intros j e Hij Hj. apply nth_error_snoc in Hj.
        destruct Hj as [Hj | [_ ->]]; [eauto | lia].
    + apply (IH (done ++ [b])%list b (List.length done)).
      * rewrite nth_error_app2 by lia. rewrite Nat.sub_diag. reflexivity.
      * intros j e Hj. apply nth_error_snoc in Hj.
        destruct Hj as [Hj | [_ ->]]; [| lia].
        specialize (Hmax j e Hj). lia.
      * intros j e Hij Hj. apply nth_error_snoc in Hj.
        destruct Hj as [Hj | [Hj' _]]; [| lia].
        assert (j < List.length done)%nat by (apply nth_error_Some; congruence).
        lia.
Qed.

(** [reduce_max] picks the last of the entries with the highest count. *)
Lemma reduce_max_last_maximum (entries : list (string * nat))
  (picked : string * nat) :
  reduce_max entries = Some picked ->
  last_declared_maximum entries (fst picked).
Proof.
  destruct entries as [| first rest]; [discriminate |].
  simpl. intros H. injection H as <-.
  destruct (fold_keeps_last_maximum rest [first] first 0)
    as (k & Hk & Hmax & Hlast).
  - reflexivity.
  - intros [| [| j]] e Hj; simpl in Hj; try discriminate.
    injection Hj as <-. lia.
  - intros [| [| j]] e Hij Hj; simpl in Hj; try discriminate. lia.
  - fold later_wins.
    destruct (fold_left later_wins rest first) as [name c].
    exists k, c. split; [| split].
    + exact Hk.
    + exact Hmax.
    + exact Hlast.
Qed.

End PrimaryTopic.

Lemma topicCounts_names (casts : list NeynarCast) :
  map fst (topicCounts (analyzeTopicDiversity casts))
  = ["tech"; "finance"; "politics"; "culture"; "sports"; "humor";
     "philosophy"; "science"].
Proof. reflexivity. Qed.

Lemma primaryTopic_reduce (casts : list NeynarCast) :
  primaryTopic (analyzeTopicDiversity casts)
  = match reduce_max (topicCounts (analyzeTopicDiversity casts)) with
    | Some entry => fst entry
    | None => ""
    end.
Proof. reflexivity. Qed.

(** C8, as the spec has it, fails: with one match for tech and one for
    finance and none elsewhere, the primary topic is finance, the later
    of the two. *)
Lemma C8_tie_goes_to_the_later_category :
  topicCounts (analyzeTopicDiversity [cast_of "ai money" 0 0 0])
  = [("tech", 1); ("finance", 1); ("politics", 0); ("culture", 0);
     ("sports", 0); ("humor", 0); ("philosophy", 0); ("science", 0)]%nat /\
  primaryTopic (analyzeTopicDiversity [cast_of "ai money" 0 0 0]) = "finance" /\
  ~ first_declared_maximum
      (topicCounts (analyzeTopicDiversity [cast_of "ai money" 0 0 0]))
      (primaryTopic (analyzeTopicDiversity [cast_of "ai money" 0 0 0])).
Proof.
  split; [vm_compute; reflexivity |]. split; [vm_compute; reflexivity |].
  intros (i & c & Hi & _ & Hfirst).
  assert (E : topicCounts (analyzeTopicDiversity [cast_of "ai money" 0 0 0])
              = [("tech", 1); ("finance", 1); ("politics", 0); ("culture", 0);
                 ("sports", 0); ("humor", 0); ("philosophy", 0);
                 ("science", 0)]%nat)
    by (vm_compute; reflexivity).
  assert (E' : primaryTopic (analyzeTopicDiversity [cast_of "ai money" 0 0 0])
               = "finance") by (vm_compute; reflexivity).
  rewrite E in Hi, Hfirst. rewrite E' in Hi. clear E E'.
  destruct i as [| [| i]]; simpl in Hi.
  - discriminate.
  - injection Hi as <-.
    specialize (Hfirst 0%nat ("tech", 1%nat) (Nat.lt_0_1) eq_refl).
    simpl in Hfirst. lia.
  - do 6 (destruct i as [| i]; simpl in Hi; [discriminate |]).
    destruct i; discriminate.
Qed.

(** C8, amended.  The primary topic is a category with the highest
    match count, and when several categories share that count it is
    the one declared last in the order tech, finance, politics,
    culture, sports, humor, philosophy, science. *)
Theorem C8_primary_topic_is_last_maximum (casts : list NeynarCast) :
  map fst (topicCounts (analyzeTopicDiversity casts))
  = ["tech"; "finance"; "politics"; "culture"; "sports"; "humor";
     "philosophy"; "science"] /\
  last_declared_maximum
    (topicCounts (analyzeTopicDiversity casts))
    (primaryTopic (analyzeTopicDiversity casts)).
Proof.
  split; [apply topicCounts_names |].
  rewrite primaryTopic_reduce.
  pose proof (topicCounts_names casts) as Hnames.
  destruct (reduce_max (topicCounts (analyzeTopicDiversity casts)))
    as [picked |] eqn:E.
  - apply reduce_max_last_maximum. assumption.
  - destruct (topicCounts (analyzeTopicDiversity casts)); discriminate.
Qed.

(* ------------------------------------------------------------------ *)
(** ** Counting and ratios *)

Section Ratios.

Lemma len_nonneg {A : Type} (l : list A) : 0 <= len l.
Proof.
  unfold len. change 0 with (inject_Z 0). rewrite <- Zle_Qle. lia.
Qed.

Lemma len_pos {A : Type} (l : list A) : l <> [] -> 0 < len l.
Proof.
  intros H. unfold len. change 0 with (inject_Z 0). rewrite <- Zlt_Qlt.
  destruct l; [contradiction | simpl; lia].
Qed.

Lemma len_ge_1 {A : Type} (l : list A) : l <> [] -> 1 <= len l.
Proof.
  intros H. unfold len. change 1 with (inject_Z 1). rewrite <- Zle_Qle.
  destruct l; [contradiction | simpl; lia].
Qed.

Lemma filter_length_le {A : Type} (p : A -> bool) (l : list A) :
  (List.length (filter p l) <= List.length l)%nat.
Proof.
  induction l as [| a l IH]; simpl; [lia |].
  destruct (p a); simpl; lia.
Qed.

Lemma count_nonneg {A : Type} (p : A -> bool) (l : list A) : 0 <= count p l.
Proof. apply len_nonneg. Qed.

Lemma count_le_len {A : Type} (p : A -> bool) (l : list A) : count p l <= len l.
Proof.
  unfold count, len. rewrite <- Zle_Qle.
  apply Nat2Z.inj_le, filter_length_le.
Qed.

(** Two filters that exclude each other share the list between them. *)
Lemma count_disjoint {A : Type} (p q : A -> bool) (l : list A) :
  (forall a, p a = true -> q a = false) ->
  count p l + count q l <= len l.
Proof.
  intros Hpq. unfold count, len.
  rewrite <- inject_Z_plus, <- Zle_Qle, <- Nat2Z.inj_add.
  apply Nat2Z.inj_le.
  induction l as [| a l IH]; simpl; [lia |].
  destruct (p a) eqn:Ep; [rewrite (Hpq a Ep) |]; simpl.
  - lia.
  - destruct (q a); simpl; lia.
Qed.

(** One filter inside another counts no more. *)
Lemma count_mono {A : Type} (p q : A -> bool) (l : list A) :
  Forall (fun a => p a = true -> q a = true) l ->
  count p l <= count q l.
Proof.
  intros Hpq. unfold count, len. rewrite <- Zle_Qle. apply Nat2Z.inj_le.
  induction Hpq as [| a l Ha _ IH]; simpl; [lia |].
  destruct (p a) eqn:Ep; [rewrite (Ha eq_refl) |]; simpl.
  - lia.
  - destruct (q a); simpl; lia.
Qed.

Lemma ratio_bounds (a b : Q) :
  0 <= a -> a <= b -> 0 < b -> 0 <= a / b /\ a / b <= 1.
Proof.
  intros Ha Hab Hb. split.
  - apply Qle_shift_div_l; [assumption | lra].
  - apply Qle_shift_div_r; [assumption | lra].
Qed.

Lemma ratio_le (a b c : Q) : a <= b -> 0 < c -> a / c <= b / c.
Proof.
  intros Hab Hc. apply Qle_shift_div_r; [assumption |].
  assert (E : b / c * c == b) by (field; lra).
  rewrite E. assumption.
Qed.

Lemma ratio_sum_le_1 (a b c : Q) : a + b <= c -> 0 < c -> a / c + b / c <= 1.
Proof.
  intros Hab Hc.
  assert (E : a / c + b / c == (a + b) / c) by (field; lra).
  rewrite E. apply Qle_shift_div_r; [assumption | lra].
Qed.

Lemma sum_of_acc {A : Type} (f : A -> Q) (l : list A) (acc : Q) :
  fold_left (fun sum x => sum + f x) l acc == acc + sum_of f l.
Proof.
  unfold sum_of. revert acc.
  induction l as [| a l IH]; intros acc; simpl.
  - ring.
  - rewrite IH. rewrite (IH (0 + f a)). ring.
Qed.

Lemma sum_of_cons {A : Type} (f : A -> Q) (a : A) (l : list A) :
  sum_of f (a :: l) == f a + sum_of f l.
Proof.
  unfold sum_of at 1. simpl. rewrite sum_of_acc. ring.
Qed.

Lemma sum_of_nonneg {A : Type} (f : A -> Q) (l : list A) :
  Forall (fun a => 0 <= f a) l -> 0 <= sum_of f l.
Proof.
  induction 1 as [| a l Ha _ IH].
  - unfold sum_of. simpl. lra.
  - rewrite sum_of_cons. lra.
Qed.

(** A list of equal terms sums to their number times the term. *)
Lemma sum_of_constant {A : Type} (f : A -> Q) (v : Q) (l : list A) :
  Forall (fun a => f a == v) l -> sum_of f l == len l * v.
Proof.
  induction 1 as [| a l Ha _ IH].
  - unfold sum_of, len. simpl. ring.
  - rewrite sum_of_cons, IH, Ha. unfold len. simpl List.length.
    rewrite Nat2Z.inj_succ. unfold Z.succ. rewrite inject_Z_plus.
    change (inject_Z 1) with 1. ring.
Qed.

Lemma sum_of_zero {A : Type} (f : A -> Q) (l : list A) :
  Forall (fun a => f a == 0) l -> sum_of f l == 0.
Proof.
  intros H. rewrite (sum_of_constant f 0 l H). ring.
Qed.

Lemma Math_sqrt_nonneg (x : Q) : 0 <= Math_sqrt x.
Proof.
  unfold Math_sqrt, Qle. simpl. rewrite Z.mul_1_r. apply Z.sqrt_nonneg.
Qed.

Lemma Math_sqrt_zero (x : Q) : x == 0 -> Math_sqrt x == 0.
Proof.
  intros H. unfold Qeq in H. simpl in H. rewrite Z.mul_1_r in H.
  unfold Math_sqrt, Qeq. simpl. rewrite H. reflexivity.
Qed.

End Ratios.

(* ------------------------------------------------------------------ *)
(** ** Properties of the extractors *)

(** X1.  The consistency score lies between 0 and 100 for every list
    of casts. *)
Theorem X1_consistency_score_bounds (casts : list NeynarCast) :
  0 <= calculateConsistencyScore casts /\ calculateConsistencyScore casts <= 100.
Proof.
  unfold calculateConsistencyScore.
  destruct (List.length casts <? 2)%nat; [split; lra |].
  cbv zeta.
  set (rates := map (fun cast => inject_Z (interactions cast)) casts).
  set (mean := sum_of (fun rate => rate) rates / len rates).
  generalize (Math_sqrt_nonneg
                (sum_of (fun rate => (rate - mean) * (rate - mean)) rates
                 / len rates)).
  generalize (Math_sqrt
                (sum_of (fun rate => (rate - mean) * (rate - mean)) rates
                 / len rates)).
  intros s Hs. unfold Math_max.
  assert (Hm : 1 <= Qmax mean 1) by apply Q.le_max_r.
  generalize dependent (Qmax mean 1). intros m Hm.
  split; [apply Q.le_max_l |].
  apply Q.max_lub; [lra |].
  assert (H : 0 <= s / m) by (apply Qle_shift_div_l; lra).
  lra.
Qed.

(** X2.  Two or more casts that all have the same number of
    interactions score a consistency of 100; fewer than two casts
    score 0. *)
Theorem X2_uniform_interactions_are_consistent
  (casts : list NeynarCast) (v : Z) :
  Forall (fun cast => interactions cast = v) casts ->
  ((2 <= List.length casts)%nat -> calculateConsistencyScore casts == 100) /\
  ((List.length casts < 2)%nat -> calculateConsistencyScore casts == 0).
Proof.
  intros Hall. unfold calculateConsistencyScore. split; intros Hlen.
  2:{ apply Nat.ltb_lt in Hlen. rewrite Hlen. reflexivity. }
  assert (E : (List.length casts <? 2)%nat = false) by (apply Nat.ltb_ge; lia).
  rewrite E. cbv zeta.
  set (rates := map (fun cast => inject_Z (interactions cast)) casts).
  assert (Hrates : Forall (fun rate => rate == inject_Z v) rates).
  { subst rates. apply Forall_map. revert Hall. apply Forall_impl.
    intros cast ->. reflexivity. }
  assert (Hne : rates <> []).
  { subst rates. destruct casts; [simpl in Hlen; lia | discriminate]. }
  pose proof (len_pos rates Hne) as Hpos.
  assert (Hmean : sum_of (fun rate => rate) rates / len rates == inject_Z v).
  { rewrite (sum_of_constant (fun rate => rate) (inject_Z v) rates Hrates).
    field. lra. }
  generalize dependent (sum_of (fun rate => rate) rates / len rates).
  intros mean Hmean.
  assert (Hvar : sum_of (fun rate => (rate - mean) * (rate - mean)) rates
                 / len rates == 0).
  { rewrite sum_of_zero.
    - field. lra.
    - revert Hrates. apply Forall_impl. intros rate ->. rewrite Hmean. ring. }
  pose proof (Math_sqrt_zero _ Hvar) as Hsqrt.
  generalize dependent
    (Math_sqrt (sum_of (fun rate => (rate - mean) * (rate - mean)) rates
                / len rates)).
  intros s Hs. unfold Math_max.
  assert (Hm : 1 <= Qmax mean 1) by apply Q.le_max_r.
  generalize dependent (Qmax mean 1). intros m Hm.
  assert (E' : 100 - s / m * 50 == 100) by (rewrite Hs; field; lra).
  rewrite E'. apply Q.max_r. lra.
Qed.

Lemma X2_witness :
  ((2 <= List.length two_casts)%nat -> calculateConsistencyScore two_casts == 100) /\
  ((List.length two_casts < 2)%nat -> calculateConsistencyScore two_casts == 0).
Proof.
  apply (X2_uniform_interactions_are_consistent two_casts 6).
  repeat constructor.
Defined.

Lemma len_nonneg_string (s : string) : 0 <= slen s.
Proof.
  unfold slen. change 0 with (inject_Z 0). rewrite <- Zle_Qle. lia.
Qed.

(** X3.  For a non-empty list of casts every ratio of
    [analyzeContentQuality] lies between 0 and 1, the long and the
    short posts together are at most all posts, and the average length
    is not negative. *)
Theorem X3_content_quality_ratios (casts : list NeynarCast) :
  casts <> [] ->
  let q := analyzeContentQuality casts in
  0 <= avgLength q /\
  (0 <= longPostRatio q /\ longPostRatio q <= 1) /\
  (0 <= shortPostRatio q /\ shortPostRatio q <= 1) /\
  longPostRatio q + shortPostRatio q <= 1 /\
  (0 <= hasLinks q /\ hasLinks q <= 1) /\
  (0 <= hasMentions q /\ hasMentions q <= 1) /\
  (0 <= hasHashtags q /\ hasHashtags q <= 1) /\
  (0 <= hasQuestions q /\ hasQuestions q <= 1) /\
  (0 <= hasExclamations q /\ hasExclamations q <= 1).
Proof.
  intros Hne q. subst q. unfold analyzeContentQuality. cbv zeta.
  cbn [avgLength longPostRatio shortPostRatio hasLinks hasMentions hasHashtags
       hasQuestions hasExclamations].
  pose proof (len_pos casts Hne) as Hpos.
  assert (Hratio : forall p : NeynarCast -> bool,
             0 <= count p casts / len casts /\ count p casts / len casts <= 1).
  { intros p. apply ratio_bounds;
      [apply count_nonneg | apply count_le_len | assumption]. }
  repeat split; try apply Hratio.
  - apply Qle_shift_div_l; [assumption |].
    rewrite Qmult_0_l. apply sum_of_nonneg.
    apply Forall_forall. intros cast _. apply len_nonneg_string.
  - apply ratio_sum_le_1; [| assumption].
    apply count_disjoint. intros cast H.
    apply Nat.ltb_lt in H. apply Nat.ltb_ge. lia.
Qed.

Lemma X3_witness :
  let q := analyzeContentQuality two_casts in
  0 <= avgLength q /\
  (0 <= longPostRatio q /\ longPostRatio q <= 1) /\
  (0 <= shortPostRatio q /\ shortPostRatio q <= 1) /\
  longPostRatio q + shortPostRatio q <= 1 /\
  (0 <= hasLinks q /\ hasLinks q <= 1) /\
  (0 <= hasMentions q /\ hasMentions q <= 1) /\
  (0 <= hasHashtags q /\ hasHashtags q <= 1) /\
  (0 <= hasQuestions q /\ hasQuestions q <= 1) /\
  (0 <= hasExclamations q /\ hasExclamations q <= 1).
Proof.
  apply (X3_content_quality_ratios two_casts). discriminate.
Defined.

Lemma interactions_nonneg (casts : list NeynarCast) :
  counts_nonneg casts ->
  Forall (fun cast => 0 <= inject_Z (interactions cast)) casts.
Proof.
  apply Forall_impl. intros cast (Hl & Hr & Hp).
  change 0 with (inject_Z 0). rewrite <- Zle_Qle. unfold interactions. lia.
Qed.

(** X4.  For a non-empty list of casts without negative counts, the
    viral posts are among the high-engagement posts, so the viral
    ratio is at most the high-engagement ratio; both lie between 0
    and 1, and the total engagement and the engagement per post are not
    negative. *)
Theorem X4_engagement_ratios (casts : list NeynarCast) :
  casts <> [] ->
  counts_nonneg casts ->
  let m := calculateEngagementMetrics casts in
  0 <= viralPostRatio m /\
  viralPostRatio m <= highEngagementRatio m /\
  highEngagementRatio m <= 1 /\
  0 <= engagementPerPost m /\
  0 <= totalEngagement m.
Proof.
  intros Hne Hcounts m. subst m. unfold calculateEngagementMetrics. cbv zeta.
  cbn [viralPostRatio highEngagementRatio engagementPerPost totalEngagement].
  pose proof (len_pos casts Hne) as Hpos.
  split; [| split; [| split; [| split]]].
  - apply ratio_bounds; [apply count_nonneg | apply count_le_len | assumption].
  - apply ratio_le; [| assumption].
    apply count_mono. revert Hcounts. apply Forall_impl.
    intros cast (_ & _ & Hp) H.
    apply Z.ltb_lt in H. apply Z.ltb_lt. unfold interactions. lia.
  - apply ratio_bounds; [apply count_nonneg | apply count_le_len | assumption].
  - apply Qle_shift_div_l; [assumption |].
    rewrite Qmult_0_l. apply sum_of_nonneg, interactions_nonneg, Hcounts.
  - apply sum_of_nonneg, interactions_nonneg, Hcounts.
Qed.

Lemma X4_witness :
  let m := calculateEngagementMetrics two_casts in
  0 <= viralPostRatio m /\
  viralPostRatio m <= highEngagementRatio m /\
  highEngagementRatio m <= 1 /\
  0 <= engagementPerPost m /\
  0 <= totalEngagement m.
Proof.
  apply (X4_engagement_ratios two_casts).
  - discriminate.
  - repeat constructor; discriminate.
Defined.

Lemma nodup_length_le {A : Type} (dec : forall x y : A, {x = y} + {x <> y})
  (l : list A) : (List.length (nodup dec l) <= List.length l)%nat.
Proof.
  induction l as [| a l IH]; simpl; [lia |].
  destruct (in_dec dec a l); simpl; lia.
Qed.

Lemma guarded_ratio_bounds (a b : Q) :
  0 <= a -> a <= b -> 0 <= a / Qmax b 1 /\ a / Qmax b 1 <= 1.
Proof.
  intros Ha Hab.
  assert (H1 : 1 <= Qmax b 1) by apply Q.le_max_r.
  assert (H2 : b <= Qmax b 1) by apply Q.le_max_l.
  apply ratio_bounds; lra.
Qed.

(** X5.  For every list of casts, the empty one included, the
    vocabulary ratio and the capitalisation ratio lie between 0 and
    1, there are no more unique words than words, and the averages
    are not negative. *)
Theorem X5_writing_style_bounds (casts : list NeynarCast) :
  let w := analyzeWritingStyle casts in
  (0 <= vocabularyRatio w /\ vocabularyRatio w <= 1) /\
  (0 <= properCapitalization w /\ properCapitalization w <= 1) /\
  uniqueWordsCount w <= totalWords w /\
  0 <= avgWordsPerSentence w /\
  0 <= avgWordLength w.
Proof.
  intros w. subst w. unfold analyzeWritingStyle. cbv zeta.
  cbn [vocabularyRatio properCapitalization uniqueWordsCount totalWords
       avgWordsPerSentence avgWordLength].
  unfold Math_max.
  set (allText := join " " (map text casts)).
  set (words := filter nonempty (split_runs is_space allText)).
  set (sentences := filter _ (split_runs is_sentence_end allText)).
  assert (Hunique :
            len (nodup string_dec
                   (map (fun word => string_filter is_word (toLowerCase word)) words))
            <= len words).
  { unfold len. rewrite <- Zle_Qle. apply Nat2Z.inj_le.
    etransitivity; [apply nodup_length_le |]. rewrite length_map. lia. }
  split; [| split; [| split; [| split]]].
  - apply guarded_ratio_bounds; [apply len_nonneg | assumption].
  - apply guarded_ratio_bounds; [apply count_nonneg | apply count_le_len].
  - assumption.
  - assert (H1 : 1 <= Qmax (len sentences) 1) by apply Q.le_max_r.
    apply Qle_shift_div_l; [lra |]. rewrite Qmult_0_l. apply len_nonneg.
  - assert (H1 : 1 <= Qmax (len words) 1) by apply Q.le_max_r.
    apply Qle_shift_div_l; [lra |]. rewrite Qmult_0_l.
    apply sum_of_nonneg. apply Forall_forall. intros word _.
    apply len_nonneg_string.
Qed.

(** X6.  At most 8 topics are active, and the diversity score is 12.5
    times their number: the cap at 100 never cuts. *)
Theorem X6_diversity_score_is_eighths (casts : list NeynarCast) :
  let d := analyzeTopicDiversity casts in
  (activeTopics d <= 8)%nat /\
  diversityScore d == inject_Z (Z.of_nat (activeTopics d)) * (25 # 2) /\
  0 <= diversityScore d /\ diversityScore d <= 100.
Proof.
  intros d. subst d. unfold analyzeTopicDiversity. cbv zeta.
  cbn [activeTopics diversityScore].
  set (counts := map _ topics).
  assert (Hlen : (List.length (filter (fun entry : string * nat =>
                                         (0 <? snd entry)%nat) counts) <= 8)%nat).
  { etransitivity; [apply filter_length_le |].
    subst counts. rewrite length_map. apply Nat.le_refl. }
  generalize dependent
    (List.length (filter (fun entry : string * nat => (0 <? snd entry)%nat)
                         counts)).
  intros a Ha.
  assert (Hlen8 : len topics == 8) by reflexivity.
  assert (Hq : 0 <= inject_Z (Z.of_nat a) /\ inject_Z (Z.of_nat a) <= 8).
  { change 0 with (inject_Z 0). change 8 with (inject_Z 8).
    rewrite <- !Zle_Qle. lia. }
  generalize dependent (inject_Z (Z.of_nat a)). intros x Hx.
  unfold Math_min.
  assert (E : x / len topics * 100 == x * (25 # 2)).
  { rewrite Hlen8. field. }
  assert (Hmin : Qmin 100 (x / len topics * 100) == x * (25 # 2)).
  { rewrite E. apply Q.min_r. lra. }
  split; [assumption |]. split; [assumption |].
  rewrite Hmin. split; lra.
Qed.

(* ------------------------------------------------------------------ *)
(** ** Matching the topic words *)

Section Shadowing.

Lemma starts_with_trans (a b s : string) :
  starts_with a b = true -> starts_with b s = true -> starts_with a s = true.
Proof.
  revert b s.
  induction a as [| c a IH]; intros b s Hab Hbs; [reflexivity |].
  destruct b as [| d b]; [discriminate |].
  destruct s as [| e s]; [discriminate |].
  simpl in *.
  apply andb_true_iff in Hab. destruct Hab as [Hcd Hab].
  apply andb_true_iff in Hbs. destruct Hbs as [Hde Hbs].
  apply Ascii.eqb_eq in Hcd. apply Ascii.eqb_eq in Hde. subst.
  rewrite Ascii.eqb_refl. simpl. eauto.
Qed.

(** A word listed after one of its own prefixes is never the first
    alternative that fits. *)
Lemma find_shadowed (a b s : string) (l1 l2 l3 : list string) :
  starts_with a b = true ->
  find (fun w => starts_with w s) (l1 ++ a :: l2 ++ b :: l3)%list
  = find (fun w => starts_with w s) (l1 ++ a :: l2 ++ l3)%list.
Proof.
  intros Hab.
  induction l1 as [| w l1 IH]; simpl.
  - destruct (starts_with a s) eqn:Eas; [reflexivity |].
    induction l2 as [| w l2 IH2]; simpl.
    + destruct (starts_with b s) eqn:Ebs; [| reflexivity].
      rewrite (starts_with_trans a b s Hab Ebs) in Eas. discriminate.
    + destruct (starts_with w s); [reflexivity | assumption].
  - destruct (starts_with w s); [reflexivity | assumption].
Qed.

Lemma count_matches_shadowed (a b : string) (l1 l2 l3 : list string)
  (s : string) (skip : nat) :
  starts_with a b = true ->
  count_matches (l1 ++ a :: l2 ++ b :: l3)%list s skip
  = count_matches (l1 ++ a :: l2 ++ l3)%list s skip.
Proof.
  intros Hab. revert skip.
  induction s as [| c s IH]; intros skip; [reflexivity |].
  simpl. destruct skip as [| k]; [| apply IH].
  rewrite (find_shadowed a b (String c s) l1 l2 l3 Hab).
  destruct (find _ _); rewrite IH; reflexivity.
Qed.

End Shadowing.

(** X7.  In the tech pattern the word "technology" stands after its
    prefix "tech" and therefore never takes part in a match: on every
    text the pattern counts what it counts without that word. *)
Theorem X7_technology_is_shadowed_by_tech (s : string) (skip : nat) :
  In "technology" (words_of "tech") /\
  count_matches (words_of "tech") s skip
  = count_matches (remove string_dec "technology" (words_of "tech")) s skip.
Proof.
  split; [vm_compute; tauto |].
  change (words_of "tech")
    with (["ai"; "artificial intelligence"; "machine learning"; "blockchain";
           "crypto"; "web3"; "programming"; "code"; "software"]
          ++ "tech" :: [] ++ "technology" :: ["startup"; "entrepreneur"])%list.
  rewrite count_matches_shadowed by reflexivity.
  reflexivity.
Qed.

(* ------------------------------------------------------------------ *)
(** ** Properties of the local scoring and of the final fallback *)

Lemma content_quality_facts (casts : list NeynarCast) :
  casts <> [] ->
  0 <= avgLength (analyzeContentQuality casts) /\
  0 <= longPostRatio (analyzeContentQuality casts) /\
  0 <= hasQuestions (analyzeContentQuality casts) /\
  0 <= hasLinks (analyzeContentQuality casts) /\
  0 <= hasMentions (analyzeContentQuality casts).
Proof.
  intros Hne. unfold analyzeContentQuality. cbv zeta.
  cbn [avgLength longPostRatio hasLinks hasMentions hasQuestions].
  pose proof (len_pos casts Hne) as Hpos.
  assert (Hratio : forall p : NeynarCast -> bool, 0 <= count p casts / len casts).
  { intros p. apply ratio_bounds;
      [apply count_nonneg | apply count_le_len | assumption]. }
  repeat split; try apply Hratio.
  apply Qle_shift_div_l; [assumption |].
  rewrite Qmult_0_l. apply sum_of_nonneg.
  apply Forall_forall. intros cast _. apply len_nonneg_string.
Qed.

Lemma writing_style_facts (casts : list NeynarCast) :
  0 <= vocabularyRatio (analyzeWritingStyle casts) /\
  0 <= properCapitalization (analyzeWritingStyle casts) /\
  0 <= avgWordsPerSentence (analyzeWritingStyle casts) /\
  0 <= avgWordLength (analyzeWritingStyle casts).
Proof.
  unfold analyzeWritingStyle. cbv zeta.
  cbn [vocabularyRatio properCapitalization avgWordsPerSentence avgWordLength].
  unfold Math_max.
  set (allText := join " " (map text casts)).
  set (words := filter nonempty (split_runs is_space allText)).
  set (sentences := filter _ (split_runs is_sentence_end allText)).
  assert (Hs : 1 <= Qmax (len sentences) 1) by apply Q.le_max_r.
  assert (Hw : 1 <= Qmax (len words) 1) by apply Q.le_max_r.
  repeat split; (apply Qle_shift_div_l; [lra |]); rewrite Qmult_0_l.
  - apply len_nonneg.
  - apply count_nonneg.
  - apply len_nonneg.
  - apply sum_of_nonneg. apply Forall_forall. intros word _.
    apply len_nonneg_string.
Qed.

Lemma consistency_nonneg (casts : list NeynarCast) :
  0 <= calculateConsistencyScore casts.
Proof.
  unfold calculateConsistencyScore.
  destruct (List.length casts <? 2)%nat; [lra |].
  cbv zeta. unfold Math_max. apply Q.le_max_l.
Qed.

Lemma engagement_facts (casts : list NeynarCast) :
  casts <> [] -> counts_nonneg casts ->
  0 <= viralPostRatio (calculateEngagementMetrics casts) /\
  0 <= engagementPerPost (calculateEngagementMetrics casts) /\
  0 <= consistencyScore (calculateEngagementMetrics casts).
Proof.
  intros Hne Hcounts. unfold calculateEngagementMetrics. cbv zeta.
  cbn [viralPostRatio engagementPerPost consistencyScore].
  pose proof (len_pos casts Hne) as Hpos.
  split; [| split].
  - apply ratio_bounds; [apply count_nonneg | apply count_le_len | assumption].
  - apply Qle_shift_div_l; [assumption |].
    rewrite Qmult_0_l. apply sum_of_nonneg, interactions_nonneg, Hcounts.
  - apply consistency_nonneg.
Qed.

Lemma diversity_facts (casts : list NeynarCast) :
  0 <= diversityScore (analyzeTopicDiversity casts) /\
  diversityScore (analyzeTopicDiversity casts) <= 100.
Proof.
  unfold analyzeTopicDiversity. cbv zeta. cbn [diversityScore].
  unfold Math_min. split; [| apply Q.le_min_l].
  apply Q.min_glb; [lra |].
  assert (Hlen8 : len topics == 8) by reflexivity.
  rewrite Hlen8.
  set (a := inject_Z _).
  assert (Ha : 0 <= a).
  { subst a. change 0 with (inject_Z 0). rewrite <- Zle_Qle. lia. }
  assert (E : a / 8 * 100 == a * (25 # 2)) by field.
  rewrite E. lra.
Qed.

Lemma capped_score_bounds (x : Q) : 0 <= x -> 0 <= Qmin 100 x /\ Qmin 100 x <= 100.
Proof.
  intros H. split; [apply Q.min_glb; lra | apply Q.le_min_l].
Qed.

Lemma contentQualityScore_bounds (casts : list NeynarCast) :
  casts <> [] ->
  0 <= contentQualityScore (analyzeContentQuality casts) /\
  contentQualityScore (analyzeContentQuality casts) <= 100.
Proof.
  intros Hne.
  destruct (content_quality_facts casts Hne)
    as (Havg & Hlong & Hquestions & Hlinks & Hmentions).
  unfold contentQualityScore, Math_min.
  apply capped_score_bounds.
  generalize dependent (analyzeContentQuality casts). intros q. intros. lra.
Qed.

Lemma writingStyleScore_bounds (casts : list NeynarCast) :
  0 <= writingStyleScore (analyzeWritingStyle casts) /\
  writingStyleScore (analyzeWritingStyle casts) <= 100.
Proof.
  destruct (writing_style_facts casts) as (Hv & Hc & Hs & Hw).
  unfold writingStyleScore, Math_min.
  apply capped_score_bounds.
  generalize dependent (analyzeWritingStyle casts). intros w. intros. lra.
Qed.

Lemma engagementScore_bounds (casts : list NeynarCast) :
  casts <> [] -> counts_nonneg casts ->
  0 <= engagementScore (calculateEngagementMetrics casts) /\
  engagementScore (calculateEngagementMetrics casts) <= 100.
Proof.
  intros Hne Hcounts.
  destruct (engagement_facts casts Hne Hcounts) as (Hviral & Hper & Hcons).
  unfold engagementScore, Math_min.
  apply capped_score_bounds.
  generalize dependent (calculateEngagementMetrics casts). intros m. intros. lra.
Qed.

Lemma topicDiversityScore_bounds (casts : list NeynarCast) :
  0 <= topicDiversityScore (analyzeTopicDiversity casts) /\
  topicDiversityScore (analyzeTopicDiversity casts) <= 100.
Proof.
  unfold topicDiversityScore. apply diversity_facts.
Qed.

Lemma comprehensiveScore_bounds (casts : list NeynarCast) :
  casts <> [] -> counts_nonneg casts ->
  0 <= comprehensiveScore casts /\ comprehensiveScore casts <= 100.
Proof.
  intros Hne Hcounts.
  pose proof (contentQualityScore_bounds casts Hne).
  pose proof (writingStyleScore_bounds casts).
  pose proof (engagementScore_bounds casts Hne Hcounts).
  pose proof (topicDiversityScore_bounds casts).
  unfold comprehensiveScore.
  generalize dependent (contentQualityScore (analyzeContentQuality casts)).
  generalize dependent (writingStyleScore (analyzeWritingStyle casts)).
  generalize dependent (engagementScore (calculateEngagementMetrics casts)).
  generalize dependent (topicDiversityScore (analyzeTopicDiversity casts)).
  intros. split; lra.
Qed.

(** X8.  For a non-empty list of casts without negative counts each
    of the four scores and their weighted combination lie between 0
    and 100: the code's cap at 100 alone gives the spec's
    clamp(0, 100, ...). *)
Theorem X8_scores_between_0_and_100 (casts : list NeynarCast) :
  casts <> [] -> counts_nonneg casts ->
  (0 <= contentQualityScore (analyzeContentQuality casts) /\
   contentQualityScore (analyzeContentQuality casts) <= 100) /\
  (0 <= writingStyleScore (analyzeWritingStyle casts) /\
   writingStyleScore (analyzeWritingStyle casts) <= 100) /\
  (0 <= engagementScore (calculateEngagementMetrics casts) /\
   engagementScore (calculateEngagementMetrics casts) <= 100) /\
  (0 <= topicDiversityScore (analyzeTopicDiversity casts) /\
   topicDiversityScore (analyzeTopicDiversity casts) <= 100) /\
  (0 <= comprehensiveScore casts /\ comprehensiveScore casts <= 100).
Proof.
  intros Hne Hcounts.
  split; [apply contentQualityScore_bounds; assumption |].
  split; [apply writingStyleScore_bounds |].
  split; [apply engagementScore_bounds; assumption |].
  split; [apply topicDiversityScore_bounds |].
  apply comprehensiveScore_bounds; assumption.
Qed.

Lemma X8_witness :
  (0 <= contentQualityScore (analyzeContentQuality two_casts) /\
   contentQualityScore (analyzeContentQuality two_casts) <= 100) /\
  (0 <= writingStyleScore (analyzeWritingStyle two_casts) /\
   writingStyleScore (analyzeWritingStyle two_casts) <= 100) /\
  (0 <= engagementScore (calculateEngagementMetrics two_casts) /\
   engagementScore (calculateEngagementMetrics two_casts) <= 100) /\
  (0 <= topicDiversityScore (analyzeTopicDiversity two_casts) /\
   topicDiversityScore (analyzeTopicDiversity two_casts) <= 100) /\
  (0 <= comprehensiveScore two_casts /\ comprehensiveScore two_casts <= 100).
Proof.
  apply (X8_scores_between_0_and_100 two_casts).
  - discriminate.
  - repeat constructor; discriminate.
Defined.

Lemma Math_round_ge (z : Z) (x : Q) :
  inject_Z z - (1 # 2) <= x -> inject_Z z <= Math_round x.
Proof.
  intros H. unfold Math_round. rewrite <- Zle_Qle.
  rewrite <- (Qfloor_Z z). apply Qfloor_resp_le. lra.
Qed.

Lemma Math_round_le_Z (z : Z) (x : Q) :
  x <= inject_Z z -> Math_round x <= inject_Z z.
Proof.
  intros H. rewrite <- (Math_round_inject_Z z). apply Math_round_le. assumption.
Qed.

(** X9.  For a non-empty list of casts without negative counts and a
    draw in [0, 1), the local score is at least 63 and at most 145 and
    the local confidence is at least 52 and at most 85: the lower
    clamps at 55 and at 30 are never reached. *)
Theorem X9_local_scoring_lower_bounds
  (env : Env) (userData : UserData) (r : IQResult) :
  ud_casts userData <> [] ->
  counts_nonneg (ud_casts userData) ->
  is_random (random_scoring env) ->
  result (localScoring env userData) = Ok r ->
  in_range 63 145 (score r) /\ in_range 52 85 (confidence r).
Proof.
  intros Hne Hcounts [Hr0 Hr1].
  unfold localScoring.
  destruct (scoring_fault env); [discriminate |].
  intros H. injection H as <-.
  cbn [score confidence in_range].
  destruct (comprehensiveScore_bounds _ Hne Hcounts) as [Hc0 Hc1].
  pose proof (len_ge_1 _ Hne) as Hlen.
  unfold finalScore, baseScore, randomFactor, Math_max, Math_min.
  generalize dependent (comprehensiveScore (ud_casts userData)).
  generalize dependent (len (ud_casts userData)).
  generalize dependent (random_scoring env).
  intros random Hr0 Hr1 n Hn c Hc0 Hc1.
  split.
  - assert (H63 : 63 <= Math_round (70 + c * (3 # 5) + n * (1 # 5)
                                    + (random - (1 # 2)) * 15)).
    { apply (Math_round_ge 63). unfold inject_Z. lra. }
    split.
    + eapply Qle_trans; [| apply Q.le_max_r]. apply Q.min_glb; lra.
    + apply Qclamp_bounds. lra.
  - destruct (rounded_Qclamp_bounds 30 85 (50 + n * 2 + c * (3 # 10)))
      as [_ Hhi]; [lia |].
    split; [| assumption].
    apply (Math_round_ge 52).
    eapply Qle_trans; [| apply Q.le_max_r].
    apply Q.min_glb; unfold inject_Z; lra.
Qed.

Lemma X9_witness :
  in_range 63 145 (score scored_locally) /\
  in_range 52 85 (confidence scored_locally).
Proof.
  apply (X9_local_scoring_lower_bounds providers_down
           (user_of two_casts (Some [])) scored_locally).
  - discriminate.
  - repeat constructor; discriminate.
  - split; vm_compute; [discriminate | reflexivity].
  - vm_compute. reflexivity.
Defined.

(** X10.  With 18 casts or more, none with negative counts, the local
    confidence is 85, whatever the casts say. *)
Theorem X10_confidence_saturates_at_18_casts
  (env : Env) (userData : UserData) (r : IQResult) :
  (18 <= List.length (ud_casts userData))%nat ->
  counts_nonneg (ud_casts userData) ->
  result (localScoring env userData) = Ok r ->
  confidence r = Num 85.
Proof.
  intros Hlen Hcounts.
  assert (Hne : ud_casts userData <> [])
    by (destruct (ud_casts userData); [simpl in Hlen; lia | discriminate]).
  unfold localScoring.
  destruct (scoring_fault env); [discriminate |].
  intros H. injection H as <-.
  cbn [confidence]. f_equal.
  destruct (comprehensiveScore_bounds _ Hne Hcounts) as [Hc0 _].
  assert (Hn : 18 <= len (ud_casts userData)).
  { unfold len. change 18 with (inject_Z 18). rewrite <- Zle_Qle. lia. }
  unfold Math_max, Math_min.
  generalize dependent (comprehensiveScore (ud_casts userData)).
  generalize dependent (len (ud_casts userData)).
  intros n Hn c Hc0.
  destruct (Qmin_cases 85 (50 + n * 2 + c * (3 # 10))) as [[_ ->] | [Hlt _]];
    [| lra].
  change (Qmax 30 85) with (inject_Z 85).
  apply Math_round_inject_Z.
Qed.

Lemma X10_witness : confidence scored_eighteen = Num 85.
Proof.
  apply (X10_confidence_saturates_at_18_casts providers_down
           (user_of eighteen_casts None) scored_eighteen).
  - simpl. lia.
  - repeat constructor; discriminate.
  - vm_compute. reflexivity.
Defined.

(** X11.  For a non-empty list of casts and a draw in [0, 1), the
    final fallback's score lies between 65 and 105 and its confidence
    between 42 and 60. *)
Theorem X11_final_fallback_bounds
  (env : Env) (userData : UserData) (r : IQResult) :
  ud_casts userData <> [] ->
  is_random (random_fallback env) ->
  result (finalFallback env userData) = Ok r ->
  in_range 65 105 (score r) /\ in_range 42 60 (confidence r).
Proof.
  intros Hne [Hr0 Hr1].
  unfold finalFallback. intros H. injection H as <-.
  cbn [score confidence in_range].
  pose proof (len_ge_1 _ Hne) as Hlen.
  unfold fallbackScore, fallbackConfidence, Math_max, Math_min.
  generalize dependent (len (ud_casts userData)).
  generalize dependent (random_fallback env).
  intros random Hr0 Hr1 n Hn.
  split; split.
  - apply (Math_round_ge 65).
    eapply Qle_trans; [| apply Q.le_max_r].
    apply Q.min_glb; unfold inject_Z; lra.
  - apply (Math_round_le_Z 105).
    apply Q.max_lub; [unfold inject_Z; lra |].
    eapply Qle_trans; [apply Q.le_min_r |]. unfold inject_Z. lra.
  - apply (Math_round_ge 42).
    eapply Qle_trans; [| apply Q.le_max_r].
    apply Q.min_glb; unfold inject_Z; lra.
  - apply (rounded_Qclamp_bounds 25 60). lia.
Qed.

Lemma X11_witness :
  in_range 65 105 (score fallen_back) /\ in_range 42 60 (confidence fallen_back).
Proof.
  apply (X11_final_fallback_bounds scoring_broken (user_of two_casts None)
           fallen_back).
  - discriminate.
  - split; vm_compute; [discriminate | reflexivity].
  - vm_compute. reflexivity.
Defined.

(* ------------------------------------------------------------------ *)
(** ** Which calls [analyzeWithAI] makes *)

Lemma provider_trace (env : Env) (apiKey : option string) (endpoint : call)
  (answer : outcome (Response jsval)) :
  trace (provider env apiKey endpoint answer)
  = if configured apiKey then [endpoint] else [].
Proof.
  unfold provider.
  destruct (configured apiKey); [| reflexivity].
  run.
  destruct answer as [response |]; simpl; [| reflexivity].
  destruct (ok response); simpl; [| reflexivity].
  destruct (json response) as [content |]; simpl; [| reflexivity].
  destruct (truthy content); simpl; [| reflexivity].
  destruct content; simpl; try reflexivity.
  destruct (match_braces s); simpl; [| reflexivity].
  destruct (JSON_parse env s0); reflexivity.
Qed.

Lemma externalLookup_trace (env : Env) (userData : UserData) :
  trace (externalLookup env userData)
  = match xAccount userData with
    | Some account =>
        if nonempty (username account) then [CallIqChecker (username account)]
        else []
    | None => []
    end.
Proof.
  unfold externalLookup.
  destruct (xAccount userData) as [account |]; [| reflexivity].
  destruct (nonempty (username account)); [| reflexivity].
  run.
  destruct (iq_checker env (username account)) as [response |]; simpl;
    [| reflexivity].
  destruct (ok response); simpl; [| reflexivity].
  destruct (json response) as [iqScore |]; simpl; [| reflexivity].
  destruct (truthy iqScore); reflexivity.
Qed.

(** The calls of [analyzeWithAI]: the lookup's, then OpenAI's if the
    lookup handed over, then Gemini's if OpenAI handed over too. *)
Lemma analyzeWithAI_trace (env : Env) (userData : UserData) :
  trace (analyzeWithAI env userData)
  = (trace (externalLookup env userData)
     ++ match result (externalLookup env userData) with
        | Ok None =>
            trace (provider env (OPENAI_API_KEY env) CallOpenAI (openai env))
            ++ match result (provider env (OPENAI_API_KEY env) CallOpenAI
                               (openai env)) with
               | Ok None =>
                   trace (provider env (GEMINI_API_KEY env) CallGemini
                            (gemini env))
               | _ => []
               end
        | _ => []
        end)%list.
Proof.
  unfold analyzeWithAI.
  destruct (externalLookup_total env userData) as (t0 & o0 & -> & _).
  destruct (provider_cases env (OPENAI_API_KEY env) CallOpenAI (openai env))
    as (t1 & o1 & -> & _ & _).
  destruct (provider_cases env (GEMINI_API_KEY env) CallGemini (gemini env))
    as (t2 & o2 & -> & _ & _).
  unfold trace, result. simpl.
  destruct o0 as [found |]; run; [reflexivity |].
  destruct o1 as [found |]; simpl; [rewrite app_nil_r; reflexivity |].
  destruct o2 as [found |]; simpl; [rewrite app_nil_r; reflexivity |].
  unfold localScoring, finalFallback.
  destruct (scoring_fault env); run; rewrite ?app_nil_r; reflexivity.
Qed.

(** X12.  Without a verified account on the platform "x", or with one
    whose username is empty, the external lookup is not attempted:
    [analyzeWithAI] never calls iq-checker. *)
Theorem X12_no_x_account_no_lookup (env : Env) (userData : UserData) :
  (xAccount userData = None \/
   exists account, xAccount userData = Some account /\ username account = "") ->
  externalLookup env userData = ([], Ok None) /\
  forall handle, ~ In (CallIqChecker handle) (trace (analyzeWithAI env userData)).
Proof.
  intros Hx.
  assert (E : externalLookup env userData = ([], Ok None)).
  { unfold externalLookup.
    destruct Hx as [-> | (account & -> & ->)]; reflexivity. }
  split; [exact E |].
  intros handle. rewrite analyzeWithAI_trace, !provider_trace, E.
  unfold trace, result. simpl.
  destruct (configured (OPENAI_API_KEY env));
    destruct (snd (provider env (OPENAI_API_KEY env) CallOpenAI (openai env)))
      as [[found |] |];
    destruct (configured (GEMINI_API_KEY env)); simpl;
    intuition discriminate.
Qed.

Lemma X12_witness :
  externalLookup providers_down (user_of two_casts (Some [])) = ([], Ok None) /\
  forall handle,
    ~ In (CallIqChecker handle)
         (trace (analyzeWithAI providers_down (user_of two_casts (Some [])))).
Proof.
  apply (X12_no_x_account_no_lookup providers_down (user_of two_casts (Some []))).
  left. reflexivity.
Defined.

(** X13.  [analyzeWithAI] asks each of iq-checker, OpenAI and Gemini
    at most once and in this order; OpenAI is asked only with its key
    set and after the lookup handed over, Gemini only with its key set
    and after OpenAI handed over too. *)
Theorem X13_tiers_are_asked_in_order (env : Env) (userData : UserData) :
  exists t0 t1 t2,
    trace (analyzeWithAI env userData) = (t0 ++ t1 ++ t2)%list /\
    (t0 = [] \/ exists account,
                  xAccount userData = Some account /\
                  t0 = [CallIqChecker (username account)]) /\
    (t1 = [] \/ (t1 = [CallOpenAI] /\
                 configured (OPENAI_API_KEY env) = true /\
                 falls_through (externalLookup env userData))) /\
    (t2 = [] \/ (t2 = [CallGemini] /\
                 configured (GEMINI_API_KEY env) = true /\
                 falls_through (externalLookup env userData) /\
                 falls_through
                   (provider env (OPENAI_API_KEY env) CallOpenAI (openai env)))).
Proof.
  rewrite analyzeWithAI_trace, !provider_trace, externalLookup_trace.
  unfold falls_through.
  exists (match xAccount userData with
          | Some account =>
              if nonempty (username account)
              then [CallIqChecker (username account)] else []
          | None => []
          end).
  destruct (result (externalLookup env userData)) as [[found |] |].
  - exists [], []. rewrite !app_nil_r. split; [reflexivity |].
    split; [| split; left; reflexivity].
    destruct (xAccount userData) as [account |]; [| left; reflexivity].
    destruct (nonempty (username account)); [right; eauto | left; reflexivity].
  - exists (if configured (OPENAI_API_KEY env) then [CallOpenAI] else []).
    destruct (result (provider env (OPENAI_API_KEY env) CallOpenAI (openai env)))
      as [[found |] |].
    + exists []. rewrite !app_nil_r. split; [reflexivity |].
      split; [| split; [| left; reflexivity]].
      * destruct (xAccount userData) as [account |]; [| left; reflexivity].
        destruct (nonempty (username account));
          [right; eauto | left; reflexivity].
      * destruct (configured (OPENAI_API_KEY env)); [right | left]; auto.
    + exists (if configured (GEMINI_API_KEY env) then [CallGemini] else []).
      split; [reflexivity |].
      split; [| split].
      * destruct (xAccount userData) as [account |]; [| left; reflexivity].
        destruct (nonempty (username account));
          [right; eauto | left; reflexivity].
      * destruct (configured (OPENAI_API_KEY env)); [right | left]; auto.
      * destruct (configured (GEMINI_API_KEY env)); [right | left]; auto.
    + exists []. rewrite !app_nil_r. split; [reflexivity |].
      split; [| split; [| left; reflexivity]].
      * destruct (xAccount userData) as [account |]; [| left; reflexivity].
        destruct (nonempty (username account));
          [right; eauto | left; reflexivity].
      * destruct (configured (OPENAI_API_KEY env)); [right | left]; auto.
  - exists [], []. rewrite !app_nil_r. split; [reflexivity |].
    split; [| split; left; reflexivity].
    destruct (xAccount userData) as [account |]; [| left; reflexivity].
    destruct (nonempty (username account)); [right; eauto | left; reflexivity].
Qed.

(** X14.  When iq-checker answers ok with a number for the first
    verified "x" account, the lookup returns that number clamped into
    55..145 with confidence 85, except that the number 0 counts as no
    score and hands over to the providers. *)
Theorem X14_external_score_is_clamped
  (env : Env) (userData : UserData) (account : Account)
  (response : Response jsval) (q : Q) :
  xAccount userData = Some account ->
  username account <> "" ->
  iq_checker env (username account) = Ok response ->
  ok response = true ->
  json response = Ok (JNumber q) ->
  (q == 0 -> result (externalLookup env userData) = Ok None) /\
  (~ q == 0 ->
   exists r,
     result (externalLookup env userData) = Ok (Some r) /\
     score r = Num (Qmax 55 (Qmin 145 q)) /\
     in_range 55 145 (score r) /\
     confidence r = Num 85).
Proof.
  intros Hx Hname Hiq Hok Hjson.
  unfold externalLookup. rewrite Hx.
  assert (E : nonempty (username account) = true)
    by (destruct (username account); [contradiction | reflexivity]).
  rewrite E. run. rewrite Hiq. simpl. rewrite Hok. simpl. rewrite Hjson. simpl.
  split; intros Hq.
  - apply Qeq_bool_iff in Hq. rewrite Hq. reflexivity.
  - destruct (Qeq_bool q 0) eqn:Eq;
      [apply Qeq_bool_iff in Eq; contradiction |].
    simpl. eexists. split; [reflexivity |].
    cbn [score confidence]. split; [reflexivity |]. split; [| reflexivity].
    apply Qclamp_bounds. lra.
Qed.

Lemma X14_witness :
  (160 == 0 -> result (externalLookup (iq_known (JNumber 160)) (x_user "alice"))
               = Ok None) /\
  (~ 160 == 0 ->
   exists r,
     result (externalLookup (iq_known (JNumber 160)) (x_user "alice"))
     = Ok (Some r) /\
     score r = Num (Qmax 55 (Qmin 145 160)) /\
     in_range 55 145 (score r) /\
     confidence r = Num 85).
Proof.
  apply (X14_external_score_is_clamped (iq_known (JNumber 160)) (x_user "alice")
           {| platform := "x"; username := "alice" |}
           {| ok := true; json := Ok (JNumber 160) |} 160).
  - reflexivity.
  - discriminate.
  - reflexivity.
  - reflexivity.
  - reflexivity.
Defined.

(* ------------------------------------------------------------------ *)
(** ** Further properties of [POST] *)

(** X15.  When a database helper throws before the casts are
    fetched -- [hasRecentIQScore], [getIQScoreFromDatabase] after a
    positive answer, or [getUserFromDatabaseByFid] when the request
    brings no accounts -- [POST] answers with the failure of status
    500 and has neither fetched casts nor asked for a score. *)
Theorem X15_store_read_failure_fails_the_request
  (env : Env) (data : RequestData) :
  hasRecentIQScore env (fid data) 30 = Throw \/
  (hasRecentIQScore env (fid data) 30 = Ok true /\
   getIQScoreFromDatabase env (fid data) = Throw) \/
  (cache_miss env (fid data) /\ req_verifiedAccounts data = None /\
   getUserFromDatabaseByFid env (fid data) = Throw) ->
  result (POST env (Ok (Some data))) = Ok failed /\
  forallb (fun c => negb (asks_outside c)) (trace (POST env (Ok (Some data))))
  = true.
Proof.
  unfold POST. rewrite bind_eval, bind_await.
  intros [H | [[H1 H2] | (Hmiss & Hreq & Huser)]].
  - rewrite H. split; reflexivity.
  - rewrite H1, bind_await, H2. split; reflexivity.
  - destruct Hmiss as [H1 | [H1 H2]].
    + rewrite H1, bind_ret, Hreq, bind_await, Huser. split; reflexivity.
    + rewrite H1, bind_await, H2, Hreq, bind_await, Huser. split; reflexivity.
Qed.

Lemma X15_witness :
  result (POST store_down (Ok (Some (request_data 7 None)))) = Ok failed /\
  forallb (fun c => negb (asks_outside c))
    (trace (POST store_down (Ok (Some (request_data 7 None)))))
  = true.
Proof.
  apply (X15_store_read_failure_fails_the_request store_down
           (request_data 7 None)).
  left. reflexivity.
Defined.

(** X16.  [POST] answers every request, whatever the world does: with
    the 400 of an invalid body, the failure of status 500, the 404 of
    no posts, a stored score marked "database" or a fresh score marked
    "api"; no exception leaves the handler. *)
Theorem X16_POST_always_answers (env : Env) (request : Request) :
  exists answer,
    result (POST env request) = Ok answer /\
    (answer = InvalidRequest \/ answer = failed \/ answer = no_posts \/
     (exists body stamp, answer = Success body "database" (Some stamp)) \/
     (exists body, answer = Success body "api" None)).
Proof.
  destruct (POST_runs env request) as (t & a & E & Hrun).
  exists a. rewrite E. split; [reflexivity |].
  destruct Hrun; eauto 8.
Qed.

(** X17.  [POST] writes to the store exactly when it answers with a
    fresh score, and what it writes is the score it answers with, under
    the account of the request. *)
Theorem X17_writes_what_it_answers
  (env : Env) (request : Request) (f : Z) (r : IQResult) :
  In (CallSaveIQScoreToDatabase f r) (trace (POST env request)) <->
  (result (POST env request) = Ok (Success r "api" None) /\
   exists data, request = Ok (Some data) /\ f = fid data).
Proof.
  destruct (POST_runs env request) as (t & a & E & Hrun).
  rewrite E. unfold trace, result. simpl.
  destruct Hrun
    as [t Hpre | Hinv | data' found Hreq' Hrec Hget
        | data' pre Hreq' Hmiss Hpre Hfetch
        | data' pre casts accounts t' r' Hreq' Hmiss Hpre Hfetch Hne Han Ht].
  - split.
    + intros Hin. apply (before_fetch_not_scoring _ _ Hpre) in Hin.
      contradiction.
    + intros [H _]. discriminate.
  - split; [contradiction | intros [H _]; discriminate].
  - split; [simpl; intuition discriminate | intros [H _]; discriminate].
  - split; [| intros [H _]; discriminate].
    intros Hin. apply in_app_or in Hin. destruct Hin as [Hin | Hin].
    + apply (before_fetch_not_scoring _ _ Hpre) in Hin. contradiction.
    + simpl in Hin. intuition discriminate.
  - split.
    + intros Hin. apply in_app_or in Hin. destruct Hin as [Hin | Hin].
      { apply (before_fetch_not_scoring _ _ Hpre) in Hin. contradiction. }
      simpl in Hin. destruct Hin as [Hin | Hin]; [discriminate |].
      apply in_app_or in Hin. destruct Hin as [Hin | Hin].
      { apply (scoring_call_in _ _ Ht) in Hin. contradiction. }
      simpl in Hin. destruct Hin as [Hin | []].
      injection Hin as <- <-. split; [reflexivity | eauto].
    + intros [H (data & Hreq & ->)]. injection H as <-.
      rewrite Hreq' in Hreq. injection Hreq as <-.
      apply in_or_app. right. simpl. right.
      apply in_or_app. right. left. reflexivity.
Qed.

Lemma scoring_is_no_lookup (t : list call) :
  Forall scoring_call t -> Forall (fun c => ~ user_lookup c) t.
Proof.
  apply Forall_impl. intros c Hc Hl. destruct c; simpl in *; contradiction.
Qed.

(** X18.  When the request brings its verified accounts (an empty
    list included), [POST] looks the user up neither in the database
    nor at Neynar. *)
Theorem X18_supplied_accounts_skip_the_lookup
  (env : Env) (data : RequestData) (accounts : list Account) :
  req_verifiedAccounts data = Some accounts ->
  Forall (fun c => ~ user_lookup c) (trace (POST env (Ok (Some data)))).
Proof.
  intros Hreq. unfold POST. rewrite bind_eval, bind_await.
  assert (Hrest :
    forall pre, Forall (fun c => ~ user_lookup c) pre ->
    exists t o,
      bind (ret (Some accounts)) (fun userVerifiedAccounts =>
        bind (fetchUserCasts env (fid data)) (fun casts =>
          if (List.length casts =? 0)%nat then ret no_posts
          else
            bind (analyzeWithAI env
                    {| ud_username := req_username data;
                       ud_displayName := req_displayName data;
                       ud_casts := casts;
                       ud_verifiedAccounts := userVerifiedAccounts |})
              (fun analysis =>
                 bind (try_catch
                         (await (CallSaveIQScoreToDatabase (fid data) analysis)
                                (saveIQScoreToDatabase env (fid data) analysis))
                         (ret tt))
                   (fun _ => ret (Success analysis "api" None)))))
      = (t, o) /\ Forall (fun c => ~ user_lookup c) (pre ++ t)%list).
  { intros pre Hpre. rewrite bind_ret.
    destruct (fetchUserCasts_total env (fid data)) as (casts & ->).
    unfold bind at 1.
    destruct casts as [| c casts]; simpl.
    - eexists; eexists; split; [reflexivity |].
      apply Forall_app. split; [assumption |]. repeat constructor; intros [].
    - destruct (analyzeWithAI_total env
                  {| ud_username := req_username data;
                     ud_displayName := req_displayName data;
                     ud_casts := c :: casts;
                     ud_verifiedAccounts := Some accounts |})
        as (t & r & -> & Ht).
      run.
      destruct (saveIQScoreToDatabase env (fid data) r); simpl;
        (eexists; eexists; split; [reflexivity |]);
        (apply Forall_app; split; [assumption |]);
        constructor; try (intros []);
        rewrite ?app_nil_r;
        (apply Forall_app; split; [apply scoring_is_no_lookup, Ht |]);
        repeat constructor; intros []. }
  destruct (hasRecentIQScore env (fid data) 30) as [[|] |].
  - rewrite bind_await.
    destruct (getIQScoreFromDatabase env (fid data)) as [[found |] |].
    + unfold trace. simpl. repeat constructor; intros [].
    + rewrite Hreq.
      destruct (Hrest [CallHasRecentIQScore (fid data) 30;
                       CallGetIQScoreFromDatabase (fid data)])
        as (t & o & -> & Ht); [repeat constructor; intros [] |].
      destruct o; unfold trace; simpl; rewrite ?app_nil_r; exact Ht.
    + unfold trace. simpl. repeat constructor; intros [].
  - rewrite bind_ret, Hreq.
    destruct (Hrest [CallHasRecentIQScore (fid data) 30])
      as (t & o & -> & Ht); [repeat constructor; intros [] |].
    destruct o; unfold trace; simpl; rewrite ?app_nil_r; exact Ht.
  - unfold trace. simpl. repeat constructor; intros [].
Qed.

Lemma X18_witness :
  Forall (fun c => ~ user_lookup c)
         (trace (POST providers_down (Ok (Some (request_data 7 (Some [])))))).
Proof.
  apply (X18_supplied_accounts_skip_the_lookup providers_down
           (request_data 7 (Some [])) []).
  reflexivity.
Defined.

(* ------------------------------------------------------------------ *)
(** ** Cutting the JSON out of a provider's answer *)

Section Braces.

Lemma string_app_assoc (a b c : string) : (a ++ b) ++ c = a ++ (b ++ c).
Proof. induction a as [| x a IH]; simpl; [reflexivity | rewrite IH; reflexivity]. Qed.

Lemma string_app_nil_r (a : string) : a ++ "" = a.
Proof. induction a as [| x a IH]; simpl; [reflexivity | rewrite IH; reflexivity]. Qed.

Lemma string_rev_onto_app (s acc : string) :
  string_rev_onto s acc = string_rev s ++ acc.
Proof.
  unfold string_rev. revert acc.
  induction s as [| c s IH]; intros acc; simpl; [reflexivity |].
  rewrite IH, (IH (String c "")), string_app_assoc. reflexivity.
Qed.

Lemma string_rev_cons (c : ascii) (s : string) :
  string_rev (String c s) = string_rev s ++ String c "".
Proof. unfold string_rev at 1. simpl. apply string_rev_onto_app. Qed.

Lemma string_rev_app (a b : string) :
  string_rev (a ++ b) = string_rev b ++ string_rev a.
Proof.
  induction a as [| c a IH]; simpl.
  - rewrite string_app_nil_r. reflexivity.
  - rewrite !string_rev_cons, IH, string_app_assoc. reflexivity.
Qed.

Lemma string_rev_involutive (s : string) : string_rev (string_rev s) = s.
Proof.
  induction s as [| c s IH]; [reflexivity |].
  rewrite string_rev_cons, string_rev_app, IH. reflexivity.
Qed.

Lemma string_exists_app (p : ascii -> bool) (a b : string) :
  string_exists p (a ++ b) = string_exists p a || string_exists p b.
Proof.
  induction a as [| c a IH]; simpl; [reflexivity |].
  rewrite IH, orb_assoc. reflexivity.
Qed.

Lemma string_exists_rev (p : ascii -> bool) (s : string) :
  string_exists p (string_rev s) = string_exists p s.
Proof.
  induction s as [| c s IH]; [reflexivity |].
  rewrite string_rev_cons, string_exists_app, IH. simpl.
  rewrite orb_false_r, orb_comm. reflexivity.
Qed.

(** Dropping up to a character passes over a text without it. *)
Lemma drop_until_app (x : ascii) (a b : string) :
  string_exists (Ascii.eqb x) a = false ->
  drop_while (fun c => negb (Ascii.eqb c x)) (a ++ b)
  = drop_while (fun c => negb (Ascii.eqb c x)) b.
Proof.
  induction a as [| c a IH]; simpl; [reflexivity |].
  intros H. apply orb_false_iff in H. destruct H as [Hc Ha].
  rewrite Ascii.eqb_sym, Hc. simpl. auto.
Qed.

Lemma drop_until_none (x : ascii) (a : string) :
  string_exists (Ascii.eqb x) a = false ->
  drop_while (fun c => negb (Ascii.eqb c x)) a = "".
Proof.
  intros H. rewrite <- (string_app_nil_r a). rewrite drop_until_app by assumption.
  reflexivity.
Qed.

End Braces.

(** X19.  From an answer that wraps one brace-delimited piece in
    prose -- no opening brace before it, no closing brace after it --
    [match_braces] cuts exactly that piece, braces included; from an
    answer without an opening brace it cuts nothing. *)
Theorem X19_match_braces_cuts_the_object (before body after : string) :
  string_exists (Ascii.eqb "{") before = false ->
  string_exists (Ascii.eqb "}") after = false ->
  match_braces (before ++ "{" ++ body ++ "}" ++ after) = Some ("{" ++ body ++ "}")
  /\ match_braces before = None.
Proof.
  intros Hbefore Hafter. unfold match_braces. split.
  - rewrite drop_until_app by assumption.
    cbn [append drop_while Ascii.eqb Bool.eqb negb].
    rewrite string_exists_app. cbn [string_exists Ascii.eqb Bool.eqb].
    rewrite orb_true_r. f_equal.
    rewrite string_rev_cons, string_rev_app, string_rev_cons.
    rewrite !string_app_assoc.
    rewrite drop_until_app by (rewrite string_exists_rev; assumption).
    cbn [append drop_while Ascii.eqb Bool.eqb negb].
    rewrite string_rev_cons, string_rev_app, string_rev_involutive.
    reflexivity.
  - rewrite drop_until_none by assumption. reflexivity.
Qed.

Lemma X19_witness :
  match_braces ("Here you go: " ++ "{" ++ " score: 120 " ++ "}" ++ " Bye.")
  = Some ("{" ++ " score: 120 " ++ "}")
  /\ match_braces "Here you go: " = None.
Proof.
  apply (X19_match_braces_cuts_the_object "Here you go: " " score: 120 "
           " Bye.").
  - reflexivity.
  - reflexivity.
Defined.

(** X20.  For a non-empty list of casts: whenever the values the
    world supplies where numbers are expected convert to numbers, the
    result of [analyzeWithAI] has its score between 55 and 145 and its
    confidence between 0 and 100, whichever of the five tiers produced
    it. *)
Theorem X20_numeric_payloads_stay_in_range
  (env : Env) (userData : UserData) (r : IQResult) :
  ud_casts userData <> [] ->
  numeric_payloads env ->
  result (analyzeWithAI env userData) = Ok r ->
  in_range 55 145 (score r) /\ in_range 0 100 (confidence r).
Proof. exact (analyzeWithAI_in_range env userData r). Qed.

Lemma X20_witness :
  in_range 55 145 (score looked_up) /\ in_range 0 100 (confidence looked_up).
Proof.
  apply (X20_numeric_payloads_stay_in_range (iq_known (JNumber 160))
           (x_user "alice") looked_up).
  - discriminate.
  - split.
    + intros handle response iqScore H1 H2.
      injection H1 as <-. injection H2 as <-. discriminate.
    + intros text parsed H. discriminate.
  - vm_compute. reflexivity.
Defined.

Example faucet_rotation_sample :
  Faucet.POST Faucet.three_wallets
    (Faucet.sample_world 1 5000000000000 0 false (Ok tt)) (Ok (JString "0xabc")) 0%nat
  = ([Faucet.HasReceivedFaucet "0xabc"; Faucet.GetBalance "w0";
      Faucet.GetBalance "w1";
      Faucet.SendTransaction "w1" "0xabc" 4000000000000 (Some 21000%Z);
      Faucet.Wait "tx-w1";
      Faucet.SaveFaucetRecord "0xabc" "0.000004" 1 "tx-w1"],
     Ok (Faucet.Sent "tx-w1" "0.000004" "w1"), 2%nat).
Proof. vm_compute. reflexivity. Qed.

(* ------------------------------------------------------------------ *)
(** ** The faucet route *)

(** After a request the index is the one before, the next one, or the
    one after the next. *)
Lemma faucet_index_steps (wallets : list string) (world : Faucet.World)
  (request : outcome jsval) (i : nat) :
  let n := List.length wallets in
  let j := Faucet.index_after (Faucet.POST wallets world request i) in
  j = i \/ (n <> 0%nat /\ (j = ((i + 1) mod n)%nat
                           \/ j = (((i + 1) mod n + 1) mod n)%nat)).
Proof.
  cbv zeta. faucet_run.
  destruct request as [userAddress |]; cbn [fst snd app]; [| left; reflexivity].
  destruct (negb (truthy userAddress)); cbn [fst snd app]; [left; reflexivity |].
  destruct (Faucet.address_of world userAddress) as [user |];
    cbn [fst snd app]; [| left; reflexivity].
  destruct (Faucet.hasReceivedFaucetFromDatabase world user) as [[|] |];
    cbn [fst snd app]; try (left; reflexivity).
  destruct (List.length wallets =? 0)%nat eqn:En; cbn [fst snd app];
    [left; reflexivity |].
  apply Nat.eqb_neq in En.
  destruct (Faucet.wallet_at world wallets i) as [w |];
    cbn [fst snd app]; [| left; reflexivity].
  destruct (Faucet.first_balance world w) as [b |];
    cbn [fst snd app]; [| left; reflexivity].
  destruct (b <? Faucet.requiredAmount)%Z; cbn [fst snd app].
  - destruct (Faucet.wallet_at world wallets _) as [w' |];
      cbn [fst snd app]; [| right; auto].
    destruct (Faucet.second_balance world w') as [b' |];
      cbn [fst snd app]; [| right; auto].
    destruct (b' <? Faucet.requiredAmount)%Z; cbn [fst snd app];
      [right; auto |].
    destruct (Faucet.sendTransaction world w' user) as [h |];
      cbn [fst snd app]; [| right; auto].
    destruct (Faucet.wait world h) as [[] |];
      cbn [fst snd app]; [| right; auto].
    destruct (Faucet.saveFaucetRecord world user _ h) as [[] |];
      cbn [fst snd app]; right; auto.
  - destruct (Faucet.sendTransaction world w user) as [h |];
      cbn [fst snd app]; [| left; reflexivity].
    destruct (Faucet.wait world h) as [[] |];
      cbn [fst snd app]; [| left; reflexivity].
    destruct (Faucet.saveFaucetRecord world user i h) as [[] |];
      cbn [fst snd app]; [right; auto | left; reflexivity].
Qed.

Lemma faucet_index_invariant (wallets : list string) (world : Faucet.World)
  (request : outcome jsval) (i : nat) :
  (i < List.length wallets)%nat ->
  (Faucet.index_after (Faucet.POST wallets world request i)
   < List.length wallets)%nat.
Proof.
  intros Hi.
  destruct (faucet_index_steps wallets world request i)
    as [-> | [Hn [-> | ->]]]; [assumption | |];
    apply Nat.mod_upper_bound; assumption.
Qed.

(** X21.  The index of the wallet to use next stays within the list
    of wallets: started inside it, it is inside it after any sequence
    of requests, whatever the world does, so the handler never reads
    past the end of [FAUCET_WALLETS]. *)
Theorem X21_wallet_index_stays_in_range
  (wallets : list string) (requests : list (Faucet.World * outcome jsval))
  (i : nat) :
  (i < List.length wallets)%nat ->
  (Faucet.serve wallets requests i < List.length wallets)%nat.
Proof.
  revert i.
  induction requests as [| [world request] rest IH]; intros i Hi; simpl.
  - assumption.
  - apply IH. apply faucet_index_invariant. assumption.
Qed.

Lemma X21_witness :
  (Faucet.serve Faucet.three_wallets
     [(Faucet.sample_world 1 5000000000000 0 false (Ok tt), Ok (JString "0xabc"));
      (Faucet.sample_world 1 1 1 false (Ok tt), Ok (JString "0xabc"))] 0
   < List.length Faucet.three_wallets)%nat.
Proof.
  apply (X21_wallet_index_stays_in_range Faucet.three_wallets
           [(Faucet.sample_world 1 5000000000000 0 false (Ok tt),
             Ok (JString "0xabc"));
            (Faucet.sample_world 1 1 1 false (Ok tt), Ok (JString "0xabc"))]
           0%nat).
  simpl. lia.
Defined.

Lemma address_of_some (world : Faucet.World) (userAddress : jsval)
  (user : string) :
  Faucet.address_of world userAddress = Some user ->
  userAddress = JString user /\ Faucet.isAddress world user = true.
Proof.
  unfold Faucet.address_of.
  destruct userAddress as [| | b | q | a]; try discriminate.
  destruct (Faucet.isAddress world a) eqn:E; [| discriminate].
  intros H. injection H as <-. auto.
Qed.

(** Run alone, the handler among other requests is the handler. *)
Lemma POST_among_alone (wallets : list string) (world : Faucet.World)
  (request : outcome jsval) (i : nat) :
  Faucet.POST_among Faucet.alone wallets world request i
  = Faucet.POST wallets world request i.
Proof.
  faucet_run_among. faucet_run. unfold Faucet.alone.
  destruct request as [userAddress |]; cbn [fst snd app]; [| reflexivity].
  destruct (negb (truthy userAddress)); cbn [fst snd app]; [reflexivity |].
  destruct (Faucet.address_of world userAddress) as [user |];
    cbn [fst snd app]; [| reflexivity].
  destruct (Faucet.hasReceivedFaucetFromDatabase world user) as [[|] |];
    cbn [fst snd app]; try reflexivity.
  destruct (List.length wallets =? 0)%nat; cbn [fst snd app]; [reflexivity |].
  destruct (Faucet.wallet_at world wallets i) as [w |];
    cbn [fst snd app]; [| reflexivity].
  destruct (Faucet.first_balance world w) as [b |];
    cbn [fst snd app]; [| reflexivity].
  destruct (b <? Faucet.requiredAmount)%Z; cbn [fst snd app].
  - destruct (Faucet.wallet_at world wallets _) as [w' |];
      cbn [fst snd app]; [| reflexivity].
    destruct (Faucet.second_balance world w') as [b' |];
      cbn [fst snd app]; [| reflexivity].
    destruct (b' <? Faucet.requiredAmount)%Z; cbn [fst snd app];
      [reflexivity |].
    destruct (Faucet.sendTransaction world w' user) as [h |];
      cbn [fst snd app]; [| reflexivity].
    destruct (Faucet.wait world h) as [[] |];
      cbn [fst snd app]; [| reflexivity].
    destruct (Faucet.saveFaucetRecord world user _ h) as [[] |];
      cbn [fst snd app]; reflexivity.
  - destruct (Faucet.sendTransaction world w user) as [h |];
      cbn [fst snd app]; [| reflexivity].
    destruct (Faucet.wait world h) as [[] |];
      cbn [fst snd app]; [| reflexivity].
    destruct (Faucet.saveFaucetRecord world user i h) as [[] |];
      cbn [fst snd app]; reflexivity.
Qed.

(** X22.  Whatever other requests do to the index meanwhile: when the
    faucet answers that funds were sent, the request named an address
    that [ethers.isAddress] accepts and that had not received funds;
    exactly one transaction was sent, of 0.000004 ETH to that address,
    from a configured wallet whose balance as read covered the amount;
    and a record with the transaction's hash was written.  When no
    other request assigns the index meanwhile, the paying wallet is the
    one at the current index or at the next one, the record names its
    index, and the index moves to the wallet after it. *)
Theorem X22_sent_means_paid_once
  (others : Faucet.Interference) (wallets : list string)
  (world : Faucet.World) (request : outcome jsval)
  (i : nat) (txHash amount from : string) :
  Faucet.answer (Faucet.POST_among others wallets world request i)
  = Ok (Faucet.Sent txHash amount from) ->
  exists user payer recorded gasLimit balance,
    request = Ok (JString user) /\
    Faucet.isAddress world user = true /\
    Faucet.hasReceivedFaucetFromDatabase world user = Ok false /\
    amount = "0.000004" /\
    Faucet.wallet_at world wallets payer = Ok from /\
    (Faucet.first_balance world from = Ok balance \/
     Faucet.second_balance world from = Ok balance) /\
    (Faucet.requiredAmount <= balance)%Z /\
    Faucet.sendTransaction world from user = Ok txHash /\
    filter Faucet.is_send
      (Faucet.calls (Faucet.POST_among others wallets world request i))
    = [Faucet.SendTransaction from user Faucet.requiredAmount gasLimit] /\
    In (Faucet.SaveFaucetRecord user "0.000004" recorded txHash)
       (Faucet.calls (Faucet.POST_among others wallets world request i)) /\
    ((forall k j, others k j = j) ->
     (payer = i \/ payer = ((i + 1) mod List.length wallets)%nat) /\
     recorded = payer /\
     Faucet.index_after (Faucet.POST_among others wallets world request i)
     = ((payer + 1) mod List.length wallets)%nat).
Proof.
  faucet_run_among.
  destruct request as [userAddress |];
    cbn -[Nat.modulo Z.ltb Faucet.requiredAmount]; [| discriminate].
  destruct (negb (truthy userAddress));
    cbn -[Nat.modulo Z.ltb Faucet.requiredAmount]; [discriminate |].
  destruct (Faucet.address_of world userAddress) as [user |] eqn:Eaddr;
    cbn -[Nat.modulo Z.ltb Faucet.requiredAmount]; [| discriminate].
  apply address_of_some in Eaddr. destruct Eaddr as [-> Hvalid].
  destruct (Faucet.hasReceivedFaucetFromDatabase world user) as [[|] |] eqn:Ehas;
    cbn -[Nat.modulo Z.ltb Faucet.requiredAmount]; try discriminate.
  destruct (List.length wallets =? 0)%nat;
    cbn -[Nat.modulo Z.ltb Faucet.requiredAmount]; [discriminate |].
  destruct (Faucet.wallet_at world wallets (others 1%nat (others 0%nat i)))
    as [w |] eqn:Ew;
    cbn -[Nat.modulo Z.ltb Faucet.requiredAmount]; [| discriminate].
  destruct (Faucet.first_balance world w) as [b |] eqn:Eb;
    cbn -[Nat.modulo Z.ltb Faucet.requiredAmount]; [| discriminate].
  destruct (b <? Faucet.requiredAmount)%Z eqn:Elt;
    cbn -[Nat.modulo Z.ltb Faucet.requiredAmount].
  - destruct (Faucet.wallet_at world wallets
                ((others 2%nat (others 1%nat (others 0%nat i)) + 1)
                 mod List.length wallets)%nat) as [w' |] eqn:Ew';
      cbn -[Nat.modulo Z.ltb Faucet.requiredAmount]; [| discriminate].
    destruct (Faucet.second_balance world w') as [b' |] eqn:Eb';
      cbn -[Nat.modulo Z.ltb Faucet.requiredAmount]; [| discriminate].
    destruct (b' <? Faucet.requiredAmount)%Z eqn:Elt';
      cbn -[Nat.modulo Z.ltb Faucet.requiredAmount]; [discriminate |].
    destruct (Faucet.sendTransaction world w' user) as [h |] eqn:Esend;
      cbn -[Nat.modulo Z.ltb Faucet.requiredAmount]; [| discriminate].
    destruct (Faucet.wait world h) as [[] |];
      cbn -[Nat.modulo Z.ltb Faucet.requiredAmount]; [| discriminate].
    destruct (Faucet.saveFaucetRecord world user _ h) as [[] |];
      cbn -[Nat.modulo Z.ltb Faucet.requiredAmount]; [| discriminate].
    intros H. injection H as <- <- <-.
    apply Z.ltb_ge in Elt'.
    eexists user, _, _, (Some 21000%Z), b'.
    split; [reflexivity |]. split; [assumption |]. split; [assumption |].
    split; [reflexivity |]. split; [exact Ew' |]. split; [right; exact Eb' |].
    split; [assumption |]. split; [assumption |]. split; [reflexivity |].
    split; [do 5 right; left; reflexivity |].
    intros Halone. rewrite !Halone. auto.
  - destruct (Faucet.sendTransaction world w user) as [h |] eqn:Esend;
      cbn -[Nat.modulo Z.ltb Faucet.requiredAmount]; [| discriminate].
    destruct (Faucet.wait world h) as [[] |];
      cbn -[Nat.modulo Z.ltb Faucet.requiredAmount]; [| discriminate].
    destruct (Faucet.saveFaucetRecord world user _ h) as [[] |];
      cbn -[Nat.modulo Z.ltb Faucet.requiredAmount]; [| discriminate].
    intros H. injection H as <- <- <-.
    apply Z.ltb_ge in Elt.
    eexists user, _, _, None, b.
    split; [reflexivity |]. split; [assumption |]. split; [assumption |].
    split; [reflexivity |]. split; [exact Ew |]. split; [left; exact Eb |].
    split; [assumption |]. split; [assumption |]. split; [reflexivity |].
    split; [do 4 right; left; reflexivity |].
    intros Halone. rewrite !Halone. auto.
Qed.

Lemma X22_witness :
  exists user payer recorded gasLimit balance,
    Ok (JString "0xabc") = Ok (JString user) /\
    Faucet.isAddress (Faucet.sample_world 1 5000000000000 0 false (Ok tt)) user
    = true /\
    Faucet.hasReceivedFaucetFromDatabase
      (Faucet.sample_world 1 5000000000000 0 false (Ok tt)) user = Ok false /\
    "0.000004" = "0.000004" /\
    Faucet.wallet_at (Faucet.sample_world 1 5000000000000 0 false (Ok tt))
      Faucet.three_wallets payer = Ok "w1" /\
    (Faucet.first_balance (Faucet.sample_world 1 5000000000000 0 false (Ok tt))
       "w1" = Ok balance \/
     Faucet.second_balance (Faucet.sample_world 1 5000000000000 0 false (Ok tt))
       "w1" = Ok balance) /\
    (Faucet.requiredAmount <= balance)%Z /\
    Faucet.sendTransaction (Faucet.sample_world 1 5000000000000 0 false (Ok tt))
      "w1" user = Ok "tx-w1" /\
    filter Faucet.is_send
      (Faucet.calls
         (Faucet.POST_among Faucet.alone Faucet.three_wallets
            (Faucet.sample_world 1 5000000000000 0 false (Ok tt))
            (Ok (JString "0xabc")) 0%nat))
    = [Faucet.SendTransaction "w1" user Faucet.requiredAmount gasLimit] /\
    In (Faucet.SaveFaucetRecord user "0.000004" recorded "tx-w1")
       (Faucet.calls
          (Faucet.POST_among Faucet.alone Faucet.three_wallets
             (Faucet.sample_world 1 5000000000000 0 false (Ok tt))
             (Ok (JString "0xabc")) 0%nat)) /\
    ((forall k j, Faucet.alone k j = j) ->
     (payer = 0%nat \/ payer = ((0 + 1) mod List.length Faucet.three_wallets)%nat) /\
     recorded = payer /\
     Faucet.index_after
       (Faucet.POST_among Faucet.alone Faucet.three_wallets
          (Faucet.sample_world 1 5000000000000 0 false (Ok tt))
          (Ok (JString "0xabc")) 0%nat)
     = ((payer + 1) mod List.length Faucet.three_wallets)%nat).
Proof.
  apply (X22_sent_means_paid_once Faucet.alone Faucet.three_wallets
           (Faucet.sample_world 1 5000000000000 0 false (Ok tt))
           (Ok (JString "0xabc")) 0%nat "tx-w1" "0.000004" "w1").
  vm_compute. reflexivity.
Defined.

(** X23.  In one request the faucet reads at most two balances and
    sends at most one transaction, however many wallets there are and
    whatever the world does. *)
Theorem X23_two_balances_one_transaction_at_most
  (wallets : list string) (world : Faucet.World) (request : outcome jsval)
  (i : nat) :
  (List.length (filter Faucet.is_balance
                  (Faucet.calls (Faucet.POST wallets world request i))) <= 2)%nat
  /\
  (List.length (filter Faucet.is_send
                  (Faucet.calls (Faucet.POST wallets world request i))) <= 1)%nat.
Proof.
  faucet_run.
  destruct request as [userAddress |]; cbn [fst snd app]; [| simpl; lia].
  destruct (negb (truthy userAddress)); cbn [fst snd app]; [simpl; lia |].
  destruct (Faucet.address_of world userAddress) as [user |];
    cbn [fst snd app]; [| simpl; lia].
  destruct (Faucet.hasReceivedFaucetFromDatabase world user) as [[|] |];
    cbn [fst snd app]; try (simpl; lia).
  destruct (List.length wallets =? 0)%nat; cbn [fst snd app]; [simpl; lia |].
  destruct (Faucet.wallet_at world wallets i) as [w |];
    cbn [fst snd app]; [| simpl; lia].
  destruct (Faucet.first_balance world w) as [b |];
    cbn [fst snd app]; [| simpl; lia].
  destruct (b <? Faucet.requiredAmount)%Z; cbn [fst snd app].
  - destruct (Faucet.wallet_at world wallets _) as [w' |];
      cbn [fst snd app]; [| simpl; lia].
    destruct (Faucet.second_balance world w') as [b' |];
      cbn [fst snd app]; [| simpl; lia].
    destruct (b' <? Faucet.requiredAmount)%Z; cbn [fst snd app];
      [simpl; lia |].
    destruct (Faucet.sendTransaction world w' user) as [h |];
      cbn [fst snd app]; [| simpl; lia].
    destruct (Faucet.wait world h) as [[] |];
      cbn [fst snd app]; [| simpl; lia].
    destruct (Faucet.saveFaucetRecord world user _ h) as [[] |];
      cbn [fst snd app]; simpl; lia.
  - destruct (Faucet.sendTransaction world w user) as [h |];
      cbn [fst snd app]; [| simpl; lia].
    destruct (Faucet.wait world h) as [[] |];
      cbn [fst snd app]; [| simpl; lia].
    destruct (Faucet.saveFaucetRecord world user i h) as [[] |];
      cbn [fst snd app]; simpl; lia.
Qed.

(** X24.  Whatever other requests do to the index meanwhile: when the
    wallet at the index the handler finds and the wallet after the index
    it finds once the first balance is read both hold less than the
    amount, the faucet answers that all wallets have insufficient
    balance -- without looking at any further wallet -- and sends
    nothing.  Run alone from the index [i], these are the wallets at
    [i] and after it, and the index is left on the second of the two. *)
Theorem X24_two_poor_wallets_end_the_search
  (others : Faucet.Interference) (wallets : list string)
  (world : Faucet.World) (user : string) (i : nat)
  (w1 w2 : string) (b1 b2 : Z) :
  wallets <> [] ->
  Faucet.isAddress world user = true ->
  user <> "" ->
  Faucet.hasReceivedFaucetFromDatabase world user = Ok false ->
  Faucet.wallet_at world wallets (Faucet.first_index others i) = Ok w1 ->
  Faucet.first_balance world w1 = Ok b1 ->
  (b1 < Faucet.requiredAmount)%Z ->
  Faucet.wallet_at world wallets (Faucet.second_index others wallets i) = Ok w2 ->
  Faucet.second_balance world w2 = Ok b2 ->
  (b2 < Faucet.requiredAmount)%Z ->
  Faucet.POST_among others wallets world (Ok (JString user)) i
  = ([Faucet.HasReceivedFaucet user; Faucet.GetBalance w1; Faucet.GetBalance w2],
     Ok (Faucet.Error 500 "All faucet wallets have insufficient balance"),
     others 3%nat (Faucet.second_index others wallets i)) /\
  ((forall k j, others k j = j) ->
   Faucet.first_index others i = i /\
   Faucet.second_index others wallets i = ((i + 1) mod List.length wallets)%nat /\
   Faucet.index_after
     (Faucet.POST_among others wallets world (Ok (JString user)) i)
   = ((i + 1) mod List.length wallets)%nat).
Proof.
  intros Hne Hvalid Huser Hhas Hw1 Hb1 Hlt1 Hw2 Hb2 Hlt2.
  assert (E :
    Faucet.POST_among others wallets world (Ok (JString user)) i
    = ([Faucet.HasReceivedFaucet user; Faucet.GetBalance w1; Faucet.GetBalance w2],
       Ok (Faucet.Error 500 "All faucet wallets have insufficient balance"),
       others 3%nat (Faucet.second_index others wallets i))).
  { revert Hw1 Hw2. faucet_run_among. unfold Faucet.address_of. intros Hw1 Hw2.
    assert (Et : truthy (JString user) = true)
      by (destruct user; [contradiction | reflexivity]).
    rewrite Et, Hvalid. cbn -[Nat.modulo Z.ltb Faucet.requiredAmount].
    rewrite Hhas. cbn -[Nat.modulo Z.ltb Faucet.requiredAmount].
    assert (En : (List.length wallets =? 0)%nat = false)
      by (destruct wallets; [contradiction | reflexivity]).
    rewrite En, Hw1. cbn -[Nat.modulo Z.ltb Faucet.requiredAmount].
    rewrite Hb1. cbn -[Nat.modulo Z.ltb Faucet.requiredAmount].
    apply Z.ltb_lt in Hlt1, Hlt2.
    rewrite Hlt1. cbn -[Nat.modulo Z.ltb Faucet.requiredAmount].
    rewrite Hw2. cbn -[Nat.modulo Z.ltb Faucet.requiredAmount].
    rewrite Hb2. cbn -[Nat.modulo Z.ltb Faucet.requiredAmount].
    rewrite Hlt2. reflexivity. }
  split; [exact E |].
  intros Halone. rewrite E.
  unfold Faucet.index_after, Faucet.second_index, Faucet.first_index.
  cbn [snd]. rewrite !Halone. auto.
Qed.

Lemma X24_witness :
  Faucet.POST_among Faucet.alone Faucet.three_wallets
    (Faucet.sample_world 1 2 9000000000000 false (Ok tt)) (Ok (JString "0xabc"))
    0%nat
  = ([Faucet.HasReceivedFaucet "0xabc"; Faucet.GetBalance "w0";
      Faucet.GetBalance "w1"],
     Ok (Faucet.Error 500 "All faucet wallets have insufficient balance"),
     Faucet.alone 3%nat
       (Faucet.second_index Faucet.alone Faucet.three_wallets 0%nat)) /\
  ((forall k j, Faucet.alone k j = j) ->
   Faucet.first_index Faucet.alone 0%nat = 0%nat /\
   Faucet.second_index Faucet.alone Faucet.three_wallets 0%nat
   = ((0 + 1) mod List.length Faucet.three_wallets)%nat /\
   Faucet.index_after
     (Faucet.POST_among Faucet.alone Faucet.three_wallets
        (Faucet.sample_world 1 2 9000000000000 false (Ok tt))
        (Ok (JString "0xabc")) 0%nat)
   = ((0 + 1) mod List.length Faucet.three_wallets)%nat).
Proof.
  apply (X24_two_poor_wallets_end_the_search Faucet.alone Faucet.three_wallets
           (Faucet.sample_world 1 2 9000000000000 false (Ok tt)) "0xabc" 0%nat
           "w0" "w1" 1 2).
  - discriminate.
  - reflexivity.
  - discriminate.
  - reflexivity.
  - reflexivity.
  - reflexivity.
  - reflexivity.
  - reflexivity.
  - reflexivity.
  - reflexivity.
Defined.

(** X25.  Whatever other requests do to the index meanwhile, and
    whichever of the two wallets paid: when the handler comes to write
    the record and the write throws, the faucet answers with the failure
    of status 500 although the transaction named in the record was sent
    with the amount and confirmed.  When no other request assigns the
    index meanwhile, the index stays on the wallet that paid. *)
Theorem X25_unrecorded_payment_is_reported_as_failure
  (others : Faucet.Interference) (wallets : list string)
  (world : Faucet.World) (request : outcome jsval) (i : nat)
  (user amount : string) (recorded : nat) (txHash : string) :
  In (Faucet.SaveFaucetRecord user amount recorded txHash)
     (Faucet.calls (Faucet.POST_among others wallets world request i)) ->
  Faucet.saveFaucetRecord world user recorded txHash = Throw ->
  Faucet.answer (Faucet.POST_among others wallets world request i)
  = Ok (Faucet.Error 500 "Failed to send faucet funds") /\
  (exists from gasLimit,
     In (Faucet.SendTransaction from user Faucet.requiredAmount gasLimit)
        (Faucet.calls (Faucet.POST_among others wallets world request i)) /\
     Faucet.sendTransaction world from user = Ok txHash /\
     Faucet.wait world txHash = Ok tt /\
     ((forall k j, others k j = j) ->
      Faucet.wallet_at world wallets recorded = Ok from /\
      Faucet.index_after (Faucet.POST_among others wallets world request i)
      = recorded)).
Proof.
  faucet_run_among.
  destruct request as [userAddress |];
    cbn -[Nat.modulo Z.ltb Faucet.requiredAmount]; [| intros []].
  destruct (negb (truthy userAddress));
    cbn -[Nat.modulo Z.ltb Faucet.requiredAmount]; [intros [] |].
  destruct (Faucet.address_of world userAddress) as [user' |];
    cbn -[Nat.modulo Z.ltb Faucet.requiredAmount]; [| intros []].
  destruct (Faucet.hasReceivedFaucetFromDatabase world user') as [[|] |];
    cbn -[Nat.modulo Z.ltb Faucet.requiredAmount];
    try (intros [H | []]; discriminate).
  destruct (List.length wallets =? 0)%nat;
    cbn -[Nat.modulo Z.ltb Faucet.requiredAmount];
    [intros [H | []]; discriminate |].
  destruct (Faucet.wallet_at world wallets (others 1%nat (others 0%nat i)))
    as [w |] eqn:Ew;
    cbn -[Nat.modulo Z.ltb Faucet.requiredAmount];
    [| intros [H | []]; discriminate].
  destruct (Faucet.first_balance world w) as [b |];
    cbn -[Nat.modulo Z.ltb Faucet.requiredAmount];
    [| intros [H | [H | []]]; discriminate].
  destruct (b <? Faucet.requiredAmount)%Z;
    cbn -[Nat.modulo Z.ltb Faucet.requiredAmount].
  - destruct (Faucet.wallet_at world wallets
                ((others 2%nat (others 1%nat (others 0%nat i)) + 1)
                 mod List.length wallets)%nat) as [w' |] eqn:Ew';
      cbn -[Nat.modulo Z.ltb Faucet.requiredAmount];
      [| intros [H | [H | []]]; discriminate].
    destruct (Faucet.second_balance world w') as [b' |];
      cbn -[Nat.modulo Z.ltb Faucet.requiredAmount];
      [| intros [H | [H | [H | []]]]; discriminate].
    destruct (b' <? Faucet.requiredAmount)%Z;
      cbn -[Nat.modulo Z.ltb Faucet.requiredAmount];
      [intros [H | [H | [H | []]]]; discriminate |].
    destruct (Faucet.sendTransaction world w' user') as [h |] eqn:Esend;
      cbn -[Nat.modulo Z.ltb Faucet.requiredAmount];
      [| intros [H | [H | [H | [H | []]]]]; discriminate].
    destruct (Faucet.wait world h) as [[] |] eqn:Ewait;
      cbn -[Nat.modulo Z.ltb Faucet.requiredAmount];
      [| intros [H | [H | [H | [H | [H | []]]]]]; discriminate].
    destruct (Faucet.saveFaucetRecord world user' _ h) as [[] |] eqn:Esave;
      cbn -[Nat.modulo Z.ltb Faucet.requiredAmount];
      (intros [H | [H | [H | [H | [H | [H | []]]]]]]; try discriminate);
      injection H as <- <- <- <-; intros Hsave;
      [rewrite Hsave in Esave; discriminate |].
    split; [reflexivity |].
    exists w', (Some 21000%Z).
    split; [do 3 right; left; reflexivity |].
    split; [assumption |]. split; [assumption |].
    intros Halone. rewrite !Halone. rewrite !Halone in Ew'. auto.
  - destruct (Faucet.sendTransaction world w user') as [h |] eqn:Esend;
      cbn -[Nat.modulo Z.ltb Faucet.requiredAmount];
      [| intros [H | [H | [H | []]]]; discriminate].
    destruct (Faucet.wait world h) as [[] |] eqn:Ewait;
      cbn -[Nat.modulo Z.ltb Faucet.requiredAmount];
      [| intros [H | [H | [H | [H | []]]]]; discriminate].
    destruct (Faucet.saveFaucetRecord world user' _ h) as [[] |] eqn:Esave;
      cbn -[Nat.modulo Z.ltb Faucet.requiredAmount];
      (intros [H | [H | [H | [H | [H | []]]]]]; try discriminate);
      injection H as <- <- <- <-; intros Hsave;
      [rewrite Hsave in Esave; discriminate |].
    split; [reflexivity |].
    exists w, None.
    split; [do 2 right; left; reflexivity |].
    split; [assumption |]. split; [assumption |].
    intros Halone. rewrite !Halone. rewrite !Halone in Ew. auto.
Qed.

Lemma X25_witness :
  Faucet.answer
    (Faucet.POST_among Faucet.alone Faucet.three_wallets
       (Faucet.sample_world 1 9000000000000 0 false Throw)
       (Ok (JString "0xabc")) 0%nat)
  = Ok (Faucet.Error 500 "Failed to send faucet funds") /\
  (exists from gasLimit,
     In (Faucet.SendTransaction from "0xabc" Faucet.requiredAmount gasLimit)
        (Faucet.calls
           (Faucet.POST_among Faucet.alone Faucet.three_wallets
              (Faucet.sample_world 1 9000000000000 0 false Throw)
              (Ok (JString "0xabc")) 0%nat)) /\
     Faucet.sendTransaction (Faucet.sample_world 1 9000000000000 0 false Throw)
       from "0xabc" = Ok "tx-w1" /\
     Faucet.wait (Faucet.sample_world 1 9000000000000 0 false Throw) "tx-w1"
     = Ok tt /\
     ((forall k j, Faucet.alone k j = j) ->
      Faucet.wallet_at (Faucet.sample_world 1 9000000000000 0 false Throw)
        Faucet.three_wallets 1%nat = Ok from /\
      Faucet.index_after
        (Faucet.POST_among Faucet.alone Faucet.three_wallets
           (Faucet.sample_world 1 9000000000000 0 false Throw)
           (Ok (JString "0xabc")) 0%nat)
      = 1%nat)).
Proof.
  apply (X25_unrecorded_payment_is_reported_as_failure Faucet.alone
           Faucet.three_wallets
           (Faucet.sample_world 1 9000000000000 0 false Throw)
           (Ok (JString "0xabc")) 0%nat "0xabc" "0.000004" 1%nat "tx-w1").
  - vm_compute. do 5 right. left. reflexivity.
  - reflexivity.
Defined.

(** X26.  A request that names no address, names one that
    [ethers.isAddress] refuses, or names one that already received
    funds is answered with status 400; no balance is read, nothing is
    sent and the index does not move. *)
Theorem X26_refused_requests_touch_no_wallet
  (wallets : list string) (world : Faucet.World) (userAddress : jsval) (i : nat) :
  truthy userAddress = false \/
  Faucet.address_of world userAddress = None \/
  (exists user, Faucet.address_of world userAddress = Some user /\
                Faucet.hasReceivedFaucetFromDatabase world user = Ok true) ->
  (exists error,
     Faucet.answer (Faucet.POST wallets world (Ok userAddress) i)
     = Ok (Faucet.Error 400 error)) /\
  filter Faucet.is_balance (Faucet.calls (Faucet.POST wallets world (Ok userAddress) i))
  = [] /\
  filter Faucet.is_send (Faucet.calls (Faucet.POST wallets world (Ok userAddress) i))
  = [] /\
  Faucet.index_after (Faucet.POST wallets world (Ok userAddress) i) = i.
Proof.
  intros H. faucet_run.
  destruct (truthy userAddress) eqn:Et; cbn -[Nat.modulo Z.ltb];
    [| repeat split; eauto].
  destruct H as [H | [H | (user & H & Hhas)]]; [discriminate | |].
  - rewrite H. cbn. repeat split; eauto.
  - rewrite H. cbn -[Nat.modulo Z.ltb]. rewrite Hhas. cbn.
    repeat split; eauto.
Qed.

Lemma X26_witness :
  (exists error,
     Faucet.answer
       (Faucet.POST Faucet.three_wallets
          (Faucet.sample_world 9000000000000 0 0 true (Ok tt))
          (Ok (JString "0xabc")) 1%nat)
     = Ok (Faucet.Error 400 error)) /\
  filter Faucet.is_balance
    (Faucet.calls
       (Faucet.POST Faucet.three_wallets
          (Faucet.sample_world 9000000000000 0 0 true (Ok tt))
          (Ok (JString "0xabc")) 1%nat))
  = [] /\
  filter Faucet.is_send
    (Faucet.calls
       (Faucet.POST Faucet.three_wallets
          (Faucet.sample_world 9000000000000 0 0 true (Ok tt))
          (Ok (JString "0xabc")) 1%nat))
  = [] /\
  Faucet.index_after
    (Faucet.POST Faucet.three_wallets
       (Faucet.sample_world 9000000000000 0 0 true (Ok tt))
       (Ok (JString "0xabc")) 1%nat) = 1%nat.
Proof.
  apply (X26_refused_requests_touch_no_wallet Faucet.three_wallets
           (Faucet.sample_world 9000000000000 0 0 true (Ok tt))
           (JString "0xabc") 1%nat).
  right. right. exists "0xabc". split; reflexivity.
Defined.

(* ------------------------------------------------------------------ *)
(** ** The user search route *)

Example search_samples :
  Search.cleanQuery "@bob " = "bob" /\ Search.cleanQuery " @bob" = "@bob" /\
  Search.cleanQuery "@@bob" = "@bob" /\ Search.cleanQuery "@ " = "" /\
  Search.POST
    (Search.sample_world
       (Ok {| Search.ok := true; Search.status := 200;
              Search.json := Ok (Some Search.sample_user) |}) Throw)
    (Ok (JString "@@bob"))
  = ([Search.GetUserFromDatabase "@bob"; Search.NeynarByUsername "bob";
      Search.SaveUserToDatabase Search.sample_user],
     Ok (Search.Users [Search.transform Search.sample_user] (Some "api") None)).
Proof. vm_compute. repeat split. Qed.

Lemma nonempty_true (s : string) : s <> "" -> nonempty s = true.
Proof. destruct s; [contradiction | reflexivity]. Qed.

(** X27.  A user the database knows under the cleaned query is
    answered from the database: Neynar is not asked and nothing is
    written. *)
Theorem X27_known_user_is_answered_from_the_database
  (world : Search.World) (body : jsval) (query : string)
  (found : Search.NeynarUser) :
  Search.requestSchema body = Some query ->
  Search.cleanQuery query <> "" ->
  Search.getUserFromDatabase world (Search.cleanQuery query) = Ok (Some found) ->
  Search.POST world (Ok body)
  = ([Search.GetUserFromDatabase (Search.cleanQuery query)],
     Ok (Search.Users [Search.transform found] (Some "database") None)).
Proof.
  intros Hschema Hclean Hdb. search_run. simpl.
  rewrite Hschema, (nonempty_true _ Hclean). simpl. rewrite Hdb. reflexivity.
Qed.

Lemma X27_witness :
  Search.POST Search.cached_world (Ok (JString "@bob"))
  = ([Search.GetUserFromDatabase (Search.cleanQuery "@bob")],
     Ok (Search.Users [Search.transform Search.sample_user] (Some "database")
           None)).
Proof.
  apply (X27_known_user_is_answered_from_the_database Search.cached_world
           (JString "@bob") "@bob" Search.sample_user).
  - reflexivity.
  - discriminate.
  - reflexivity.
Defined.

(** X28.  When the database does not know the user and the call to
    Neynar fails -- it throws, answers with a status that is not ok, or
    its body cannot be read or holds no user -- the handler answers a
    success with no users and the message that none were found, and
    writes nothing: an outage reads like an unknown name. *)
Theorem X28_neynar_failure_reads_as_no_users
  (world : Search.World) (body : jsval) (query : string) :
  Search.requestSchema body = Some query ->
  Search.cleanQuery query <> "" ->
  Search.getUserFromDatabase world (Search.cleanQuery query) = Ok None ->
  (Search.neynar_by_username world (Search.cleanQuery (Search.cleanQuery query))
   = Throw \/
   exists response,
     Search.neynar_by_username world (Search.cleanQuery (Search.cleanQuery query))
     = Ok response /\
     (Search.ok response = false \/ Search.json response = Throw \/
      Search.json response = Ok None)) ->
  Search.answer (Search.POST world (Ok body))
  = Ok (Search.Users [] None (Some "No users found")) /\
  forall user, ~ In (Search.SaveUserToDatabase user)
                    (Search.calls (Search.POST world (Ok body))).
Proof.
  intros Hschema Hclean Hdb Hfail. search_run. unfold Search.answer, Search.calls. simpl.
  rewrite Hschema, (nonempty_true _ Hclean). simpl. rewrite Hdb. simpl.
  destruct (nonempty (Search.cleanQuery (Search.cleanQuery query))); simpl.
  2:{ split; [reflexivity |]. intros user [H | []]. discriminate. }
  destruct Hfail as [-> | (response & -> & Hresp)]; simpl.
  - split; [reflexivity |]. intros user H. simpl in H. intuition discriminate.
  - destruct (Search.ok response) eqn:Eok; simpl.
    + destruct Hresp as [H | [-> | ->]]; [discriminate | |]; simpl;
        (split; [reflexivity |]); intros user H; simpl in H;
        intuition discriminate.
    + destruct (Search.status response =? 404)%Z; simpl;
        (split; [reflexivity |]); intros user H; simpl in H;
        intuition discriminate.
Qed.

Lemma X28_witness :
  Search.answer (Search.POST (Search.sample_world Throw (Ok tt)) (Ok (JString "bob")))
  = Ok (Search.Users [] None (Some "No users found")) /\
  forall user,
    ~ In (Search.SaveUserToDatabase user)
         (Search.calls (Search.POST (Search.sample_world Throw (Ok tt))
                   (Ok (JString "bob")))).
Proof.
  apply (X28_neynar_failure_reads_as_no_users
           (Search.sample_world Throw (Ok tt)) (JString "bob") "bob").
  - reflexivity.
  - discriminate.
  - reflexivity.
  - left. reflexivity.
Defined.

(** X29.  A user found at Neynar is answered with the source "api"
    whether or not the write to the database succeeds.  The database
    was asked for the query cleaned once, Neynar for the query cleaned
    twice, and the user written is the user answered. *)
Theorem X29_found_user_survives_a_failed_write
  (world : Search.World) (body : jsval) (query : string)
  (response : Search.StatusResponse) (found : Search.NeynarUser) :
  Search.requestSchema body = Some query ->
  Search.cleanQuery (Search.cleanQuery query) <> "" ->
  Search.getUserFromDatabase world (Search.cleanQuery query) = Ok None ->
  Search.neynar_by_username world (Search.cleanQuery (Search.cleanQuery query))
  = Ok response ->
  Search.ok response = true ->
  Search.json response = Ok (Some found) ->
  Search.POST world (Ok body)
  = ([Search.GetUserFromDatabase (Search.cleanQuery query);
      Search.NeynarByUsername (Search.cleanQuery (Search.cleanQuery query));
      Search.SaveUserToDatabase found],
     Ok (Search.Users [Search.transform found] (Some "api") None)).
Proof.
  intros Hschema Hclean2 Hdb Hneynar Hok Hjson.
  assert (Hclean : Search.cleanQuery query <> "").
  { intros E. rewrite E in Hclean2. apply Hclean2. reflexivity. }
  search_run. simpl.
  rewrite Hschema, (nonempty_true _ Hclean). simpl. rewrite Hdb. simpl.
  rewrite (nonempty_true _ Hclean2). simpl.
  rewrite Hneynar. simpl. rewrite Hok. simpl. rewrite Hjson. simpl.
  destruct (Search.saveUserToDatabase world found); reflexivity.
Qed.

Lemma X29_witness :
  Search.POST
    (Search.sample_world
       (Ok {| Search.ok := true; Search.status := 200;
              Search.json := Ok (Some Search.sample_user) |}) Throw)
    (Ok (JString "@@bob"))
  = ([Search.GetUserFromDatabase (Search.cleanQuery "@@bob");
      Search.NeynarByUsername (Search.cleanQuery (Search.cleanQuery "@@bob"));
      Search.SaveUserToDatabase Search.sample_user],
     Ok (Search.Users [Search.transform Search.sample_user] (Some "api") None)).
Proof.
  apply (X29_found_user_survives_a_failed_write
           (Search.sample_world
              (Ok {| Search.ok := true; Search.status := 200;
                     Search.json := Ok (Some Search.sample_user) |}) Throw)
           (JString "@@bob") "@@bob"
           {| Search.ok := true; Search.status := 200;
              Search.json := Ok (Some Search.sample_user) |}
           Search.sample_user).
  - reflexivity.
  - discriminate.
  - reflexivity.
  - reflexivity.
  - reflexivity.
  - reflexivity.
Defined.

(** X30.  The search handler answers every request, whatever the
    world does, and fails with status 500 only when the read of the
    database throws; a query that is empty once cleaned is answered
    without any call. *)
Theorem X30_search_always_answers
  (world : Search.World) (request : outcome jsval) :
  exists answer,
    Search.answer (Search.POST world request) = Ok answer /\
    (answer = Search.Failure 500 "Failed to search users. Please try again later."
     -> request = Throw \/
        exists body query,
          request = Ok body /\ Search.requestSchema body = Some query /\
          Search.getUserFromDatabase world (Search.cleanQuery query) = Throw) /\
    (forall body query,
       request = Ok body -> Search.requestSchema body = Some query ->
       Search.cleanQuery query = "" ->
       Search.POST world request
       = ([], Ok (Search.Users [] None (Some "No query provided")))).
Proof.
  search_run. unfold Search.answer.
  destruct request as [body |]; simpl.
  2:{ eexists. split; [reflexivity |]. split; [auto | discriminate]. }
  destruct (Search.requestSchema body) as [query |] eqn:Eschema; simpl.
  2:{ eexists. split; [reflexivity |]. split; [discriminate |].
      intros b q H. injection H as <-. congruence. }
  destruct (nonempty (Search.cleanQuery query)) eqn:Enonempty; simpl.
  2:{ eexists. split; [reflexivity |]. split; [discriminate |].
      intros b q H H' _. reflexivity. }
  assert (Hempty : forall b q A (x y : A),
             Ok body = Ok b -> Search.requestSchema b = Some q ->
             Search.cleanQuery q = "" -> x = y).
  { intros b q A x y H H' E. injection H as <-.
    rewrite Eschema in H'. injection H' as <-.
    rewrite E in Enonempty. discriminate. }
  destruct (Search.getUserFromDatabase world (Search.cleanQuery query))
    as [[found |] |] eqn:Edb; simpl.
  - eexists. split; [reflexivity |]. split; [discriminate |].
    intros b q H H' E. apply (Hempty b q); assumption.
  - destruct (nonempty (Search.cleanQuery (Search.cleanQuery query))); simpl.
    2:{ eexists. split; [reflexivity |]. split; [discriminate |].
        intros b q H H' E. apply (Hempty b q); assumption. }
    destruct (Search.neynar_by_username world _) as [response |]; simpl.
    2:{ eexists. split; [reflexivity |]. split; [discriminate |].
        intros b q H H' E. apply (Hempty b q); assumption. }
    destruct (Search.ok response); simpl.
    + destruct (Search.json response) as [[user |] |]; simpl;
        try (eexists; split; [reflexivity |]; split; [discriminate |];
             intros b q H H' E; apply (Hempty b q); assumption).
      destruct (Search.saveUserToDatabase world user); simpl;
        (eexists; split; [reflexivity |]; split; [discriminate |];
         intros b q H H' E; apply (Hempty b q); assumption).
    + destruct (Search.status response =? 404)%Z; simpl;
        (eexists; split; [reflexivity |]; split; [discriminate |];
         intros b q H H' E; apply (Hempty b q); assumption).
  - eexists. split; [reflexivity |]. split.
    + intros _. right. exists body, query. auto.
    + intros b q H H' E. apply (Hempty b q); assumption.
Qed.
